(** * pyv4l2: the media-controller graph of [pyv4l2/media.py]

    A shallow embedding of the topology reader, the object model, the
    graph resolver ([_finalize]) and the link controller ([_setup]) of
    [pyv4l2.media], with the properties the specification states about them.

    Python objects are mutable and shared.  The objects of one device live
    in one list, [MediaDevice.objects]; a reference to an object is its
    position in that list ([ref]), so that two references are the same
    Python object exactly when they are equal.  Exceptions are values of
    [exn]; code that can raise returns a [result]. *)

From Stdlib Require Import ZArith String Ascii List Bool Lia DecimalString.
From Stdlib.Strings Require Import Byte.
From stdpp Require Import base option list.

(** ** Exceptions *)

Inductive exn : Type :=
| StopIteration
| RuntimeError (msg : string)
| OSError (errno : Z)
| FileNotFoundError (msg : string)
| ValueError
| UnicodeDecodeError
| AttributeError
| TypeError.

Inductive result (A : Type) : Type :=
| Ok (a : A)
| Raise (e : exn).
Arguments Ok {A} a.
Arguments Raise {A} e.

#[global] Instance result_ret : MRet result := λ A a, Ok a.
#[global] Instance result_bind : MBind result :=
  λ A B f m, match m with Ok a => f a | Raise e => Raise e end.
#[global] Instance result_fmap : FMap result :=
  λ A B f m, match m with Ok a => Ok (f a) | Raise e => Raise e end.

Definition raised {A} (r : result A) : Prop := ∃ e, r = Raise e.

(** ** The kernel's records ([pyv4l2.uapi]) *)

Module uapi.

Module media_v2_entity.
(** Modelled from the spec: [pyv4l2/uapi] is not among the sources; the
    record has the fields [MediaEntity.__init__] reads (spec section 3).
    [name] is what ctypes returns for the character array: the bytes
    before the first terminator. *)
Record t := mk { id : Z; name : list byte; function : Z; flags : Z }.
Definition zero : t := mk 0 [] 0 0.
End media_v2_entity.

Module media_v2_interface.
(** Modelled from the spec: the fields [MediaInterface.__init__] reads, the
    device node being [unnamed_1.devnode.major] and [.minor]. *)
Record t := mk { id : Z; intf_type : Z; flags : Z; major : Z; minor : Z }.
Definition zero : t := mk 0 0 0 0 0.
End media_v2_interface.

Module media_v2_pad.
(** Modelled from the spec: the fields [MediaPad] reads. *)
Record t := mk { id : Z; entity_id : Z; flags : Z; index : Z }.
Definition zero : t := mk 0 0 0 0.
End media_v2_pad.

Module media_v2_link.
(** Modelled from the spec: the fields [MediaLink] reads. *)
Record t := mk { id : Z; source_id : Z; sink_id : Z; flags : Z }.
Definition zero : t := mk 0 0 0 0.
End media_v2_link.

Module media_v2_topology.
(** Modelled from the spec: the header of the topology query, the four
    counts and whether each buffer pointer is set (spec section 4.1). *)
Record t := mk {
  topology_version : Z;
  num_entities : nat; ptr_entities : bool;
  num_interfaces : nat; ptr_interfaces : bool;
  num_pads : nat; ptr_pads : bool;
  num_links : nat; ptr_links : bool }.
Definition zero : t := mk 0 0 false 0 false 0 false 0 false.
End media_v2_topology.

Module media_device_info.
(** Modelled from the spec: the fields [__read_device_info] reads. *)
Record t := mk {
  driver : list byte; model : list byte; serial : list byte;
  bus_info : list byte;
  media_version : Z; hw_revision : Z; driver_version : Z }.
End media_device_info.

(** What ctypes keeps of an integer assigned to a 16-bit unsigned field:
    its low 16 bits. *)
Definition c_uint16 (z : Z) : Z := z mod 65536.

Module media_pad_desc.
(** Modelled from the spec: one end of a link descriptor, the entity's ID
    and the pad's index (spec section 4.4).  In the kernel's structure
    [index] is a 16-bit field, narrower than the 32-bit index of a pad
    record: it holds a [c_uint16].  [entity], like the [flags] of the link
    descriptor, is a 32-bit field and is assigned the value of one. *)
Record t := mk { entity : Z; index : Z }.
End media_pad_desc.

Module media_link_desc.
(** Modelled from the spec: the descriptor of the setup-link call. *)
Record t := mk { source : media_pad_desc.t; sink : media_pad_desc.t; flags : Z }.
End media_link_desc.

End uapi.

(** What the host leaves to modules and files that are not part of
    [media.py]: the constants and enumerations of [pyv4l2.uapi] and
    [pyv4l2.enums], the Python built-ins used on strings, and the files of
    the host.  Every theorem holds for every host. *)
Class Host := {
  (** the enabled bit of a link's flags, [uapi.MEDIA_LNK_FL_ENABLED] *)
  MEDIA_LNK_FL_ENABLED : Z;
  (** whether a value is a member of the enumeration; converting any other
      value raises [ValueError] *)
  MediaEntityFunction : Z → bool;
  MediaInterfaceType : Z → bool;
  (** [bytes.decode()], [None] when it raises [UnicodeDecodeError] *)
  decode : list byte → option string;
  (** [fnmatch.fnmatch] *)
  fnmatch : string → string → bool;
  (** [glob.glob('/dev/media*')] *)
  glob_dev_media : list string;
  (** [f.readlines()] of [/sys/dev/char/major:minor/uevent], or what opening
      and reading the file raises *)
  uevent_readlines : Z → Z → result (list string) }.

(** ** [pyv4l2/helpers.py] *)

Definition isspace (c : ascii) : bool :=
  let n := N_of_ascii c in
  ((9 <=? n) && (n <=? 13) || (28 <=? n) && (n <=? 32))%N.

Fixpoint lstrip (s : list ascii) : list ascii :=
  match s with
  | c :: s' => if isspace c then lstrip s' else s
  | [] => []
  end.

Definition strip (s : string) : string :=
  string_of_list_ascii
    (rev (lstrip (rev (lstrip (list_ascii_of_string s))))).

Definition decimal (z : Z) : string := NilZero.string_of_int (Z.to_int z).

Section helpers.
Context `{Host}.

Fixpoint DEVNAME_of (lines : list string) : option string :=
  match lines with
  | [] => None
  | l :: lines' =>
      if negb (String.prefix "DEVNAME=" l) then DEVNAME_of lines'
      else
        let path := strip (String.substring 8 (String.length l - 8) l) in
        Some ("/dev/" ++ path)%string
  end.

Definition filepath_for_major_minor (major minor : Z) : result string :=
  lines ← uevent_readlines major minor;
  match DEVNAME_of lines with
  | Some p => Ok p
  | None =>
      Raise (RuntimeError ("No device-node found for (" ++ decimal major ++ ","
                           ++ decimal minor ++ ")")%string)
  end.

End helpers.

(** ** The object model

    A [ref] is a position in [MediaDevice.objects].  An attribute that holds
    [None] in Python, or that is not yet assigned, is [None] here. *)

Abbreviation ref := nat (only parsing).

Module MediaEntity.
Record t := mk {
  media_entity : uapi.media_v2_entity.t;
  name : string;
  function : Z;
  flags : Z;
  pads : option (list ref);
  interface : option ref }.
End MediaEntity.

Module MediaInterface.
Record t := mk {
  media_iface : uapi.media_v2_interface.t;
  majorminor : Z * Z;
  dev_path : string;
  intf_type : Z }.
End MediaInterface.

Module MediaPad.
Record t := mk {
  media_pad : uapi.media_v2_pad.t;
  index : Z;
  entity : option ref }.
End MediaPad.

Module MediaLink.
Record t := mk {
  media_link : uapi.media_v2_link.t;
  flags : Z;
  source : option ref;
  sink : option ref }.
End MediaLink.

(** The subclass of an object together with the subclass's attributes. *)
Inductive instance : Type :=
| AnEntity (e : MediaEntity.t)
| AnInterface (i : MediaInterface.t)
| APad (p : MediaPad.t)
| ALink (l : MediaLink.t).

Module MediaObject.
(** The attributes of the base class ([md] is the device whose [objects]
    the object is part of) and the subclass part. *)
Record t := mk { id : Z; links : option (list ref); this : instance }.
End MediaObject.

Module MediaTopology.
Record t := mk {
  topology : uapi.media_v2_topology.t;
  entities : list uapi.media_v2_entity.t;
  interfaces : list uapi.media_v2_interface.t;
  pads : list uapi.media_v2_pad.t;
  links : list uapi.media_v2_link.t }.
End MediaTopology.

Module MediaDevice.
Record t := mk {
  fd : Z;
  driver : string; model : string; serial : string; bus_info : string;
  media_version : Z * Z * Z;
  hw_revision : Z;
  driver_version : Z * Z * Z;
  topology : MediaTopology.t;
  objects : list MediaObject.t }.
End MediaDevice.

(** *** Constructors *)

Definition decode_ascii (b : list byte) : option string :=
  if forallb (λ c, (Byte.to_N c <? 128)%N) b
  then Some (string_of_list_byte b) else None.

Section constructors.
Context `{Host}.

Definition MediaEntity_init (media_entity : uapi.media_v2_entity.t)
  : result MediaObject.t :=
  name ← match decode_ascii (uapi.media_v2_entity.name media_entity) with
         | Some s => Ok s
         | None => Raise UnicodeDecodeError
         end;
  function ← (if MediaEntityFunction (uapi.media_v2_entity.function media_entity)
              then Ok (uapi.media_v2_entity.function media_entity)
              else Raise ValueError);
  Ok (MediaObject.mk (uapi.media_v2_entity.id media_entity) None
        (AnEntity (MediaEntity.mk media_entity name function
                     (uapi.media_v2_entity.flags media_entity) None None))).

Definition MediaInterface_init (media_iface : uapi.media_v2_interface.t)
  : result MediaObject.t :=
  let majorminor := (uapi.media_v2_interface.major media_iface,
                     uapi.media_v2_interface.minor media_iface) in
  dev_path ← filepath_for_major_minor majorminor.1 majorminor.2;
  intf_type ← (if MediaInterfaceType (uapi.media_v2_interface.intf_type media_iface)
               then Ok (uapi.media_v2_interface.intf_type media_iface)
               else Raise ValueError);
  Ok (MediaObject.mk (uapi.media_v2_interface.id media_iface) None
        (AnInterface (MediaInterface.mk media_iface majorminor dev_path intf_type))).

Definition MediaPad_init (media_pad : uapi.media_v2_pad.t) : result MediaObject.t :=
  Ok (MediaObject.mk (uapi.media_v2_pad.id media_pad) None
        (APad (MediaPad.mk media_pad (uapi.media_v2_pad.index media_pad) None))).

Definition MediaLink_init (media_link : uapi.media_v2_link.t) : result MediaObject.t :=
  Ok (MediaObject.mk (uapi.media_v2_link.id media_link) None
        (ALink (MediaLink.mk media_link (uapi.media_v2_link.flags media_link)
                  None None))).

End constructors.

(** *** Reading the objects of a device *)

Definition is_MediaEntity (o : MediaObject.t) : bool :=
  match MediaObject.this o with AnEntity _ => true | _ => false end.
Definition is_MediaInterface (o : MediaObject.t) : bool :=
  match MediaObject.this o with AnInterface _ => true | _ => false end.
Definition is_MediaPad (o : MediaObject.t) : bool :=
  match MediaObject.this o with APad _ => true | _ => false end.
Definition is_MediaLink (o : MediaObject.t) : bool :=
  match MediaObject.this o with ALink _ => true | _ => false end.

(** [isinstance(o, cls)] for the object a reference points to. *)
Definition isinstance (objects : list MediaObject.t)
    (cls : MediaObject.t → bool) (o : ref) : bool :=
  from_option cls false (objects !! o).

(** [o.id == id] *)
Definition has_id (objects : list MediaObject.t) (id : Z) (o : ref) : bool :=
  from_option (λ ob, MediaObject.id ob =? id)%Z false (objects !! o).

(** [p.media_pad] and [l.media_link] *)
Definition media_pad_of (objects : list MediaObject.t) (p : ref)
  : option uapi.media_v2_pad.t :=
  match MediaObject.this <$> objects !! p with
  | Some (APad k) => Some (MediaPad.media_pad k)
  | _ => None
  end.
Definition media_link_of (objects : list MediaObject.t) (l : ref)
  : option uapi.media_v2_link.t :=
  match MediaObject.this <$> objects !! l with
  | Some (ALink k) => Some (MediaLink.media_link k)
  | _ => None
  end.

(** The references in [self.objects], in order. *)
Definition refs (objects : list MediaObject.t) : list ref :=
  seq 0 (length objects).

Definition MediaDevice_entities (objects : list MediaObject.t) : list ref :=
  filter (λ o, isinstance objects is_MediaEntity o) (refs objects).
Definition MediaDevice_pads (objects : list MediaObject.t) : list ref :=
  filter (λ o, isinstance objects is_MediaPad o) (refs objects).
Definition MediaDevice_links (objects : list MediaObject.t) : list ref :=
  filter (λ o, isinstance objects is_MediaLink o) (refs objects).
Definition MediaDevice_interfaces (objects : list MediaObject.t) : list ref :=
  filter (λ o, isinstance objects is_MediaInterface o) (refs objects).

(** [next((o for o in self.objects if o.id == id), None)] *)
Definition MediaDevice_find_id (objects : list MediaObject.t) (id : Z)
  : option ref :=
  head (filter (λ o, has_id objects id o) (refs objects)).

(** Reading an attribute of the object behind a reference: [attr] is [None]
    for an object that has no such attribute, which raises. *)
Definition getattr {A} (objects : list MediaObject.t) (o : ref)
    (attr : MediaObject.t → option A) : result A :=
  match objects !! o ≫= attr with
  | Some a => Ok a
  | None => Raise AttributeError
  end.

Definition attr_id (o : MediaObject.t) : option Z := Some (MediaObject.id o).
Definition attr_links (o : MediaObject.t) : option (list ref) := MediaObject.links o.
Definition attr_media_pad (o : MediaObject.t) : option uapi.media_v2_pad.t :=
  match MediaObject.this o with APad p => Some (MediaPad.media_pad p) | _ => None end.
Definition attr_media_link (o : MediaObject.t) : option uapi.media_v2_link.t :=
  match MediaObject.this o with ALink l => Some (MediaLink.media_link l) | _ => None end.
Definition attr_pads (o : MediaObject.t) : option (option (list ref)) :=
  match MediaObject.this o with AnEntity e => Some (MediaEntity.pads e) | _ => None end.
Definition attr_interface (o : MediaObject.t) : option (option ref) :=
  match MediaObject.this o with AnEntity e => Some (MediaEntity.interface e) | _ => None end.
Definition attr_entity (o : MediaObject.t) : option (option ref) :=
  match MediaObject.this o with APad p => Some (MediaPad.entity p) | _ => None end.
Definition attr_index (o : MediaObject.t) : option Z :=
  match MediaObject.this o with APad p => Some (MediaPad.index p) | _ => None end.
Definition attr_source (o : MediaObject.t) : option (option ref) :=
  match MediaObject.this o with ALink l => Some (MediaLink.source l) | _ => None end.
Definition attr_sink (o : MediaObject.t) : option (option ref) :=
  match MediaObject.this o with ALink l => Some (MediaLink.sink l) | _ => None end.
(** [flags] is read of links only. *)
Definition attr_flags (o : MediaObject.t) : option Z :=
  match MediaObject.this o with ALink l => Some (MediaLink.flags l) | _ => None end.

(** Assigning an attribute of one object; the other attributes stay. *)
Definition set_links (v : list ref) (o : MediaObject.t) : MediaObject.t :=
  MediaObject.mk (MediaObject.id o) (Some v) (MediaObject.this o).
Definition set_this (f : instance → instance) (o : MediaObject.t) : MediaObject.t :=
  MediaObject.mk (MediaObject.id o) (MediaObject.links o) (f (MediaObject.this o)).
Definition set_pads (v : list ref) : MediaObject.t → MediaObject.t :=
  set_this (λ i, match i with
                 | AnEntity e =>
                     AnEntity (MediaEntity.mk (MediaEntity.media_entity e)
                       (MediaEntity.name e) (MediaEntity.function e)
                       (MediaEntity.flags e) (Some v) (MediaEntity.interface e))
                 | _ => i
                 end).
Definition set_interface (v : option ref) : MediaObject.t → MediaObject.t :=
  set_this (λ i, match i with
                 | AnEntity e =>
                     AnEntity (MediaEntity.mk (MediaEntity.media_entity e)
                       (MediaEntity.name e) (MediaEntity.function e)
                       (MediaEntity.flags e) (MediaEntity.pads e) v)
                 | _ => i
                 end).
Definition set_entity (v : option ref) : MediaObject.t → MediaObject.t :=
  set_this (λ i, match i with
                 | APad p => APad (MediaPad.mk (MediaPad.media_pad p) (MediaPad.index p) v)
                 | _ => i
                 end).
Definition set_source (v : option ref) : MediaObject.t → MediaObject.t :=
  set_this (λ i, match i with
                 | ALink l => ALink (MediaLink.mk (MediaLink.media_link l)
                                       (MediaLink.flags l) v (MediaLink.sink l))
                 | _ => i
                 end).
Definition set_sink (v : option ref) : MediaObject.t → MediaObject.t :=
  set_this (λ i, match i with
                 | ALink l => ALink (MediaLink.mk (MediaLink.media_link l)
                                       (MediaLink.flags l) (MediaLink.source l) v)
                 | _ => i
                 end).
Definition set_flags (v : Z) : MediaObject.t → MediaObject.t :=
  set_this (λ i, match i with
                 | ALink l => ALink (MediaLink.mk (MediaLink.media_link l) v
                                       (MediaLink.source l) (MediaLink.sink l))
                 | _ => i
                 end).

(** [next(g)] on a generator without a default. *)
Definition next {A} (g : list A) : result A :=
  match head g with
  | Some a => Ok a
  | None => Raise StopIteration
  end.

(** ** The graph resolver: [_finalize] *)

(** [id in (l.media_link.source_id, l.media_link.sink_id)] *)
Definition incident (objects : list MediaObject.t) (id : Z) (l : ref) : bool :=
  match media_link_of objects l with
  | Some k => (id =? uapi.media_v2_link.source_id k)%Z
              || (id =? uapi.media_v2_link.sink_id k)%Z
  | None => false
  end.

(** [p.media_pad.entity_id == id] *)
Definition owned_by (objects : list MediaObject.t) (id : Z) (p : ref) : bool :=
  match media_pad_of objects p with
  | Some k => (uapi.media_v2_pad.entity_id k =? id)%Z
  | None => false
  end.

(** [MediaObject._finalize]: [self.links] *)
Definition MediaObject_finalize (objects : list MediaObject.t) (self : ref)
  : list MediaObject.t :=
  alter (λ o, set_links (filter (λ l, incident objects (MediaObject.id o) l)
                           (MediaDevice_links objects)) o)
        self objects.

(** The two nested loops of [MediaEntity._finalize] that collect [ifaces]:
    the body of the inner loop, the inner loop over the two IDs of a link,
    and the outer loop. *)
Definition visit_id (objects : list MediaObject.t) (ifaces : list ref) (id : Z)
  : list ref :=
  match MediaDevice_find_id objects id with
  | Some ob =>
      if negb (isinstance objects is_MediaInterface ob) then ifaces
      else ifaces ++ [ob]
  | None => ifaces
  end.

Definition visit_ids (objects : list MediaObject.t) (ifaces : list ref)
    (ids : Z * Z) : list ref :=
  fold_left (visit_id objects) [ids.1; ids.2] ifaces.

Definition collect_ifaces (objects : list MediaObject.t)
    (idss : list (Z * Z)) : list ref :=
  fold_left (visit_ids objects) idss [].

(** [[(l.media_link.source_id, l.media_link.sink_id) for l in links]] *)
Definition endpoint_ids (objects : list MediaObject.t) (links : list ref)
  : list (Z * Z) :=
  omap (λ l, (λ k, (uapi.media_v2_link.source_id k,
                    uapi.media_v2_link.sink_id k)) <$> media_link_of objects l)
       links.

(** [MediaEntity._finalize]: [self.links], [self.pads] and, when it does not
    raise, [self.interface] *)
Definition MediaEntity_finalize (objects : list MediaObject.t) (self : ref)
  : result (list MediaObject.t) :=
  let objects := MediaObject_finalize objects self in
  id ← getattr objects self attr_id;
  let objects :=
    alter (set_pads (filter (λ p, owned_by objects id p) (MediaDevice_pads objects)))
          self objects in
  links ← getattr objects self attr_links;
  let ifaces := collect_ifaces objects (endpoint_ids objects links) in
  if 1 <? length ifaces then Raise (RuntimeError "Multiple interfaces for entity")
  else if 0 <? length ifaces
       then Ok (alter (set_interface (head ifaces)) self objects)
       else Ok objects.

(** [MediaInterface._finalize] *)
Definition MediaInterface_finalize (objects : list MediaObject.t) (self : ref)
  : result (list MediaObject.t) :=
  Ok (MediaObject_finalize objects self).

(** [MediaPad._finalize]: [self.links] and [self.entity]; [next] raises
    when no entity has the ID *)
Definition MediaPad_finalize (objects : list MediaObject.t) (self : ref)
  : result (list MediaObject.t) :=
  let objects := MediaObject_finalize objects self in
  media_pad ← getattr objects self attr_media_pad;
  e ← next (filter (λ e, has_id objects (uapi.media_v2_pad.entity_id media_pad) e)
              (MediaDevice_entities objects));
  Ok (alter (set_entity (Some e)) self objects).

(** [MediaLink._finalize]: [self.links], [self.source] and [self.sink];
    [next] raises when no object has the ID *)
Definition MediaLink_finalize (objects : list MediaObject.t) (self : ref)
  : result (list MediaObject.t) :=
  let objects := MediaObject_finalize objects self in
  media_link ← getattr objects self attr_media_link;
  e ← next (filter (λ e, has_id objects (uapi.media_v2_link.source_id media_link) e)
              (refs objects));
  let objects := alter (set_source (Some e)) self objects in
  e ← next (filter (λ e, has_id objects (uapi.media_v2_link.sink_id media_link) e)
              (refs objects));
  Ok (alter (set_sink (Some e)) self objects).

(** [o._finalize()], dispatched on the class of [o]. *)
Definition _finalize (objects : list MediaObject.t) (o : ref)
  : result (list MediaObject.t) :=
  match MediaObject.this <$> objects !! o with
  | Some (AnEntity _) => MediaEntity_finalize objects o
  | Some (AnInterface _) => MediaInterface_finalize objects o
  | Some (APad _) => MediaPad_finalize objects o
  | Some (ALink _) => MediaLink_finalize objects o
  | None => Raise AttributeError
  end.

(** [for o in self.objects: o._finalize()] *)
Fixpoint finalize_each (todo : list ref) (objects : list MediaObject.t)
  : result (list MediaObject.t) :=
  match todo with
  | [] => Ok objects
  | o :: todo' => objects' ← _finalize objects o; finalize_each todo' objects'
  end.

Section resolver.
Context `{Host}.

(** The second half of [MediaDevice.__read_topology].  First one object per
    record: entities, then interfaces, pads and links. *)
Definition construct (topology : MediaTopology.t) : result (list MediaObject.t) :=
  entities ← mapM MediaEntity_init (MediaTopology.entities topology);
  interfaces ← mapM MediaInterface_init (MediaTopology.interfaces topology);
  pads ← mapM MediaPad_init (MediaTopology.pads topology);
  links ← mapM MediaLink_init (MediaTopology.links topology);
  Ok (entities ++ interfaces ++ pads ++ links).

(** Then the finalisation of each.  When it raises, the device under
    construction is dropped together with its objects, so that the objects
    are returned only on success. *)
Definition resolve (topology : MediaTopology.t) : result (list MediaObject.t) :=
  objects ← construct topology;
  finalize_each (refs objects) objects.

End resolver.

(** [MediaEntity.pad_links] *)
Definition MediaEntity_pad_links (objects : list MediaObject.t) (self : ref)
  : result (list ref) :=
  pads ← getattr objects self attr_pads;
  match pads with
  | None => Raise TypeError
  | Some pads => (λ ls, concat ls) <$> mapM (λ p, getattr objects p attr_links) pads
  end.

(** [MediaLink.source_pad] and [MediaLink.sink_pad] *)
Definition MediaLink_source_pad (objects : list MediaObject.t) (self : ref)
  : result ref :=
  source ← getattr objects self attr_source;
  match source with
  | Some s => if isinstance objects is_MediaPad s then Ok s
              else Raise (RuntimeError "Source is not a MediaPad")
  | None => Raise (RuntimeError "Source is not a MediaPad")
  end.

Definition MediaLink_sink_pad (objects : list MediaObject.t) (self : ref)
  : result ref :=
  sink ← getattr objects self attr_sink;
  match sink with
  | Some s => if isinstance objects is_MediaPad s then Ok s
              else Raise (RuntimeError "Sink is not a MediaPad")
  | None => Raise (RuntimeError "Sink is not a MediaPad")
  end.

(** ** The device: descriptors, ioctl calls and the kernel

    Everything the process does to the outside is recorded, in order, as an
    [event].  The kernel is any function of the events so far: a mock
    transport is one instance, a device whose topology changes between two
    calls another. *)

Inductive request : Type :=
| MEDIA_IOC_DEVICE_INFO
| MEDIA_IOC_G_TOPOLOGY (arg : uapi.media_v2_topology.t)
| MEDIA_IOC_SETUP_LINK (arg : uapi.media_link_desc.t).

Inductive event : Type :=
| Opened (path : string) (fd : Z)
| Closed (fd : Z)
| Ioctl (fd : Z) (req : request).

(** What a successful topology query leaves in the caller's memory: the
    counts in the header, and the records written through each pointer that
    is set. *)
Record topology_reply := mk_topology_reply {
  reply_version : Z;
  reply_num_entities : nat;
  reply_num_interfaces : nat;
  reply_num_pads : nat;
  reply_num_links : nat;
  reply_entities : list uapi.media_v2_entity.t;
  reply_interfaces : list uapi.media_v2_interface.t;
  reply_pads : list uapi.media_v2_pad.t;
  reply_links : list uapi.media_v2_link.t }.

(** A call fails with an error number ([inl]) or succeeds ([inr]). *)
Class Kernel := {
  sys_open : list event → string → Z + Z;
  sys_device_info : list event → Z → Z + uapi.media_device_info.t;
  sys_g_topology : list event → Z → uapi.media_v2_topology.t → Z + topology_reply;
  sys_setup_link : list event → Z → uapi.media_link_desc.t → Z + unit }.

(** The state of the process outside the objects: the events so far and the
    descriptors that [weakref.finalize(self, os.close, fd)] has registered
    and not yet closed. *)
Record World := mk_World { events : list event; finalizers : list Z }.

Definition log (e : event) (w : World) : World :=
  mk_World (events w ++ [e]) (finalizers w).

(** Code with effects on a state [S] that can raise: the state at the
    moment of the exception is kept. *)
Definition M (S A : Type) : Type := S → result A * S.

#[global] Instance M_ret {S} : MRet (M S) := λ A a s, (Ok a, s).
#[global] Instance M_bind {S} : MBind (M S) :=
  λ A B f m s, match m s with
               | (Ok a, s') => f a s'
               | (Raise e, s') => (Raise e, s')
               end.

Definition lift {S A} (r : result A) : M S A := λ s, (r, s).

(** [try: body finally: final] *)
Definition try_finally {S A} (body : M S A) (final : M S unit) : M S A :=
  λ s, match body s with
       | (r, s') => match final s' with
                    | (Ok _, s'') => (r, s'')
                    | (Raise e, s'') => (Raise e, s'')
                    end
       end.

Section transport.
Context `{Kernel}.

Definition os_open (path : string) : M World Z :=
  λ w, match sys_open (events w) path with
       | inr fd => (Ok fd, log (Opened path fd) w)
       | inl errno => (Raise (OSError errno), w)
       end.

Definition os_close (fd : Z) : M World unit :=
  λ w, (Ok (), log (Closed fd) w).

Definition ioctl_device_info (fd : Z) : M World uapi.media_device_info.t :=
  λ w, let w' := log (Ioctl fd MEDIA_IOC_DEVICE_INFO) w in
       match sys_device_info (events w) fd with
       | inr mdi => (Ok mdi, w')
       | inl errno => (Raise (OSError errno), w')
       end.

Definition ioctl_g_topology (fd : Z) (topology : uapi.media_v2_topology.t)
  : M World topology_reply :=
  λ w, let w' := log (Ioctl fd (MEDIA_IOC_G_TOPOLOGY topology)) w in
       match sys_g_topology (events w) fd topology with
       | inr reply => (Ok reply, w')
       | inl errno => (Raise (OSError errno), w')
       end.

Definition ioctl_setup_link (fd : Z) (desc : uapi.media_link_desc.t)
  : M World unit :=
  λ w, let w' := log (Ioctl fd (MEDIA_IOC_SETUP_LINK desc)) w in
       match sys_setup_link (events w) fd desc with
       | inr _ => (Ok (), w')
       | inl errno => (Raise (OSError errno), w')
       end.

End transport.

(** [weakref.finalize(self, os.close, fd)] *)
Definition weakref_finalize_close (fd : Z) : M World unit :=
  λ w, (Ok (), mk_World (events w) (finalizers w ++ [fd])).

(** The end of the handle's lifetime (the handle is collected, or the
    interpreter exits): every registered finalizer runs, once. *)
Definition teardown (w : World) : World :=
  mk_World (events w ++ map Closed (finalizers w)) [].

(** How often a descriptor has been opened and closed. *)
Definition is_close_of (fd : Z) (e : event) : bool :=
  match e with Closed fd' => (fd' =? fd)%Z | _ => false end.
Definition is_open_of (fd : Z) (e : event) : bool :=
  match e with Opened _ fd' => (fd' =? fd)%Z | _ => false end.
Definition closes (fd : Z) (w : World) : nat :=
  length (filter (λ e, is_close_of fd e) (events w)).
Definition opens (fd : Z) (w : World) : nat :=
  length (filter (λ e, is_open_of fd e) (events w)).

(** ** [MediaDevice] *)

(** [MediaDevice.__decode_kernel_version] *)
Definition decode_kernel_version (v : Z) : Z * Z * Z :=
  let a := Z.land (Z.shiftr v 16) 255 in
  let b := Z.land (Z.shiftr v 8) 255 in
  let c := Z.land v 255 in
  (a, b, c).

(** The buffer of [n] zeroed records after the kernel has written [written]
    through the pointer to it. *)
Definition filled {A} (zero : A) (n : nat) (written : list A) : list A :=
  take n (written ++ replicate (n - length written) zero).

Definition quote : string := String (ascii_of_nat 34) EmptyString.

Section device.
Context `{Host} `{Kernel}.

Definition decoded (b : list byte) : result string :=
  match decode b with
  | Some s => Ok s
  | None => Raise UnicodeDecodeError
  end.

(** [getattr(mdi, key).decode()] *)
Definition getattr_decode (mdi : uapi.media_device_info.t) (key : string)
  : result string :=
  if String.eqb key "driver" then decoded (uapi.media_device_info.driver mdi)
  else if String.eqb key "model" then decoded (uapi.media_device_info.model mdi)
  else if String.eqb key "serial" then decoded (uapi.media_device_info.serial mdi)
  else if String.eqb key "bus_info" then decoded (uapi.media_device_info.bus_info mdi)
  else Raise AttributeError.

(** The loop of [__find_media_device_by_value] over the paths that are left:
    a path that does not open is skipped, the descriptor of one that opens
    is closed in the [finally] clause whatever happens. *)
Fixpoint find_media_device_by_value_in (paths : list string) (key value : string)
  : M World string :=
  match paths with
  | [] => lift (Raise (FileNotFoundError
            ("No media device " ++ quote ++ key ++ quote ++ " = "
             ++ quote ++ value ++ quote ++ " found")%string))
  | path :: paths' =>
      λ w, match os_open path w with
           | (Raise (OSError _), w') =>
               find_media_device_by_value_in paths' key value w'
           | (Raise e, w') => (Raise e, w')
           | (Ok fd, w') =>
               match try_finally
                       (mdi ← ioctl_device_info fd;
                        device_val ← lift (getattr_decode mdi key);
                        mret (fnmatch device_val value))
                       (os_close fd) w' with
               | (Ok true, w'') => (Ok path, w'')
               | (Ok false, w'') =>
                   find_media_device_by_value_in paths' key value w''
               | (Raise e, w'') => (Raise e, w'')
               end
           end
  end.

(** [MediaDevice.__find_media_device_by_value] *)
Definition find_media_device_by_value (key value : string) : M World string :=
  find_media_device_by_value_in glob_dev_media key value.

(** [MediaDevice.__read_device_info] *)
Definition read_device_info (fd : Z)
  : M World (string * string * string * string * (Z * Z * Z) * Z * (Z * Z * Z)) :=
  mdi ← ioctl_device_info fd;
  driver ← lift (decoded (uapi.media_device_info.driver mdi));
  model ← lift (decoded (uapi.media_device_info.model mdi));
  serial ← lift (decoded (uapi.media_device_info.serial mdi));
  bus_info ← lift (decoded (uapi.media_device_info.bus_info mdi));
  let media_version :=
    decode_kernel_version (uapi.media_device_info.media_version mdi) in
  let hw_revision := uapi.media_device_info.hw_revision mdi in
  let driver_version :=
    decode_kernel_version (uapi.media_device_info.driver_version mdi) in
  mret (driver, model, serial, bus_info, media_version, hw_revision, driver_version).

(** The first half of [__read_topology]: the sizing call, the four buffers
    of the sizes it returned, and the filling call.  The header keeps what
    the last call returned. *)
Definition read_raw_topology (fd : Z) : M World MediaTopology.t :=
  let topology := uapi.media_v2_topology.zero in
  sized ← ioctl_g_topology fd topology;
  let n_entities := reply_num_entities sized in
  let n_interfaces := reply_num_interfaces sized in
  let n_pads := reply_num_pads sized in
  let n_links := reply_num_links sized in
  let topology :=
    uapi.media_v2_topology.mk (reply_version sized)
      n_entities true n_interfaces true n_pads true n_links true in
  got ← ioctl_g_topology fd topology;
  let topology :=
    uapi.media_v2_topology.mk (reply_version got)
      (reply_num_entities got) true (reply_num_interfaces got) true
      (reply_num_pads got) true (reply_num_links got) true in
  mret (MediaTopology.mk topology
          (filled uapi.media_v2_entity.zero n_entities (reply_entities got))
          (filled uapi.media_v2_interface.zero n_interfaces (reply_interfaces got))
          (filled uapi.media_v2_pad.zero n_pads (reply_pads got))
          (filled uapi.media_v2_link.zero n_links (reply_links got))).

(** [MediaDevice.__read_topology] *)
Definition read_topology (fd : Z) : M World (MediaTopology.t * list MediaObject.t) :=
  topology ← read_raw_topology fd;
  objects ← lift (resolve topology);
  mret (topology, objects).

(** [MediaDevice.__init__] *)
Definition MediaDevice_init (name : string) (key : string) : M World MediaDevice.t :=
  name ← (if negb (String.eqb key "path") then find_media_device_by_value key name
          else mret name);
  fd ← os_open name;
  '(driver, model, serial, bus_info, media_version, hw_revision, driver_version)
    ← read_device_info fd;
  '(topology, objects) ← read_topology fd;
  _ ← weakref_finalize_close fd;
  mret (MediaDevice.mk fd driver model serial bus_info media_version hw_revision
          driver_version topology objects).

End device.

(** ** The link controller *)

(** A constructed device and the world it lives in.  [MediaLink._setup]
    assigns [self.flags] of an object of [md.objects] in place. *)
Record Session := mk_Session { md : MediaDevice.t; world : World }.

Definition in_world {A} (m : M World A) : M Session A :=
  λ s, match m (world s) with (r, w') => (r, mk_Session (md s) w') end.

Definition self_md : M Session MediaDevice.t := λ s, (Ok (md s), s).

Definition with_objects (objects : list MediaObject.t) (d : MediaDevice.t)
  : MediaDevice.t :=
  MediaDevice.mk (MediaDevice.fd d) (MediaDevice.driver d) (MediaDevice.model d)
    (MediaDevice.serial d) (MediaDevice.bus_info d) (MediaDevice.media_version d)
    (MediaDevice.hw_revision d) (MediaDevice.driver_version d)
    (MediaDevice.topology d) objects.

Definition alter_object (f : MediaObject.t → MediaObject.t) (o : ref)
  : M Session unit :=
  λ s, (Ok (), mk_Session
                 (with_objects (alter f o (MediaDevice.objects (md s))) (md s))
                 (world s)).

(** [self.source_pad.entity.id] and the like: the entity of a pad, then the
    entity's ID. *)
Definition entity_id_of (objects : list MediaObject.t) (pad : ref) : result Z :=
  entity ← getattr objects pad attr_entity;
  match entity with
  | Some e => getattr objects e attr_id
  | None => Raise AttributeError
  end.

(** The descriptor [_setup] fills in before the call; the assignment to
    [index] keeps 16 bits. *)
Definition link_desc (objects : list MediaObject.t) (self : ref) (flags : Z)
  : result uapi.media_link_desc.t :=
  source_pad ← MediaLink_source_pad objects self;
  source_entity ← entity_id_of objects source_pad;
  source_pad ← MediaLink_source_pad objects self;
  source_index ← getattr objects source_pad attr_index;
  sink_pad ← MediaLink_sink_pad objects self;
  sink_entity ← entity_id_of objects sink_pad;
  sink_pad ← MediaLink_sink_pad objects self;
  sink_index ← getattr objects sink_pad attr_index;
  Ok (uapi.media_link_desc.mk
        (uapi.media_pad_desc.mk source_entity (uapi.c_uint16 source_index))
        (uapi.media_pad_desc.mk sink_entity (uapi.c_uint16 sink_index))
        flags).

Section link_controller.
Context `{Host} `{Kernel}.

(** [MediaLink._setup], [enable] and [disable] *)
Definition MediaLink_setup (self : ref) (flags : Z) : M Session unit :=
  d ← self_md;
  desc ← lift (link_desc (MediaDevice.objects d) self flags);
  _ ← in_world (ioctl_setup_link (MediaDevice.fd d) desc);
  alter_object (set_flags flags) self.

Definition MediaLink_enable (self : ref) : M Session unit :=
  MediaLink_setup self MEDIA_LNK_FL_ENABLED.

Definition MediaLink_disable (self : ref) : M Session unit :=
  MediaLink_setup self 0.

End link_controller.

(** ** What resolution computes

    The attributes [__init__] gives an object are never assigned by
    [_finalize]; [static] keeps them and forgets the others.  Everything
    [_finalize] reads of other objects is static, so that the object
    [o._finalize()] leaves in place of [o] is a function of [o] and of the
    objects as constructed: [finalized]. *)

Definition static (o : MediaObject.t) : MediaObject.t :=
  MediaObject.mk (MediaObject.id o) None
    match MediaObject.this o with
    | AnEntity e =>
        AnEntity (MediaEntity.mk (MediaEntity.media_entity e) (MediaEntity.name e)
                    (MediaEntity.function e) (MediaEntity.flags e) None None)
    | AnInterface i => AnInterface i
    | APad p => APad (MediaPad.mk (MediaPad.media_pad p) (MediaPad.index p) None)
    | ALink l => ALink (MediaLink.mk (MediaLink.media_link l) 0 None None)
    end.

Definition finalized (objects : list MediaObject.t) (o : MediaObject.t)
  : result MediaObject.t :=
  let id := MediaObject.id o in
  let links := filter (λ l, incident objects id l) (MediaDevice_links objects) in
  let o := set_links links o in
  match MediaObject.this o with
  | AnEntity _ =>
      let o := set_pads (filter (λ p, owned_by objects id p)
                           (MediaDevice_pads objects)) o in
      let ifaces := collect_ifaces objects (endpoint_ids objects links) in
      if 1 <? length ifaces then Raise (RuntimeError "Multiple interfaces for entity")
      else if 0 <? length ifaces then Ok (set_interface (head ifaces) o)
           else Ok o
  | AnInterface _ => Ok o
  | APad p =>
      e ← next (filter (λ e, has_id objects
                               (uapi.media_v2_pad.entity_id (MediaPad.media_pad p)) e)
                  (MediaDevice_entities objects));
      Ok (set_entity (Some e) o)
  | ALink l =>
      s ← next (filter (λ e, has_id objects
                               (uapi.media_v2_link.source_id (MediaLink.media_link l)) e)
                  (refs objects));
      k ← next (filter (λ e, has_id objects
                               (uapi.media_v2_link.sink_id (MediaLink.media_link l)) e)
                  (refs objects));
      Ok (set_sink (Some k) (set_source (Some s) o))
  end.

(** ** Topology snapshots *)

(** The IDs of all the objects of a snapshot. *)
Definition ids_of (topology : MediaTopology.t) : list Z :=
  (uapi.media_v2_entity.id <$> MediaTopology.entities topology)
  ++ (uapi.media_v2_interface.id <$> MediaTopology.interfaces topology)
  ++ (uapi.media_v2_pad.id <$> MediaTopology.pads topology)
  ++ (uapi.media_v2_link.id <$> MediaTopology.links topology).

(** Some pad's [entity_id], or some link's [source_id] or [sink_id], is the
    ID of no object of the snapshot. *)
Definition dangling (topology : MediaTopology.t) : Prop :=
  Exists (λ p, uapi.media_v2_pad.entity_id p ∉ ids_of topology)
    (MediaTopology.pads topology)
  ∨ Exists (λ l, uapi.media_v2_link.source_id l ∉ ids_of topology
                 ∨ uapi.media_v2_link.sink_id l ∉ ids_of topology)
      (MediaTopology.links topology).

(** The objects [MediaPad.__init__] and [MediaLink.__init__] build. *)
Definition pad_object (p : uapi.media_v2_pad.t) : MediaObject.t :=
  MediaObject.mk (uapi.media_v2_pad.id p) None
    (APad (MediaPad.mk p (uapi.media_v2_pad.index p) None)).

Definition link_object (l : uapi.media_v2_link.t) : MediaObject.t :=
  MediaObject.mk (uapi.media_v2_link.id l) None
    (ALink (MediaLink.mk l (uapi.media_v2_link.flags l) None None)).


(** The endpoints of the links [links] that are Interface objects: for each
    link, its source and its sink, looked up by ID. *)
Definition interface_endpoints (objects : list MediaObject.t) (links : list ref)
  : list ref :=
  l ← links;
  k ← option_list (media_link_of objects l);
  id ← [uapi.media_v2_link.source_id k; uapi.media_v2_link.sink_id k];
  ob ← option_list (MediaDevice_find_id objects id);
  if isinstance objects is_MediaInterface ob then [ob] else [].

(** The links incident to the object with ID [id]. *)
Definition incident_links (objects : list MediaObject.t) (id : Z) : list ref :=
  filter (λ l, incident objects id l) (MediaDevice_links objects).

(** ** Resolved graphs and pad-to-pad links *)

(** The pad [p] has its [entity], an entity of the graph. *)
Definition has_entity (objects : list MediaObject.t) (p : ref) : bool :=
  match getattr objects p attr_entity with
  | Ok (Some e) => isinstance objects is_MediaEntity e
  | _ => false
  end.

(** What every resolved graph has, and what the link controller relies on:
    every pad has its entity. *)
Definition resolved (objects : list MediaObject.t) : bool :=
  forallb (has_entity objects) (MediaDevice_pads objects).

(** An endpoint of a link is a Pad. *)
Definition endpoint_is_pad (objects : list MediaObject.t) (endpoint : option ref)
  : bool :=
  from_option (isinstance objects is_MediaPad) false endpoint.

(** [self] is a link whose source and sink are both Pads. *)
Definition pad_to_pad (objects : list MediaObject.t) (self : ref) : bool :=
  match MediaObject.this <$> objects !! self with
  | Some (ALink l) =>
      endpoint_is_pad objects (MediaLink.source l)
      && endpoint_is_pad objects (MediaLink.sink l)
  | _ => false
  end.

Section toggling.
Context `{Host} `{Kernel}.

(** Setting the enabled state of a link: [enable()] or [disable()], and the
    flag word each requests. *)
Definition set_link_enabled (self : ref) (enabled : bool) : M Session unit :=
  if enabled then MediaLink_enable self else MediaLink_disable self.

Definition requested_flags (enabled : bool) : Z :=
  if enabled then MEDIA_LNK_FL_ENABLED else 0.


End toggling.

(** ** The two-phase topology read *)

Section two_phase.
Context `{Kernel}.

(** The replies of the kernel to the sizing call and to the filling call of
    [__read_topology], when both calls succeed. *)
Definition topology_replies (fd : Z) (w : World)
  : option (topology_reply * topology_reply) :=
  match ioctl_g_topology fd uapi.media_v2_topology.zero w with
  | (Ok sized, w') =>
      match ioctl_g_topology fd
              (uapi.media_v2_topology.mk (reply_version sized)
                 (reply_num_entities sized) true (reply_num_interfaces sized) true
                 (reply_num_pads sized) true (reply_num_links sized) true) w' with
      | (Ok got, _) => Some (sized, got)
      | _ => None
      end
  | _ => None
  end.

End two_phase.

Definition counts (r : topology_reply) : nat * nat * nat * nat :=
  (reply_num_entities r, reply_num_interfaces r, reply_num_pads r, reply_num_links r).

(** ** Examples

    A host in the manner of Linux, a two-entity pipeline with a video node,
    and kernels that serve it. *)

Definition newline : string := String (ascii_of_nat 10) EmptyString.

Definition a_host : Host := {|
  MEDIA_LNK_FL_ENABLED := 1;
  MediaEntityFunction := λ _, true;
  MediaInterfaceType := λ _, true;
  decode := λ b, Some (string_of_list_byte b);
  fnmatch := String.eqb;
  glob_dev_media := ["/dev/media0"%string];
  uevent_readlines := λ _ _, Ok [("MAJOR=81" ++ newline)%string;
                                 ("DEVNAME=video0" ++ newline)%string] |}.

(** A sensor (entity 1, source pad 3) linked by link 5 to a capture node
    (entity 2, sink pad 4), whose video node, interface 7, link 6 attaches.
    [flags] are the flags of link 5. *)
Definition sensor : uapi.media_v2_entity.t :=
  uapi.media_v2_entity.mk 1 (list_byte_of_string "sensor") 131073 0.
Definition capture : uapi.media_v2_entity.t :=
  uapi.media_v2_entity.mk 2 (list_byte_of_string "capture") 65537 0.
Definition sensor_pad : uapi.media_v2_pad.t := uapi.media_v2_pad.mk 3 1 2 0.
Definition capture_pad : uapi.media_v2_pad.t := uapi.media_v2_pad.mk 4 2 1 0.
Definition data_link (flags : Z) : uapi.media_v2_link.t :=
  uapi.media_v2_link.mk 5 3 4 flags.

Definition pipeline (flags : Z) : MediaTopology.t :=
  MediaTopology.mk
    (uapi.media_v2_topology.mk 1 2 true 1 true 2 true 2 true)
    [sensor; capture]
    [uapi.media_v2_interface.mk 7 512 0 81 0]
    [sensor_pad; capture_pad]
    [data_link flags; uapi.media_v2_link.mk 6 7 2 3].

Definition reply_of (t : MediaTopology.t) : topology_reply :=
  mk_topology_reply 1
    (length (MediaTopology.entities t)) (length (MediaTopology.interfaces t))
    (length (MediaTopology.pads t)) (length (MediaTopology.links t))
    (MediaTopology.entities t) (MediaTopology.interfaces t)
    (MediaTopology.pads t) (MediaTopology.links t).

Definition some_info : uapi.media_device_info.t :=
  uapi.media_device_info.mk (list_byte_of_string "vimc") (list_byte_of_string "VIMC MDEV")
    [] (list_byte_of_string "platform:vimc") 394752 0 394752.

(** A mock transport: descriptor 3 for every path, the topology [t], and
    every setup-link call accepted. *)
Definition mock_kernel (t : MediaTopology.t) : Kernel := {|
  sys_open := λ _ _, inr 3%Z;
  sys_device_info := λ _ _, inr some_info;
  sys_g_topology := λ _ _ _, inr (reply_of t);
  sys_setup_link := λ _ _ _, inr () |}.

(** The same, with every setup-link call refused (error 16, busy). *)
Definition busy_kernel (t : MediaTopology.t) : Kernel := {|
  sys_open := λ _ _, inr 3%Z;
  sys_device_info := λ _ _, inr some_info;
  sys_g_topology := λ _ _ _, inr (reply_of t);
  sys_setup_link := λ _ _ _, inl 16%Z |}.

(** A device node that is no media device: it opens, and every ioctl call
    fails with error 25. *)
Definition not_a_media_device : Kernel := {|
  sys_open := λ _ _, inr 3%Z;
  sys_device_info := λ _ _, inl 25%Z;
  sys_g_topology := λ _ _ _, inl 25%Z;
  sys_setup_link := λ _ _ _, inl 25%Z |}.

(** A device that loses a link between the two topology calls: three links
    (5, 8 and 9, all from pad 3 to pad 4) at the sizing call, and only the
    first two, with a count of two, at the filling call. *)
Definition three_links : list uapi.media_v2_link.t :=
  [uapi.media_v2_link.mk 5 3 4 0; uapi.media_v2_link.mk 8 3 4 0;
   uapi.media_v2_link.mk 9 3 4 0].

Definition unplugging_kernel : Kernel := {|
  sys_open := λ _ _, inr 3%Z;
  sys_device_info := λ _ _, inr some_info;
  sys_g_topology := λ _ _ req,
    let t := pipeline 0 in
    if uapi.media_v2_topology.ptr_links req
    then inr (mk_topology_reply 2 2 0 2 2
                (MediaTopology.entities t) [] (MediaTopology.pads t)
                (take 2 three_links))
    else inr (mk_topology_reply 1 2 0 2 3
                (MediaTopology.entities t) [] (MediaTopology.pads t) three_links);
  sys_setup_link := λ _ _ _, inr () |}.

Definition new_world : World := mk_World [] [].

(** The session that opening [/dev/media0] on a kernel gives. *)
Definition open_session `{Host} `{Kernel} : option Session :=
  match MediaDevice_init "/dev/media0" "path" new_world with
  | (Ok d, w) => Some (mk_Session d w)
  | _ => None
  end.

Definition a_session (flags : Z) : Session :=
  Eval vm_compute in
    default (mk_Session
               (MediaDevice.mk 0 "" "" "" "" (0, 0, 0)%Z 0 (0, 0, 0)%Z (pipeline 0) [])
               new_world)
      (@open_session a_host (mock_kernel (pipeline flags))).

(** The pipeline with a third link, 8, whose sink is the ID of no object. *)
Definition pipeline_with_stray_link : MediaTopology.t :=
  MediaTopology.mk (MediaTopology.topology (pipeline 0))
    (MediaTopology.entities (pipeline 0)) (MediaTopology.interfaces (pipeline 0))
    (MediaTopology.pads (pipeline 0))
    (MediaTopology.links (pipeline 0) ++ [uapi.media_v2_link.mk 8 3 99 0]).

(** The objects of the pipeline as constructed, and as resolved. *)
Definition constructed_pipeline : list MediaObject.t :=
  Eval vm_compute in
    match @construct a_host (pipeline 0) with Ok objects => objects | Raise _ => [] end.

Definition resolved_pipeline : list MediaObject.t :=
  Eval vm_compute in
    match @resolve a_host (pipeline 0) with Ok objects => objects | Raise _ => [] end.

(** Code that registers no finalizer and closes no descriptor. *)
Definition quiet {A} (m : M World A) : Prop :=
  ∀ w r w', m w = (r, w') →
    finalizers w' = finalizers w ∧ ∀ fd, closes fd w' = closes fd w.

(** ** The accessors of [media.py]

    The properties of the objects that read an attribute and test it, and
    the search for an entity by name. *)

(** The constants of [pyv4l2.uapi] the accessors test against, left to the
    host like those of [Host]. *)
Class Constants := {
  MEDIA_LNK_FL_IMMUTABLE : Z;
  MEDIA_PAD_FL_SINK : Z;
  MEDIA_PAD_FL_SOURCE : Z;
  MEDIA_PAD_FL_INTERNAL : Z;
  MEDIA_INTF_T_V4L_VIDEO : Z;
  MEDIA_INTF_T_V4L_SUBDEV : Z }.

Definition attr_name (o : MediaObject.t) : option string :=
  match MediaObject.this o with AnEntity e => Some (MediaEntity.name e) | _ => None end.
Definition attr_media_iface (o : MediaObject.t) : option uapi.media_v2_interface.t :=
  match MediaObject.this o with
  | AnInterface i => Some (MediaInterface.media_iface i)
  | _ => None
  end.
Definition attr_dev_path (o : MediaObject.t) : option string :=
  match MediaObject.this o with
  | AnInterface i => Some (MediaInterface.dev_path i)
  | _ => None
  end.

Section accessors.
Context `{Host} `{Constants}.

(** [MediaInterface.is_subdev] and [MediaInterface.is_video] *)
Definition MediaInterface_is_subdev (objects : list MediaObject.t) (self : ref)
  : result bool :=
  media_iface ← getattr objects self attr_media_iface;
  Ok (uapi.media_v2_interface.intf_type media_iface =? MEDIA_INTF_T_V4L_SUBDEV)%Z.

Definition MediaInterface_is_video (objects : list MediaObject.t) (self : ref)
  : result bool :=
  media_iface ← getattr objects self attr_media_iface;
  Ok (uapi.media_v2_interface.intf_type media_iface =? MEDIA_INTF_T_V4L_VIDEO)%Z.

(** [MediaPad.is_source], [MediaPad.is_sink] and [MediaPad.is_internal] *)
Definition MediaPad_is_source (objects : list MediaObject.t) (self : ref)
  : result bool :=
  media_pad ← getattr objects self attr_media_pad;
  Ok (negb (Z.land (uapi.media_v2_pad.flags media_pad) MEDIA_PAD_FL_SOURCE =? 0)%Z).

Definition MediaPad_is_sink (objects : list MediaObject.t) (self : ref)
  : result bool :=
  media_pad ← getattr objects self attr_media_pad;
  Ok (negb (Z.land (uapi.media_v2_pad.flags media_pad) MEDIA_PAD_FL_SINK =? 0)%Z).

Definition MediaPad_is_internal (objects : list MediaObject.t) (self : ref)
  : result bool :=
  media_pad ← getattr objects self attr_media_pad;
  Ok (negb (Z.land (uapi.media_v2_pad.flags media_pad) MEDIA_PAD_FL_INTERNAL =? 0)%Z).

(** [MediaLink.is_enabled] and [MediaLink.is_immutable] *)
Definition MediaLink_is_enabled (objects : list MediaObject.t) (self : ref)
  : result bool :=
  flags ← getattr objects self attr_flags;
  Ok (negb (Z.land flags MEDIA_LNK_FL_ENABLED =? 0)%Z).

Definition MediaLink_is_immutable (objects : list MediaObject.t) (self : ref)
  : result bool :=
  flags ← getattr objects self attr_flags;
  Ok (negb (Z.land flags MEDIA_LNK_FL_IMMUTABLE =? 0)%Z).

(** The loop of [MediaDevice.find_entity] over the entities that are left. *)
Fixpoint find_entity_in (objects : list MediaObject.t) (entities : list ref)
    (name : string) : result (option ref) :=
  match entities with
  | [] => Ok None
  | e :: entities' =>
      e_name ← getattr objects e attr_name;
      if fnmatch e_name name then Ok (Some e)
      else find_entity_in objects entities' name
  end.

(** [MediaDevice.find_entity] *)
Definition MediaDevice_find_entity (objects : list MediaObject.t) (name : string)
  : result (option ref) :=
  find_entity_in objects (MediaDevice_entities objects) name.

End accessors.

(** [MediaDevice.get_device_info] *)
Definition MediaDevice_get_device_info `{Kernel}
  : M Session uapi.media_device_info.t :=
  d ← self_md;
  in_world (ioctl_device_info (MediaDevice.fd d)).

(** Constants in the manner of Linux. *)
Definition linux_constants : Constants := {|
  MEDIA_LNK_FL_IMMUTABLE := 2;
  MEDIA_PAD_FL_SINK := 1;
  MEDIA_PAD_FL_SOURCE := 2;
  MEDIA_PAD_FL_INTERNAL := 8;
  MEDIA_INTF_T_V4L_VIDEO := 512;
  MEDIA_INTF_T_V4L_SUBDEV := 515 |}.

(** ** What a piece of code leaves alone *)

(** The setup-link calls among the events. *)
Definition is_setup_link (e : event) : bool :=
  match e with Ioctl _ (MEDIA_IOC_SETUP_LINK _) => true | _ => false end.

Definition setup_links (w : World) : list event :=
  filter (λ e, is_setup_link e) (events w).

(** How many more times a descriptor has been opened than closed. *)
Definition still_open (fd : Z) (w : World) : Z :=
  Z.of_nat (opens fd w) - Z.of_nat (closes fd w).

(** Code that leaves an observation of the world as it was. *)
Definition preserves {A X} (obs : World → X) (m : M World A) : Prop :=
  ∀ w r w', m w = (r, w') → obs w' = obs w.

(** The message of [__find_media_device_by_value] when no device matches. *)
Definition not_found (key value : string) : exn :=
  FileNotFoundError ("No media device " ++ quote ++ key ++ quote ++ " = "
                     ++ quote ++ value ++ quote ++ " found")%string.

(** A host on which no device node opens (error 13, permission denied). *)
Definition locked_kernel : Kernel := {|
  sys_open := λ _ _, inl 13%Z;
  sys_device_info := λ _ _, inr some_info;
  sys_g_topology := λ _ _ _, inr (reply_of (pipeline 0));
  sys_setup_link := λ _ _ _, inr () |}.

(** The pipeline with the sensor's pad at index 70000, beyond what the 16
    bits of a link descriptor hold. *)
Definition far_pipeline : MediaTopology.t :=
  MediaTopology.mk (MediaTopology.topology (pipeline 0))
    (MediaTopology.entities (pipeline 0)) (MediaTopology.interfaces (pipeline 0))
    [uapi.media_v2_pad.mk 3 1 2 70000; capture_pad]
    (MediaTopology.links (pipeline 0)).

Definition resolved_far_pipeline : list MediaObject.t :=
  Eval vm_compute in
    match @resolve a_host far_pipeline with Ok objects => objects | Raise _ => [] end.

(** * [v4l2/subdev.py] and [v4l2/pixelformats.py]

    ** Exceptions

    The two modules raise exceptions that [media.py] does not. *)

Inductive error : Type :=
| Exn (e : exn)
| AssertionError
| ZeroDivisionError
| IndexError.

Inductive outcome (A : Type) : Type :=
| Return (a : A)
| Throw (e : error).
Arguments Return {A} a.
Arguments Throw {A} e.

#[global] Instance outcome_ret : MRet outcome := λ A a, Return a.
#[global] Instance outcome_bind : MBind outcome :=
  λ A B f m, match m with Return a => f a | Throw e => Throw e end.
#[global] Instance outcome_fmap : FMap outcome :=
  λ A B f m, match m with Return a => Return (f a) | Throw e => Throw e end.

(** ** [SubDevice.get_routes] *)

Module v4l2_subdev_routing.
(** [v4l2.uapi] is not among the sources: of the header of the routing
    query, the count that [get_routes] reads and whether the pointer it
    assigns is set. *)
Record t := mk { num_routes : nat; routes : bool }.
Definition zero : t := mk 0 false.
End v4l2_subdev_routing.

Section subdev.
(** [v4l2.v4l2_subdev_route], and the record that ctypes zeroes *)
Context {v4l2_subdev_route : Type} (zero_route : v4l2_subdev_route).

(** The routing calls issued so far, each with the header passed. *)
Definition routing_call : Type := Z * v4l2_subdev_routing.t.

(** What a successful routing query leaves in the caller's memory: the
    count in the header, and the records written through the pointer when
    it is set. *)
Record routing_reply := mk_routing_reply {
  reply_num_routes : nat;
  reply_routes : list v4l2_subdev_route }.

(** The kernel's side of [VIDIOC_SUBDEV_G_ROUTING], a function of the calls
    so far, and the error number [errno.ENOTTY]. *)
Class Routing := {
  ENOTTY : Z;
  sys_subdev_g_routing :
    list routing_call → Z → v4l2_subdev_routing.t → Z + routing_reply }.

Context `{Routing}.

Definition ioctl_subdev_g_routing (fd : Z) (routing : v4l2_subdev_routing.t)
  : list routing_call → outcome routing_reply * list routing_call :=
  λ w, let w' := w ++ [(fd, routing)] in
       match sys_subdev_g_routing w fd routing with
       | inr reply => (Return reply, w')
       | inl errno => (Throw (Exn (OSError errno)), w')
       end.

(** The [try] block of [get_routes]: the sizing call, the buffer of the
    size it returned, and the filling call. *)
Definition get_routes_try (fd : Z)
  : list routing_call → outcome (list v4l2_subdev_route) * list routing_call :=
  λ w, match ioctl_subdev_g_routing fd v4l2_subdev_routing.zero w with
       | (Return sized, w') =>
           let n := reply_num_routes sized in
           match ioctl_subdev_g_routing fd (v4l2_subdev_routing.mk n true) w' with
           | (Return got, w'') =>
               (Return (filled zero_route n (reply_routes got)), w'')
           | (Throw e, w'') => (Throw e, w'')
           end
       | (Throw e, w') => (Throw e, w')
       end.

(** [SubDevice.get_routes], on the descriptor of the sub-device *)
Definition SubDevice_get_routes (fd : Z)
  : list routing_call → outcome (list v4l2_subdev_route) * list routing_call :=
  λ w, match get_routes_try fd w with
       | (Throw (Exn (OSError errno)), w') =>
           if (errno =? ENOTTY)%Z then (Return [], w')
           else (Throw (Exn (OSError errno)), w')
       | (r, w') => (r, w')
       end.

End subdev.

(** ** [v4l2/pixelformats.py] *)

(** A Python string as its code points. *)
Definition codes (s : string) : list Z :=
  (λ c, Z.of_N (N_of_ascii c)) <$> list_ascii_of_string s.

(** [l[i]], with a negative index counted from the end *)
Definition getitem {A} (l : list A) (i : Z) : outcome A :=
  let i := if (i <? 0)%Z then (i + Z.of_nat (length l))%Z else i in
  if (i <? 0)%Z then Throw IndexError
  else match l !! Z.to_nat i with
       | Some x => Return x
       | None => Throw IndexError
       end.

(** [a // b] *)
Definition floordiv (a b : Z) : outcome Z :=
  if (b =? 0)%Z then Throw ZeroDivisionError else Return (a / b)%Z.

Definition str_to_fourcc (s : list Z) : outcome Z :=
  c0 ← getitem s 0;
  c1 ← getitem s 1;
  c2 ← getitem s 2;
  c3 ← getitem s 3;
  Return (Z.lor (Z.lor (Z.lor (Z.shiftl c0 0) (Z.shiftl c1 8)) (Z.shiftl c2 16))
            (Z.shiftl c3 24)).

Inductive PixelColorEncoding : Type := RGB | YUV | RAW | UNDEFINED.

Module PixelFormatPlaneInfo.
Record t := mk { bytespergroup : Z; verticalsubsampling : Z }.
End PixelFormatPlaneInfo.

Module PixelFormat.
Record t := mk {
  name : list Z;
  drm_fourcc : option Z;
  v4l2_fourcc : Z;
  bitsperpixel : Z;
  color : PixelColorEncoding;
  packed : bool;
  pixelspergroup : Z;
  planes : list PixelFormatPlaneInfo.t }.
End PixelFormat.

(** [PixelFormat.__init__]; a [drm_fourcc] that is [None] or empty stays
    [None] *)
Definition PixelFormat_init (name : list Z) (drm_fourcc : option (list Z))
    (v4l2_fourcc : list Z) (bitsperpixel : Z) (colorencoding : PixelColorEncoding)
    (packed : bool) (pixelspergroup : Z) (planes : list (Z * Z))
  : outcome PixelFormat.t :=
  drm ← match drm_fourcc with
        | Some (c :: s) => Some <$> str_to_fourcc (c :: s)
        | _ => Return None
        end;
  v4l2 ← str_to_fourcc v4l2_fourcc;
  Return (PixelFormat.mk name drm v4l2 bitsperpixel colorencoding packed
            pixelspergroup
            ((λ p, PixelFormatPlaneInfo.mk p.1 p.2) <$> planes)).

(** [PixelFormat.stride] *)
Definition PixelFormat_stride (self : PixelFormat.t) (width plane align : Z)
  : outcome Z :=
  if (Z.of_nat (length (PixelFormat.planes self)) <=? plane)%Z
  then Throw (Exn (RuntimeError ""))
  else
    groups ← floordiv (width + PixelFormat.pixelspergroup self - 1)
               (PixelFormat.pixelspergroup self);
    info ← getitem (PixelFormat.planes self) plane;
    let stride := (groups * PixelFormatPlaneInfo.bytespergroup info)%Z in
    aligned ← floordiv (stride + align - 1) align;
    Return (aligned * align)%Z.

(** [PixelFormat.planesize] *)
Definition PixelFormat_planesize (self : PixelFormat.t)
    (width height plane align : Z) : outcome Z :=
  stride ← PixelFormat_stride self width plane align;
  if (stride =? 0)%Z then Return 0%Z
  else
    info ← getitem (PixelFormat.planes self) plane;
    let vertsubsample := PixelFormatPlaneInfo.verticalsubsampling info in
    rows ← floordiv (height + vertsubsample - 1) vertsubsample;
    Return (stride * rows)%Z.

(** [sum] of a list of integers *)
Definition sum (l : list Z) : Z := fold_left Z.add l 0%Z.

(** [PixelFormat.framesize] *)
Definition PixelFormat_framesize (self : PixelFormat.t) (width height align : Z)
  : outcome Z :=
  sizes ← mapM (λ i, PixelFormat_planesize self width height (Z.of_nat i) align)
          (seq 0 (length (PixelFormat.planes self)));
  Return (sum sizes).

(** The class attributes of [PixelFormats] that are formats, in the order
    of the class body. *)
Definition PixelFormats_attributes : list (outcome PixelFormat.t) :=
  [ PixelFormat_init (codes "RGB565") (Some (codes "RG16")) (codes "RGBP")
      16 RGB false 1 [(2, 1)]%Z;
    PixelFormat_init (codes "RGB888") (Some (codes "RG24")) (codes "BGR3")
      24 RGB false 1 [(3, 1)]%Z;
    PixelFormat_init (codes "BGR888") (Some (codes "BG24")) (codes "RGB3")
      24 RGB false 1 [(3, 1)]%Z;
    PixelFormat_init (codes "NV12") (Some (codes "NV12")) (codes "NM12")
      12 YUV false 2 [(2, 1); (2, 2)]%Z;
    PixelFormat_init (codes "YUYV") (Some (codes "YUYV")) (codes "YUYV")
      16 YUV false 2 [(4, 1)]%Z;
    PixelFormat_init (codes "UYVY") (Some (codes "UYVY")) (codes "UYVY")
      16 YUV false 2 [(4, 1)]%Z;
    PixelFormat_init (codes "SBGGR8") None (codes "BA81")
      8 RAW false 2 [(2, 1)]%Z;
    PixelFormat_init (codes "SGBRG8") None (codes "GBRG")
      8 RAW false 2 [(2, 1)]%Z;
    PixelFormat_init (codes "SGRBG8") None (codes "GRBG")
      8 RAW false 2 [(2, 1)]%Z;
    PixelFormat_init (codes "SRGGB8") None (codes "RGGB")
      8 RAW false 2 [(2, 1)]%Z;
    PixelFormat_init (codes "SRGGB10") None (codes "RG10")
      10 RAW false 2 [(4, 1)]%Z;
    PixelFormat_init (codes "SBGGR10") None (codes "BG10")
      10 RAW false 2 [(4, 1)]%Z;
    PixelFormat_init (codes "SRGGB10P") None (codes "pRAA")
      10 RAW true 4 [(5, 1)]%Z;
    PixelFormat_init (codes "SRGGB12") None (codes "RG12")
      12 RAW false 2 [(4, 1)]%Z;
    PixelFormat_init (codes "SRGGB16") None (codes "RG16")
      16 RAW false 2 [(4, 1)]%Z ].

(** The formats once the class body has run. *)
Definition PixelFormats_values : list PixelFormat.t :=
  Eval vm_compute in
    match mapM (λ v, v) PixelFormats_attributes with
    | Return values => values
    | Throw _ => []
    end.

Definition has_v4l2_fourcc (fourcc : Z) (v : PixelFormat.t) : bool :=
  (PixelFormat.v4l2_fourcc v =? fourcc)%Z.

(** [PixelFormats.find_v4l2_fourcc] *)
Definition PixelFormats_find_v4l2_fourcc (fourcc : Z) : outcome PixelFormat.t :=
  match head (filter (λ v, has_v4l2_fourcc fourcc v) PixelFormats_values) with
  | Some v => Return v
  | None => Throw (Exn StopIteration)
  end.

Section unsupported.
(** [v4l2.uapi.fourcc_to_str], which is not among the sources *)
Context (fourcc_to_str : Z → list Z).

(** [PixelFormats.find_v4l2_fourcc_unsupported] *)
Definition PixelFormats_find_v4l2_fourcc_unsupported (fourcc : Z)
  : outcome PixelFormat.t :=
  match PixelFormats_find_v4l2_fourcc fourcc with
  | Throw (Exn StopIteration) =>
      let s := fourcc_to_str fourcc in
      PixelFormat_init (codes "Unsupported<" ++ s ++ codes ">") None s
        0 UNDEFINED false 0 []
  | r => r
  end.

End unsupported.

Module MetaFormat.
Record t := mk {
  name : list Z;
  v4l2_fourcc : Z;
  pixelspergroup : Z;
  bytespergroup : Z }.
End MetaFormat.

(** [MetaFormat.__init__] *)
Definition MetaFormat_init (name v4l2_fourcc : list Z)
    (pixelspergroup bytespergroup : Z) : outcome MetaFormat.t :=
  v4l2 ← str_to_fourcc v4l2_fourcc;
  Return (MetaFormat.mk name v4l2 pixelspergroup bytespergroup).

(** [MetaFormat.stride] *)
Definition MetaFormat_stride (self : MetaFormat.t) (width align : Z) : outcome Z :=
  groups ← floordiv (width + MetaFormat.pixelspergroup self - 1)
             (MetaFormat.pixelspergroup self);
  let stride := (groups * MetaFormat.bytespergroup self)%Z in
  aligned ← floordiv (stride + align - 1) align;
  Return (aligned * align)%Z.

Definition MetaFormats_attributes : list (outcome MetaFormat.t) :=
  [ MetaFormat_init (codes "GENERIC_8") (codes "MET8") 2 2;
    MetaFormat_init (codes "GENERIC_CSI2_10") (codes "MC1A") 4 5;
    MetaFormat_init (codes "GENERIC_CSI2_12") (codes "MC1C") 2 3;
    MetaFormat_init (codes "RPI_FE_CFG") (codes "RPFC") 1 1;
    MetaFormat_init (codes "RPI_FE_STATS") (codes "RPFS") 1 1;
    MetaFormat_init (codes "SENSOR_DATA") (codes "SENS") 1 1 ].

Definition MetaFormats_values : list MetaFormat.t :=
  Eval vm_compute in
    match mapM (λ v, v) MetaFormats_attributes with
    | Return values => values
    | Throw _ => []
    end.

Definition meta_has_v4l2_fourcc (fourcc : Z) (v : MetaFormat.t) : bool :=
  (MetaFormat.v4l2_fourcc v =? fourcc)%Z.

(** [MetaFormats.find_v4l2_fourcc] *)
Definition MetaFormats_find_v4l2_fourcc (fourcc : Z) : outcome MetaFormat.t :=
  match head (filter (λ v, meta_has_v4l2_fourcc fourcc v) MetaFormats_values) with
  | Some v => Return v
  | None => Throw (Exn StopIteration)
  end.

Section unsupported_meta.
Context (fourcc_to_str : Z → list Z).

(** [MetaFormats.find_v4l2_fourcc_unsupported] *)
Definition MetaFormats_find_v4l2_fourcc_unsupported (fourcc : Z)
  : outcome MetaFormat.t :=
  match MetaFormats_find_v4l2_fourcc fourcc with
  | Throw (Exn StopIteration) =>
      let s := fourcc_to_str fourcc in
      MetaFormat_init (codes "Unsupported<" ++ s ++ codes ">") s 0 0
  | r => r
  end.

End unsupported_meta.

(** ** Examples *)

(** The format [PixelFormats.NV12], with its two planes. *)
Definition NV12 : PixelFormat.t :=
  Eval vm_compute in
    default (PixelFormat.mk [] None 0 0 UNDEFINED false 0 [])
      (PixelFormats_values !! 3%nat).

(** ** Lemmas on [result] *)

Lemma bind_Ok {A B} (m : result A) (f : A → result B) b :
  m ≫= f = Ok b ↔ ∃ a, m = Ok a ∧ f a = Ok b.
Proof. destruct m; simpl; split; [eauto | intros (? & [= <-] & ?); done | done | intros (? & ? & ?); done]. Qed.

Lemma mapM_Ok {A B} (f : A → result B) l k :
  mapM f l = Ok k ↔ Forall2 (λ x y, f x = Ok y) l k.
Proof.
  revert k. induction l as [|x l IH]; intros k; simpl.
  - split; [intros [= <-]; constructor | by inversion 1].
  - split.
    + intros (y & Hy & (k' & Hk' & [= <-])%bind_Ok)%bind_Ok.
      constructor; [done | by apply IH].
    + inversion 1 as [|? y ? k' Hy Hk']; subst.
      apply IH in Hk'. by rewrite Hy; simpl; rewrite Hk'.
Qed.

Lemma mapM_Raise {A B} (f : A → result B) l e :
  mapM f l = Raise e → ∃ x, x ∈ l ∧ f x = Raise e.
Proof.
  induction l as [|x l IH]; simpl; [done |].
  destruct (f x) as [y|e'] eqn:Hx; simpl.
  - destruct (mapM f l) as [k|e'] eqn:Hl; simpl; [done |].
    intros [= ->]. destruct IH as (z & ? & ?); [done |].
    exists z. split; [by right | done].
  - intros [= ->]. exists x. split; [by left | done].
Qed.

(** ** Static attributes *)

Lemma static_set_links v o : static (set_links v o) = static o.
Proof. done. Qed.
Lemma static_set_pads v o : static (set_pads v o) = static o.
Proof. by destruct o as [? ? []]. Qed.
Lemma static_set_interface v o : static (set_interface v o) = static o.
Proof. by destruct o as [? ? []]. Qed.
Lemma static_set_entity v o : static (set_entity v o) = static o.
Proof. by destruct o as [? ? []]. Qed.
Lemma static_set_source v o : static (set_source v o) = static o.
Proof. by destruct o as [? ? []]. Qed.
Lemma static_set_sink v o : static (set_sink v o) = static o.
Proof. by destruct o as [? ? []]. Qed.
Lemma static_set_flags v o : static (set_flags v o) = static o.
Proof. by destruct o as [? ? []]. Qed.


Lemma is_MediaEntity_static o : is_MediaEntity (static o) = is_MediaEntity o.
Proof. by destruct o as [? ? []]. Qed.
Lemma is_MediaInterface_static o : is_MediaInterface (static o) = is_MediaInterface o.
Proof. by destruct o as [? ? []]. Qed.
Lemma is_MediaPad_static o : is_MediaPad (static o) = is_MediaPad o.
Proof. by destruct o as [? ? []]. Qed.
Lemma is_MediaLink_static o : is_MediaLink (static o) = is_MediaLink o.
Proof. by destruct o as [? ? []]. Qed.

Section static_queries.
Implicit Types (a : list MediaObject.t) (r : ref).

Lemma refs_static a : refs (static <$> a) = refs a.
Proof. unfold refs. by rewrite length_fmap. Qed.

Lemma isinstance_static a cls r :
  (∀ o, cls (static o) = cls o) →
  isinstance (static <$> a) cls r = isinstance a cls r.
Proof.
  intros Hcls. unfold isinstance. rewrite list_lookup_fmap.
  destruct (a !! r) as [o|]; simpl; [apply Hcls | done].
Qed.

Lemma has_id_static a id r : has_id (static <$> a) id r = has_id a id r.
Proof. unfold has_id. rewrite list_lookup_fmap. by destruct (a !! r). Qed.

Lemma media_pad_of_static a r : media_pad_of (static <$> a) r = media_pad_of a r.
Proof.
  unfold media_pad_of. rewrite list_lookup_fmap.
  by destruct (a !! r) as [[? ? []]|].
Qed.

Lemma media_link_of_static a r : media_link_of (static <$> a) r = media_link_of a r.
Proof.
  unfold media_link_of. rewrite list_lookup_fmap.
  by destruct (a !! r) as [[? ? []]|].
Qed.

Lemma incident_static a id r : incident (static <$> a) id r = incident a id r.
Proof. unfold incident. by rewrite media_link_of_static. Qed.

Lemma owned_by_static a id r : owned_by (static <$> a) id r = owned_by a id r.
Proof. unfold owned_by. by rewrite media_pad_of_static. Qed.

Lemma MediaDevice_entities_static a :
  MediaDevice_entities (static <$> a) = MediaDevice_entities a.
Proof.
  unfold MediaDevice_entities. rewrite refs_static.
  apply list_filter_iff. intros r.
  by rewrite isinstance_static by apply is_MediaEntity_static.
Qed.

Lemma MediaDevice_pads_static a :
  MediaDevice_pads (static <$> a) = MediaDevice_pads a.
Proof.
  unfold MediaDevice_pads. rewrite refs_static.
  apply list_filter_iff. intros r.
  by rewrite isinstance_static by apply is_MediaPad_static.
Qed.

Lemma MediaDevice_links_static a :
  MediaDevice_links (static <$> a) = MediaDevice_links a.
Proof.
  unfold MediaDevice_links. rewrite refs_static.
  apply list_filter_iff. intros r.
  by rewrite isinstance_static by apply is_MediaLink_static.
Qed.

Lemma MediaDevice_find_id_static a id :
  MediaDevice_find_id (static <$> a) id = MediaDevice_find_id a id.
Proof.
  unfold MediaDevice_find_id. rewrite refs_static. f_equal.
  apply list_filter_iff. intros r. by rewrite has_id_static.
Qed.

Lemma visit_id_static a acc id : visit_id (static <$> a) acc id = visit_id a acc id.
Proof.
  unfold visit_id. rewrite MediaDevice_find_id_static.
  destruct (MediaDevice_find_id a id); [| done].
  by rewrite isinstance_static by apply is_MediaInterface_static.
Qed.

Lemma visit_ids_static a acc ids :
  visit_ids (static <$> a) acc ids = visit_ids a acc ids.
Proof. unfold visit_ids; simpl. by rewrite !visit_id_static. Qed.

Lemma collect_ifaces_static a idss :
  collect_ifaces (static <$> a) idss = collect_ifaces a idss.
Proof.
  unfold collect_ifaces. generalize (@nil nat).
  induction idss as [|ids idss IH]; intros acc; simpl; [done |].
  by rewrite visit_ids_static, IH.
Qed.

Lemma endpoint_ids_static a ls : endpoint_ids (static <$> a) ls = endpoint_ids a ls.
Proof.
  unfold endpoint_ids. apply list_omap_ext, Forall2_same_length_lookup.
  split; [done |]. intros i x y Hx Hy. simplify_eq.
  by rewrite media_link_of_static.
Qed.

Lemma filter_has_id_static a id (l : list nat) :
  filter (λ e, has_id (static <$> a) id e) l = filter (λ e, has_id a id e) l.
Proof. apply list_filter_iff. intros r. by rewrite has_id_static. Qed.

Lemma filter_incident_static a id (l : list nat) :
  filter (λ e, incident (static <$> a) id e) l = filter (λ e, incident a id e) l.
Proof. apply list_filter_iff. intros r. by rewrite incident_static. Qed.

Lemma filter_owned_by_static a id (l : list nat) :
  filter (λ e, owned_by (static <$> a) id e) l = filter (λ e, owned_by a id e) l.
Proof. apply list_filter_iff. intros r. by rewrite owned_by_static. Qed.

Lemma finalized_static a o : finalized (static <$> a) o = finalized a o.
Proof.
  unfold finalized.
  rewrite MediaDevice_links_static, MediaDevice_pads_static,
    MediaDevice_entities_static, refs_static, filter_incident_static,
    filter_owned_by_static, endpoint_ids_static, collect_ifaces_static.
  destruct o as [id ls [e|i|p|l]]; simpl; rewrite ?filter_has_id_static; done.
Qed.

Lemma finalized_same_static a b o :
  static <$> a = static <$> b → finalized a o = finalized b o.
Proof. intros Hab. by rewrite <- (finalized_static a), Hab, finalized_static. Qed.

Lemma finalized_keeps_static a o o' : finalized a o = Ok o' → static o' = static o.
Proof.
  unfold finalized. destruct o as [id ls [e|i|p|l]]; simpl.
  - repeat case_match; intros [= <-]; done.
  - by intros [= <-].
  - intros (r & _ & [= <-])%bind_Ok. done.
  - intros (r & _ & (k & _ & [= <-])%bind_Ok)%bind_Ok. done.
Qed.

End static_queries.

(** ** One step of the resolver *)

Section step.
Implicit Types (a : list MediaObject.t) (r : nat) (o : MediaObject.t).

Lemma alter_lookup a r o (f : MediaObject.t → MediaObject.t) :
  a !! r = Some o → alter f r a = <[r := f o]> a.
Proof.
  intros Hr. apply list_eq. intros i.
  destruct (decide (r = i)) as [<-|Hne].
  - rewrite list_lookup_alter_eq, Hr, list_lookup_insert_eq; [done |].
    by eapply lookup_lt_Some.
  - by rewrite list_lookup_alter_ne, list_lookup_insert_ne.
Qed.

Lemma static_insert a r o o1 :
  a !! r = Some o → static o1 = static o →
  static <$> <[r := o1]> a = static <$> a.
Proof.
  intros Hr Ho. rewrite list_fmap_insert, Ho.
  apply list_insert_id. by rewrite list_lookup_fmap, Hr.
Qed.

Lemma getattr_insert {A} a r o o1 (attr : MediaObject.t → option A) :
  a !! r = Some o → getattr (<[r := o1]> a) r attr
                    = match attr o1 with Some v => Ok v | None => Raise AttributeError end.
Proof.
  intros Hr. unfold getattr.
  rewrite list_lookup_insert_eq by (by eapply lookup_lt_Some). done.
Qed.

Context a r o o1 (Hr : a !! r = Some o) (Ho : static o1 = static o).

Lemma refs_insert : refs (<[r := o1]> a) = refs a.
Proof. unfold refs. by rewrite length_insert. Qed.

Lemma MediaDevice_entities_insert :
  MediaDevice_entities (<[r := o1]> a) = MediaDevice_entities a.
Proof.
  by rewrite <- MediaDevice_entities_static, (static_insert a r o),
    MediaDevice_entities_static.
Qed.

Lemma MediaDevice_pads_insert :
  MediaDevice_pads (<[r := o1]> a) = MediaDevice_pads a.
Proof.
  by rewrite <- MediaDevice_pads_static, (static_insert a r o),
    MediaDevice_pads_static.
Qed.

Lemma MediaDevice_links_insert :
  MediaDevice_links (<[r := o1]> a) = MediaDevice_links a.
Proof.
  by rewrite <- MediaDevice_links_static, (static_insert a r o),
    MediaDevice_links_static.
Qed.

Lemma filter_has_id_insert id (l : list nat) :
  filter (λ e, has_id (<[r := o1]> a) id e) l = filter (λ e, has_id a id e) l.
Proof.
  by rewrite <- filter_has_id_static, (static_insert a r o),
    filter_has_id_static.
Qed.

Lemma filter_owned_by_insert id (l : list nat) :
  filter (λ e, owned_by (<[r := o1]> a) id e) l = filter (λ e, owned_by a id e) l.
Proof.
  by rewrite <- filter_owned_by_static, (static_insert a r o),
    filter_owned_by_static.
Qed.

Lemma endpoint_ids_insert ls : endpoint_ids (<[r := o1]> a) ls = endpoint_ids a ls.
Proof.
  by rewrite <- endpoint_ids_static, (static_insert a r o), endpoint_ids_static.
Qed.

Lemma collect_ifaces_insert idss :
  collect_ifaces (<[r := o1]> a) idss = collect_ifaces a idss.
Proof.
  by rewrite <- collect_ifaces_static, (static_insert a r o),
    collect_ifaces_static.
Qed.

End step.

Lemma MediaObject_finalize_lookup a r o :
  a !! r = Some o →
  MediaObject_finalize a r
  = <[r := set_links (filter (λ l, incident a (MediaObject.id o) l)
                        (MediaDevice_links a)) o]> a.
Proof. intros Hr. unfold MediaObject_finalize. by rewrite (alter_lookup a r o). Qed.

Lemma insert_lookup_same (a : list MediaObject.t) r o o1 :
  a !! r = Some o → <[r := o1]> a !! r = Some o1.
Proof. intros Hr. apply list_lookup_insert_eq. by eapply lookup_lt_Some. Qed.

Lemma _finalize_finalized a r o :
  a !! r = Some o →
  _finalize a r = o' ← finalized a o; Ok (<[r := o']> a).
Proof.
  intros Hr. unfold _finalize. rewrite Hr. simpl.
  destruct o as [id ls [e|i|p|l]]; simpl.
  - unfold MediaEntity_finalize, finalized.
    rewrite (MediaObject_finalize_lookup a r _ Hr); simpl.
    set (o1 := set_links _ _).
    rewrite (getattr_insert a r _ o1 _ Hr); simpl.
    rewrite (alter_lookup _ r o1) by by eapply insert_lookup_same.
    rewrite list_insert_insert_eq.
    rewrite (MediaDevice_pads_insert a r _ o1 Hr) by done.
    rewrite (filter_owned_by_insert a r _ o1 Hr) by done.
    set (o2 := set_pads _ _).
    rewrite (getattr_insert a r _ o2 _ Hr); simpl.
    rewrite (endpoint_ids_insert a r _ o2 Hr) by done.
    rewrite (collect_ifaces_insert a r _ o2 Hr) by done.
    repeat case_match; simpl; try done.
    rewrite (alter_lookup _ r o2) by by eapply insert_lookup_same.
    by rewrite list_insert_insert_eq.
  - unfold MediaInterface_finalize, finalized.
    by rewrite (MediaObject_finalize_lookup a r _ Hr).
  - unfold MediaPad_finalize, finalized.
    rewrite (MediaObject_finalize_lookup a r _ Hr); simpl.
    set (o1 := set_links _ _).
    rewrite (getattr_insert a r _ o1 _ Hr); simpl.
    rewrite (MediaDevice_entities_insert a r _ o1 Hr) by done.
    rewrite (filter_has_id_insert a r _ o1 Hr) by done.
    destruct (next _) as [e|]; simpl; [| done].
    rewrite (alter_lookup _ r o1) by by eapply insert_lookup_same.
    by rewrite list_insert_insert_eq.
  - unfold MediaLink_finalize, finalized.
    rewrite (MediaObject_finalize_lookup a r _ Hr); simpl.
    set (o1 := set_links _ _).
    rewrite (getattr_insert a r _ o1 _ Hr); simpl.
    rewrite (refs_insert a r o1).
    rewrite (filter_has_id_insert a r _ o1 Hr) by done.
    destruct (next _) as [s|]; simpl; [| done].
    rewrite (alter_lookup _ r o1) by by eapply insert_lookup_same.
    rewrite list_insert_insert_eq.
    set (o2 := set_source _ _).
    rewrite (refs_insert a r o2).
    rewrite (filter_has_id_insert a r _ o2 Hr) by done.
    destruct (next _) as [k|]; simpl; [| done].
    rewrite (alter_lookup _ r o2) by by eapply insert_lookup_same.
    by rewrite list_insert_insert_eq.
Qed.

(** ** The whole pass

    Finalising the objects one after the other, each in place, gives what
    finalising each against the objects as constructed gives. *)

Lemma finalize_each_from objects0 post : ∀ pre,
  static <$> (pre ++ post) = static <$> objects0 →
  finalize_each (seq (length pre) (length post)) (pre ++ post)
  = post' ← mapM (finalized objects0) post; Ok (pre ++ post').
Proof.
  induction post as [|o post IH]; intros pre Hst; simpl.
  - done.
  - rewrite (_finalize_finalized _ _ o) by (by apply list_lookup_middle).
    rewrite (finalized_same_static _ objects0) by done.
    destruct (finalized objects0 o) as [o'|e] eqn:Ho; simpl; [| done].
    replace (<[length pre := o']> (pre ++ o :: post)) with ((pre ++ [o']) ++ post).
    2: { rewrite <- (Nat.add_0_r (length pre)), insert_app_r. simpl.
         by rewrite <- app_assoc. }
    replace (S (length pre)) with (length (pre ++ [o'])).
    2: { rewrite length_app. simpl. lia. }
    rewrite IH.
    + destruct (mapM (finalized objects0) post); simpl; [| done].
      by rewrite <- app_assoc.
    + rewrite <- Hst, <- app_assoc, !fmap_app. simpl.
      by rewrite (finalized_keeps_static _ _ _ Ho).
Qed.

Lemma finalize_each_mapM objects :
  finalize_each (refs objects) objects = mapM (finalized objects) objects.
Proof.
  pose proof (finalize_each_from objects objects [] eq_refl) as Heq.
  simpl in Heq. unfold refs. rewrite Heq.
  by destruct (mapM (finalized objects) objects).
Qed.

Section resolve_facts.
Context `{Host}.

Lemma resolve_Ok topology objects :
  resolve topology = Ok objects ↔
  ∃ objects0, construct topology = Ok objects0 ∧
              Forall2 (λ o o', finalized objects0 o = Ok o') objects0 objects.
Proof.
  unfold resolve. rewrite bind_Ok.
  by setoid_rewrite finalize_each_mapM; setoid_rewrite mapM_Ok.
Qed.

Lemma resolve_Raise topology e :
  resolve topology = Raise e →
  construct topology = Raise e ∨
  ∃ objects0 o, construct topology = Ok objects0 ∧ o ∈ objects0 ∧
                finalized objects0 o = Raise e.
Proof.
  unfold resolve. destruct (construct topology) as [objects0|e'] eqn:Hc; simpl.
  - rewrite finalize_each_mapM. intros (o & ? & ?)%mapM_Raise. right. eauto.
  - intros [= ->]. by left.
Qed.

End resolve_facts.

(** ** The objects as constructed *)

Lemma mapM_total {A B} (f : A → result B) (g : A → B) l :
  (∀ x, f x = Ok (g x)) → mapM f l = Ok (g <$> l).
Proof.
  intros Hf. induction l as [|x l IH]; simpl; [done |].
  by rewrite Hf; simpl; rewrite IH.
Qed.

Section constructed.
Context `{Host}.

Lemma MediaEntity_init_Ok raw o :
  MediaEntity_init raw = Ok o →
  ∃ name, o = MediaObject.mk (uapi.media_v2_entity.id raw) None
                (AnEntity (MediaEntity.mk raw name (uapi.media_v2_entity.function raw)
                             (uapi.media_v2_entity.flags raw) None None)).
Proof.
  unfold MediaEntity_init. intros (name & _ & (f & Hf & [= <-])%bind_Ok)%bind_Ok.
  exists name. by destruct (MediaEntityFunction _); simplify_eq.
Qed.

Lemma MediaInterface_init_Ok raw o :
  MediaInterface_init raw = Ok o →
  ∃ i, o = MediaObject.mk (uapi.media_v2_interface.id raw) None (AnInterface i).
Proof.
  unfold MediaInterface_init.
  intros (path & _ & (t & _ & [= <-])%bind_Ok)%bind_Ok. eauto.
Qed.

Lemma construct_Ok topology objects0 :
  construct topology = Ok objects0 →
  ∃ es ifs,
    Forall2 (λ raw o, MediaEntity_init raw = Ok o) (MediaTopology.entities topology) es
    ∧ Forall2 (λ raw o, MediaInterface_init raw = Ok o)
        (MediaTopology.interfaces topology) ifs
    ∧ objects0 = es ++ ifs ++ (pad_object <$> MediaTopology.pads topology)
                 ++ (link_object <$> MediaTopology.links topology).
Proof.
  unfold construct.
  rewrite (mapM_total MediaPad_init pad_object) by done.
  rewrite (mapM_total MediaLink_init link_object) by done.
  intros (es & Hes%mapM_Ok & (ifs & Hifs%mapM_Ok & [= <-])%bind_Ok)%bind_Ok.
  by exists es, ifs.
Qed.

Lemma construct_ids topology objects0 :
  construct topology = Ok objects0 →
  MediaObject.id <$> objects0 = ids_of topology.
Proof.
  intros (es & ifs & Hes & Hifs & ->)%construct_Ok.
  unfold ids_of. rewrite !fmap_app, <- !list_fmap_compose. f_equal; [| f_equal].
  - induction Hes as [|raw o ? ? (name & ->)%MediaEntity_init_Ok ? IH];
      csimpl; [done | by rewrite IH].
  - induction Hifs as [|raw o ? ? (i & ->)%MediaInterface_init_Ok ? IH];
      csimpl; [done | by rewrite IH].
Qed.

End constructed.

(** ** Reading the generators *)

Section generators.
Implicit Types (a : list MediaObject.t).

Lemma elem_of_refs a r : r ∈ refs a ↔ r < length a.
Proof. unfold refs. rewrite elem_of_seq. lia. Qed.

Lemma NoDup_refs a : NoDup (refs a).
Proof. apply NoDup_seq. Qed.

Lemma isinstance_true a cls r :
  isinstance a cls r = true ↔ ∃ o, a !! r = Some o ∧ cls o = true.
Proof.
  unfold isinstance. destruct (a !! r) as [o|]; simpl; split.
  - eauto.
  - by intros (? & [= <-] & ?).
  - done.
  - by intros (? & ? & ?).
Qed.

Lemma has_id_true a id r :
  has_id a id r = true ↔ ∃ o, a !! r = Some o ∧ MediaObject.id o = id.
Proof.
  unfold has_id. destruct (a !! r) as [o|]; simpl.
  - rewrite Z.eqb_eq. split; [eauto | by intros (? & [= <-] & ?)].
  - split; [done | by intros (? & ? & ?)].
Qed.

Lemma elem_of_isinstance a cls r :
  r ∈ filter (λ o, isinstance a cls o) (refs a) ↔ ∃ o, a !! r = Some o ∧ cls o = true.
Proof.
  rewrite list_elem_of_filter, elem_of_refs, Is_true_true, isinstance_true.
  split; [tauto |]. intros (o & Hr & ?). split; [eauto |].
  by eapply lookup_lt_Some.
Qed.

Lemma next_Ok {A} (g : list A) x : next g = Ok x → x ∈ g.
Proof.
  unfold next. destruct (head g) eqn:Hg; [| done].
  intros [= <-]. by apply head_Some_elem_of.
Qed.

Lemma next_has_id a id (l : list nat) e :
  next (filter (λ e, has_id a id e) l) = Ok e →
  e ∈ l ∧ ∃ o, a !! e = Some o ∧ MediaObject.id o = id.
Proof.
  intros [He%Is_true_true Hl]%next_Ok%list_elem_of_filter.
  split; [done |]. by apply has_id_true.
Qed.

Lemma next_Raise_has_id a id (l : list nat) x :
  next (filter (λ e, has_id a id e) l) = Raise x →
  ∀ e o, e ∈ l → a !! e = Some o → MediaObject.id o ≠ id.
Proof.
  unfold next. destruct (head _) eqn:Hh; [done |]. intros _ e o He Ho Hid.
  apply head_None in Hh.
  assert (e ∈ filter (λ e, has_id a id e) l) as Hin.
  { apply list_elem_of_filter. split; [| done].
    apply Is_true_true, has_id_true. eauto. }
  rewrite Hh in Hin. by apply elem_of_nil in Hin.
Qed.

End generators.

(** ** What a finalised object holds *)

Section finalized_facts.
Implicit Types (a : list MediaObject.t).

Lemma finalized_pad_Ok a id ls p o' :
  finalized a (MediaObject.mk id ls (APad p)) = Ok o' →
  ∃ e, next (filter (λ e, has_id a (uapi.media_v2_pad.entity_id (MediaPad.media_pad p)) e)
               (MediaDevice_entities a)) = Ok e
       ∧ o' = MediaObject.mk id
                (Some (filter (λ l, incident a id l) (MediaDevice_links a)))
                (APad (MediaPad.mk (MediaPad.media_pad p) (MediaPad.index p) (Some e))).
Proof.
  unfold finalized; simpl. intros (e & He & [= <-])%bind_Ok. eauto.
Qed.

Lemma finalized_link_Ok a id ls l o' :
  finalized a (MediaObject.mk id ls (ALink l)) = Ok o' →
  ∃ s k,
    next (filter (λ e, has_id a (uapi.media_v2_link.source_id (MediaLink.media_link l)) e)
            (refs a)) = Ok s
    ∧ next (filter (λ e, has_id a (uapi.media_v2_link.sink_id (MediaLink.media_link l)) e)
              (refs a)) = Ok k
    ∧ o' = MediaObject.mk id
             (Some (filter (λ l, incident a id l) (MediaDevice_links a)))
             (ALink (MediaLink.mk (MediaLink.media_link l) (MediaLink.flags l)
                       (Some s) (Some k))).
Proof.
  unfold finalized; simpl.
  intros (s & Hs & (k & Hk & [= <-])%bind_Ok)%bind_Ok. eauto.
Qed.

Lemma finalized_entity_Ok a id ls e o' :
  finalized a (MediaObject.mk id ls (AnEntity e)) = Ok o' →
  let links := filter (λ l, incident a id l) (MediaDevice_links a) in
  let ifaces := collect_ifaces a (endpoint_ids a links) in
  length ifaces ≤ 1
  ∧ o' = MediaObject.mk id (Some links)
           (AnEntity (MediaEntity.mk (MediaEntity.media_entity e) (MediaEntity.name e)
                        (MediaEntity.function e) (MediaEntity.flags e)
                        (Some (filter (λ p, owned_by a id p) (MediaDevice_pads a)))
                        (if 0 <? length ifaces then head ifaces
                         else MediaEntity.interface e))).
Proof.
  unfold finalized; simpl.
  destruct (1 <? length _) eqn:H1; [done |]. apply Nat.ltb_ge in H1.
  destruct (0 <? length _) eqn:H0; intros [= <-]; done.
Qed.

Lemma finalized_is_MediaPad a o o' :
  finalized a o = Ok o' → is_MediaPad o = is_MediaPad o'.
Proof.
  intros Hst%finalized_keeps_static.
  by rewrite <- (is_MediaPad_static o), <- Hst, is_MediaPad_static.
Qed.

End finalized_facts.

(** ** Dangling references (C1) *)

Section dangling_ids.
Context `{Host}.

Lemma constructed_has_id topology objects0 e o :
  construct topology = Ok objects0 → objects0 !! e = Some o →
  MediaObject.id o ∈ ids_of topology.
Proof.
  intros <-%construct_ids Ho. apply list_elem_of_fmap. exists o.
  split; [done |]. by eapply list_elem_of_lookup_2.
Qed.

Lemma resolved_pads_have_owner topology objects p :
  resolve topology = Ok objects → p ∈ MediaTopology.pads topology →
  uapi.media_v2_pad.entity_id p ∈ ids_of topology.
Proof.
  intros (objects0 & Hc & Hfin)%resolve_Ok Hp.
  destruct (construct_Ok _ _ Hc) as (es & ifs & _ & _ & Hobjs).
  assert (pad_object p ∈ objects0) as [i Hi]%list_elem_of_lookup_1.
  { rewrite Hobjs, !elem_of_app. right; right; left. by apply list_elem_of_fmap_2. }
  destruct (Forall2_lookup_l _ _ _ _ _ Hfin Hi) as (o' & _ & Ho').
  apply finalized_pad_Ok in Ho' as (e & (_ & o & Ho & Hid)%next_has_id & _).
  simpl in Hid. rewrite <- Hid. by eapply constructed_has_id.
Qed.

Lemma resolved_links_have_ends topology objects l :
  resolve topology = Ok objects → l ∈ MediaTopology.links topology →
  uapi.media_v2_link.source_id l ∈ ids_of topology
  ∧ uapi.media_v2_link.sink_id l ∈ ids_of topology.
Proof.
  intros (objects0 & Hc & Hfin)%resolve_Ok Hl.
  destruct (construct_Ok _ _ Hc) as (es & ifs & _ & _ & Hobjs).
  assert (link_object l ∈ objects0) as [i Hi]%list_elem_of_lookup_1.
  { rewrite Hobjs, !elem_of_app. right; right; right. by apply list_elem_of_fmap_2. }
  destruct (Forall2_lookup_l _ _ _ _ _ Hfin Hi) as (o' & _ & Ho').
  apply finalized_link_Ok in Ho'
    as (s & k & (_ & os & Hs & Hsid)%next_has_id & (_ & ok & Hk & Hkid)%next_has_id & _).
  simpl in Hsid, Hkid. rewrite <- Hsid, <- Hkid.
  split; by eapply constructed_has_id.
Qed.

Lemma resolve_not_dangling topology objects :
  resolve topology = Ok objects → ¬ dangling topology.
Proof.
  intros Hres [(p & Hp & Hid)%Exists_exists | (l & Hl & Hid)%Exists_exists].
  - apply Hid. by eapply resolved_pads_have_owner.
  - destruct (resolved_links_have_ends _ _ l Hres Hl). tauto.
Qed.

End dangling_ids.

(** ** Pads and their entities (C3) *)

Section pad_ownership.
Context `{Host}.

Lemma owned_by_true a id p :
  owned_by a id p = true ↔
  ∃ k, media_pad_of a p = Some k ∧ uapi.media_v2_pad.entity_id k = id.
Proof.
  unfold owned_by. destruct (media_pad_of a p) as [k|].
  - rewrite Z.eqb_eq. split; [eauto | by intros (? & [= <-] & ?)].
  - split; [done | by intros (? & ? & ?)].
Qed.

Lemma NoDup_pads_of a id :
  NoDup (filter (λ p, owned_by a id p) (MediaDevice_pads a)).
Proof. apply NoDup_filter, NoDup_filter, NoDup_refs. Qed.

(** The entity of a pad of a resolved graph, and the pads of that entity:
    the pads of the graph with the entity's ID as their [entity_id], in the
    order of [objects], the pad among them. *)
Lemma resolved_pad_owner topology objects p pad :
  resolve topology = Ok objects →
  objects !! p = Some pad →
  is_MediaPad pad = true →
  ∃ objects0 e ent,
    attr_entity pad = Some (Some e)
    ∧ objects !! e = Some ent
    ∧ is_MediaEntity ent = true
    ∧ attr_pads ent
      = Some (Some (filter (λ q, owned_by objects0 (MediaObject.id ent) q)
                      (MediaDevice_pads objects0)))
    ∧ p ∈ filter (λ q, owned_by objects0 (MediaObject.id ent) q)
            (MediaDevice_pads objects0).
Proof.
  intros (objects0 & Hc & Hfin)%resolve_Ok Hp Hpad.
  destruct (Forall2_lookup_r _ _ _ _ _ Hfin Hp) as (o0 & Hp0 & Ho0).
  rewrite <- (finalized_is_MediaPad _ _ _ Ho0) in Hpad.
  destruct o0 as [id ls [| |pk|]]; try done.
  apply finalized_pad_Ok in Ho0 as (e & (He & oe & Hoe & Hid)%next_has_id & ->).
  apply elem_of_isinstance in He as (oe' & Hoe' & Hent).
  assert (oe' = oe) as -> by congruence. clear Hoe'.
  destruct oe as [id' ls' [ee| | |]]; try done. simpl in Hid.
  destruct (Forall2_lookup_l _ _ _ _ _ Hfin Hoe) as (ent & Hent' & Hfe).
  apply finalized_entity_Ok in Hfe as [_ ->].
  eexists objects0, e, _. split_and!; [done.. |]. simpl.
  apply list_elem_of_filter. split.
  - apply Is_true_true, owned_by_true. exists (MediaPad.media_pad pk).
    split; [| done]. unfold media_pad_of. by rewrite Hp0.
  - apply elem_of_isinstance. eauto.
Qed.

(** C3. In a resolved graph every pad's [entity] is set, to an entity of
    the graph whose [pads] holds that very pad once. *)
Theorem pad_entity_lists_pad_once topology objects p pad :
  resolve topology = Ok objects →
  objects !! p = Some pad →
  is_MediaPad pad = true →
  ∃ e ent pads,
    attr_entity pad = Some (Some e)
    ∧ objects !! e = Some ent
    ∧ is_MediaEntity ent = true
    ∧ attr_pads ent = Some (Some pads)
    ∧ count_occ Nat.eq_dec pads p = 1.
Proof.
  intros Hres Hp Hpad.
  destruct (resolved_pad_owner _ _ _ _ Hres Hp Hpad)
    as (objects0 & e & ent & He & Hent & Hcls & Hpads & Hin).
  exists e, ent, (filter (λ q, owned_by objects0 (MediaObject.id ent) q)
                   (MediaDevice_pads objects0)).
  split_and!; [done.. |].
  (* a pad occurs in a selection of the references at most once *)
  apply NoDup_count_occ'.
  - apply NoDup_ListNoDup, NoDup_pads_of.
  - by apply list_elem_of_In.
Qed.

(** Every graph that resolution returns is [resolved]. *)
Lemma resolve_resolved topology objects :
  resolve topology = Ok objects → resolved objects = true.
Proof.
  intros Hres. unfold resolved. apply forallb_forall. intros p Hp.
  apply list_elem_of_In, elem_of_isinstance in Hp as (pad & Hp & Hpad).
  destruct (resolved_pad_owner _ _ _ _ Hres Hp Hpad)
    as (objects0 & e & ent & He & Hent & Hcls & _).
  unfold has_entity, getattr. rewrite Hp; simpl. rewrite He.
  apply isinstance_true. eauto.
Qed.

End pad_ownership.

(** ** The interface of an entity (C2) *)

Section entity_interface.

Lemma visit_id_app a acc id :
  visit_id a acc id
  = acc ++ (ob ← option_list (MediaDevice_find_id a id);
            if isinstance a is_MediaInterface ob then [ob] else []).
Proof.
  unfold visit_id. destruct (MediaDevice_find_id a id) as [ob|]; simpl.
  - destruct (isinstance a is_MediaInterface ob); simpl; by rewrite ?app_nil_r.
  - by rewrite app_nil_r.
Qed.

Lemma fold_visit_ids a idss : ∀ acc,
  fold_left (visit_ids a) idss acc
  = acc ++ (ids ← idss; id ← [ids.1; ids.2];
            ob ← option_list (MediaDevice_find_id a id);
            if isinstance a is_MediaInterface ob then [ob] else []).
Proof.
  induction idss as [|ids idss IH]; intros acc; simpl.
  - by rewrite app_nil_r.
  - rewrite IH. unfold visit_ids; simpl. rewrite !visit_id_app.
    by rewrite app_nil_r, <- !app_assoc.
Qed.

Lemma bind_omap_fmap {A B C D} (g : A → option B) (h : B → C)
    (F : C → list D) (l : list A) :
  omap (λ x, h <$> g x) l ≫= F
  = l ≫= (λ x, option_list (g x) ≫= (λ k, F (h k))).
Proof.
  induction l as [|x l IH]; csimpl; [done |].
  destruct (g x); csimpl; rewrite IH; by rewrite ?app_nil_r.
Qed.

Lemma collect_ifaces_endpoints a links :
  collect_ifaces a (endpoint_ids a links) = interface_endpoints a links.
Proof.
  unfold collect_ifaces. rewrite fold_visit_ids, app_nil_l.
  unfold interface_endpoints, endpoint_ids.
  by rewrite bind_omap_fmap.
Qed.

Lemma MediaEntity_finalize_finalized a self o e :
  a !! self = Some o → MediaObject.this o = AnEntity e →
  MediaEntity_finalize a self = o' ← finalized a o; Ok (<[self := o']> a).
Proof.
  intros Hself He. rewrite <- (_finalize_finalized a self o Hself).
  unfold _finalize. by rewrite Hself; simpl; rewrite He.
Qed.

Context `{Host}.

(** C2. When resolution reaches an entity, it looks up both endpoints of
    each link incident to the entity and keeps those that are Interface
    objects.  None: [_finalize] returns and [interface] stays [None].
    Exactly one: it becomes the entity's [interface].  Two or more:
    [_finalize] raises, and so does the resolution of any snapshot of which
    these are the objects. *)
Theorem entity_interface_by_count raw objects self o :
  MediaEntity_init raw = Ok o →
  objects !! self = Some o →
  match interface_endpoints objects
          (incident_links objects (uapi.media_v2_entity.id raw)) with
  | [] =>
      ∃ objects', MediaEntity_finalize objects self = Ok objects'
                  ∧ getattr objects' self attr_interface = Ok None
  | [i] =>
      ∃ objects', MediaEntity_finalize objects self = Ok objects'
                  ∧ getattr objects' self attr_interface = Ok (Some i)
  | _ :: _ :: _ =>
      MediaEntity_finalize objects self
      = Raise (RuntimeError "Multiple interfaces for entity")
      ∧ ∀ topology, construct topology = Ok objects → raised (resolve topology)
  end.
Proof.
  intros (name & ->)%MediaEntity_init_Ok Hself.
  rewrite (MediaEntity_finalize_finalized _ _ _ _ Hself eq_refl).
  unfold finalized, incident_links; simpl. rewrite collect_ifaces_endpoints.
  destruct (interface_endpoints _ _) as [|i [|j rest]] eqn:Hfound; simpl.
  - eexists. split; [done |]. by rewrite (getattr_insert _ _ _ _ _ Hself).
  - eexists. split; [done |]. by rewrite (getattr_insert _ _ _ _ _ Hself).
  - split; [done |]. intros topology Hc.
    destruct (resolve topology) as [objects'|e] eqn:Hres; [exfalso | by exists e].
    apply resolve_Ok in Hres as (objects0 & Hc' & Hall).
    assert (objects0 = objects) as -> by congruence.
    destruct (Forall2_lookup_l _ _ _ _ _ Hall Hself) as (o' & _ & Ho').
    apply finalized_entity_Ok in Ho' as [Hlen _]. simpl in Hlen.
    rewrite collect_ifaces_endpoints, Hfound in Hlen. simpl in Hlen. lia.
Qed.

End entity_interface.

(** ** Looking objects up by ID (C10) *)

Lemma find_id_by_lookup (objects : list MediaObject.t) (id : Z) :
  (∀ o ob, objects !! o = Some ob → MediaObject.id ob = id →
           (∀ o' ob', objects !! o' = Some ob' → MediaObject.id ob' = id → o' = o) →
           MediaDevice_find_id objects id = Some o)
  ∧ ((∀ ob, ob ∈ objects → MediaObject.id ob ≠ id) →
     MediaDevice_find_id objects id = None).
Proof.
  unfold MediaDevice_find_id. split.
  - intros o ob Ho Hid Huniq.
    destruct (head _) as [o'|] eqn:Hh.
    + apply head_Some_elem_of, list_elem_of_filter in Hh as [Hh _].
      apply Is_true_true, has_id_true in Hh as (ob' & Ho' & Hid').
      f_equal. by eapply Huniq.
    + apply head_None in Hh.
      assert (o ∈ filter (λ o, has_id objects id o) (refs objects)) as Hin.
      { apply list_elem_of_filter. split.
        - apply Is_true_true, has_id_true. eauto.
        - apply elem_of_refs. by eapply lookup_lt_Some. }
      rewrite Hh in Hin. by apply elem_of_nil in Hin.
  - intros Hnone. destruct (head _) as [o|] eqn:Hh; [exfalso | done].
    apply head_Some_elem_of, list_elem_of_filter in Hh as [Hh _].
    apply Is_true_true, has_id_true in Hh as (ob & Ho & Hid).
    eapply Hnone; [| done]. by eapply list_elem_of_lookup_2.
Qed.

(** C10. [find_id] returns an optional reference and cannot raise.  When
    one object of the graph has the ID and none before it or after it in
    [objects] has, it returns that object; when no object has the ID, it
    returns [None]. *)
Theorem find_id_unique_or_None (objects : list MediaObject.t) (id : Z) :
  (∀ before ob after,
     objects = before ++ ob :: after →
     MediaObject.id ob = id →
     id ∉ MediaObject.id <$> before →
     id ∉ MediaObject.id <$> after →
     MediaDevice_find_id objects id = Some (length before))
  ∧ (id ∉ MediaObject.id <$> objects → MediaDevice_find_id objects id = None).
Proof.
  destruct (find_id_by_lookup objects id) as [Hsome Hnone]. split.
  - intros before ob after -> Hid Hbefore Hafter.
    apply (Hsome _ ob); [by apply list_lookup_middle | done |].
    intros o' ob' Ho' Hid'.
    destruct (Nat.lt_total o' (length before)) as [Hlt | [-> | Hgt]]; [| done |].
    + rewrite lookup_app_l in Ho' by done. destruct Hbefore.
      apply list_elem_of_fmap. exists ob'. split; [done |].
      by eapply list_elem_of_lookup_2.
    + rewrite lookup_app_r in Ho' by lia.
      destruct (o' - length before) as [|k] eqn:Hk; [lia |]. simpl in Ho'.
      destruct Hafter. apply list_elem_of_fmap. exists ob'. split; [done |].
      by eapply list_elem_of_lookup_2.
  - intros Hid. apply Hnone. intros ob Hob Heq. apply Hid.
    apply list_elem_of_fmap. eauto.
Qed.

(** ** The link controller (C4, C5, C7) *)

Section link_controller_facts.
Context `{Host} `{Kernel}.
Implicit Types (a : list MediaObject.t) (s : Session).

(** [_setup] step by step: the descriptor or the exception of a typed
    accessor, then the call, then the assignment of [self.flags]. *)
Lemma MediaLink_setup_run self flags s :
  MediaLink_setup self flags s =
  match link_desc (MediaDevice.objects (md s)) self flags with
  | Raise e => (Raise e, s)
  | Ok desc =>
      let w' := log (Ioctl (MediaDevice.fd (md s)) (MEDIA_IOC_SETUP_LINK desc))
                  (world s) in
      match sys_setup_link (events (world s)) (MediaDevice.fd (md s)) desc with
      | inr _ =>
          (Ok (), mk_Session
                    (with_objects (alter (set_flags flags) self
                                     (MediaDevice.objects (md s))) (md s)) w')
      | inl errno => (Raise (OSError errno), mk_Session (md s) w')
      end
  end.
Proof.
  unfold MediaLink_setup, mbind, M_bind, self_md, lift, in_world,
    ioctl_setup_link, alter_object.
  destruct (link_desc _ _ _) as [desc|e]; [| done].
  by destruct (sys_setup_link _ _ _).
Qed.

Lemma getattr_Ok {A} a o (attr : MediaObject.t → option A) v :
  getattr a o attr = Ok v ↔ ∃ ob, a !! o = Some ob ∧ attr ob = Some v.
Proof.
  unfold getattr. destruct (a !! o) as [ob|]; simpl.
  - destruct (attr ob) eqn:Hattr; split.
    + intros [= <-]. eauto.
    + by intros (? & [= <-] & ?); simplify_eq.
    + done.
    + by intros (? & [= <-] & ?); simplify_eq.
  - split; [done | by intros (? & ? & ?)].
Qed.

Lemma resolved_pad a p :
  resolved a = true → isinstance a is_MediaPad p = true →
  ∃ eid idx, entity_id_of a p = Ok eid ∧ getattr a p attr_index = Ok idx.
Proof.
  intros Hres Hp. unfold resolved in Hres. rewrite forallb_forall in Hres.
  assert (has_entity a p = true) as Hent.
  { apply Hres, list_elem_of_In, elem_of_isinstance. by apply isinstance_true. }
  unfold has_entity in Hent.
  destruct (getattr a p attr_entity) as [[e|]|] eqn:Hge; try done.
  apply isinstance_true in Hent as (oe & Hoe & _).
  apply isinstance_true in Hp as (op & Hop & Hpad).
  exists (MediaObject.id oe).
  destruct op as [? ? [| |pk|]]; try done.
  exists (MediaPad.index pk). split.
  - unfold entity_id_of. rewrite Hge; simpl. apply getattr_Ok. eauto.
  - apply getattr_Ok. eauto.
Qed.

Lemma pad_to_pad_true a self :
  pad_to_pad a self = true ↔
  ∃ lo l sp kp, a !! self = Some lo ∧ MediaObject.this lo = ALink l
                ∧ MediaLink.source l = Some sp ∧ MediaLink.sink l = Some kp
                ∧ isinstance a is_MediaPad sp = true
                ∧ isinstance a is_MediaPad kp = true.
Proof.
  unfold pad_to_pad, endpoint_is_pad. split.
  - destruct (a !! self) as [[? ? [| | |l]]|] eqn:Hself; simpl; try done.
    destruct (MediaLink.source l) as [sp|] eqn:Hs; simpl; [| done].
    destruct (MediaLink.sink l) as [kp|] eqn:Hk; simpl;
      [| by rewrite andb_false_r].
    intros [? ?]%andb_true_iff. by eexists _, l, sp, kp.
  - intros (lo & l & sp & kp & -> & Hl & Hs & Hk & Hsp & Hkp); simpl.
    by rewrite Hl, Hs, Hk; simpl; rewrite Hsp, Hkp.
Qed.

(** For a pad-to-pad link of a resolved graph the descriptor exists, and
    only its [flags] depend on the flags requested. *)
Lemma link_desc_Ok a self :
  resolved a = true → pad_to_pad a self = true →
  ∃ source sink, ∀ flags,
    link_desc a self flags = Ok (uapi.media_link_desc.mk source sink flags).
Proof.
  intros Hres (lo & l & sp & kp & Hself & Hl & Hs & Hk & Hsp & Hkp)%pad_to_pad_true.
  destruct (resolved_pad a sp Hres Hsp) as (seid & sidx & Hse & Hsi).
  destruct (resolved_pad a kp Hres Hkp) as (keid & kidx & Hke & Hki).
  exists (uapi.media_pad_desc.mk seid (uapi.c_uint16 sidx)),
         (uapi.media_pad_desc.mk keid (uapi.c_uint16 kidx)).
  intros flags. unfold link_desc.
  assert (MediaLink_source_pad a self = Ok sp) as ->.
  { unfold MediaLink_source_pad.
    assert (getattr a self attr_source = Ok (Some sp)) as ->.
    { apply getattr_Ok. exists lo. split; [done |].
      unfold attr_source. by rewrite Hl, Hs. }
    simpl. by rewrite Hsp. }
  assert (MediaLink_sink_pad a self = Ok kp) as ->.
  { unfold MediaLink_sink_pad.
    assert (getattr a self attr_sink = Ok (Some kp)) as ->.
    { apply getattr_Ok. exists lo. split; [done |].
      unfold attr_sink. by rewrite Hl, Hk. }
    simpl. by rewrite Hkp. }
  simpl. rewrite Hse; simpl. rewrite Hsi; simpl.
  rewrite Hke; simpl. by rewrite Hki.
Qed.

(** Assigning [flags] changes nothing the descriptor is built from. *)
Lemma lookup_alter_set_flags a self v o :
  alter (set_flags v) self a !! o
  = (if decide (self = o) then set_flags v else (λ x, x)) <$> a !! o.
Proof.
  rewrite list_lookup_alter. destruct (decide (self = o)) as [->|]; [done |].
  by destruct (a !! o).
Qed.

Lemma getattr_alter_set_flags {A} a self v o (attr : MediaObject.t → option A) :
  (∀ ob, attr (set_flags v ob) = attr ob) →
  getattr (alter (set_flags v) self a) o attr = getattr a o attr.
Proof.
  intros Hattr. unfold getattr. rewrite lookup_alter_set_flags.
  destruct (a !! o) as [ob|]; simpl; [| done].
  destruct (decide (self = o)); by rewrite ?Hattr.
Qed.

Lemma isinstance_alter_set_flags a self v cls o :
  (∀ ob, cls (set_flags v ob) = cls ob) →
  isinstance (alter (set_flags v) self a) cls o = isinstance a cls o.
Proof.
  intros Hcls. unfold isinstance. rewrite lookup_alter_set_flags.
  destruct (a !! o) as [ob|]; simpl; [| done].
  destruct (decide (self = o)); by rewrite ?Hcls.
Qed.


Lemma getattr_flags_alter a self v :
  pad_to_pad a self = true →
  getattr (alter (set_flags v) self a) self attr_flags = Ok v.
Proof.
  intros (lo & l & sp & kp & Hself & Hl & _)%pad_to_pad_true.
  apply getattr_Ok. exists (set_flags v lo). split.
  - by rewrite list_lookup_alter_eq, Hself.
  - destruct lo as [? ? ?]; simpl in *. by rewrite Hl.
Qed.

(** Assigning [flags] keeps a resolved graph resolved, and a pad-to-pad
    link pad-to-pad. *)
Lemma static_alter_set_flags a self v :
  static <$> alter (set_flags v) self a = static <$> a.
Proof.
  rewrite (list_fmap_alter static (set_flags v) (λ x, x)).
  - by apply list_alter_id.
  - apply Forall_forall. intros o _. apply static_set_flags.
Qed.

Lemma resolved_alter_set_flags a self v :
  resolved (alter (set_flags v) self a) = resolved a.
Proof.
  unfold resolved.
  rewrite <- MediaDevice_pads_static, static_alter_set_flags, MediaDevice_pads_static.
  induction (MediaDevice_pads a) as [|p ps IH]; simpl; [done |].
  rewrite IH. f_equal. unfold has_entity.
  rewrite getattr_alter_set_flags by (by intros [? ? []]).
  destruct (getattr a p attr_entity) as [[e|]|]; try done.
  by rewrite isinstance_alter_set_flags by (by intros [? ? []]).
Qed.

Lemma pad_to_pad_alter_set_flags a self v l :
  pad_to_pad (alter (set_flags v) self a) l = pad_to_pad a l.
Proof.
  unfold pad_to_pad, endpoint_is_pad. rewrite lookup_alter_set_flags.
  assert (∀ ob cls, (∀ x, cls (set_flags v x) = cls x) →
            from_option (isinstance (alter (set_flags v) self a) cls) false ob
            = from_option (isinstance a cls) false ob) as Hend.
  { intros [r|] cls Hcls; simpl; [| done]. by rewrite isinstance_alter_set_flags. }
  destruct (a !! l) as [[? ? [| | |k]]|]; simpl; [by destruct (decide _).. | | done].
  destruct (decide (self = l)); simpl;
    by rewrite !Hend by (by intros [? ? []]).
Qed.

End link_controller_facts.

Section link_controller_claims.
Context `{Host} `{Kernel}.

Lemma pad_to_pad_is_link a self :
  pad_to_pad a self = true → isinstance a is_MediaLink self = true.
Proof.
  intros (lo & l & _ & _ & Hself & Hl & _)%pad_to_pad_true.
  apply isinstance_true. exists lo. split; [done |].
  unfold is_MediaLink. by rewrite Hl.
Qed.

Lemma getattr_flags_assigned a self v :
  isinstance a is_MediaLink self = true →
  getattr (alter (set_flags v) self a) self attr_flags = Ok v.
Proof.
  intros (lo & Hself & Hl)%isinstance_true.
  apply getattr_Ok. exists (set_flags v lo). split.
  - by rewrite list_lookup_alter_eq, Hself.
  - by destruct lo as [? ? []].
Qed.

(** C4. Setting the enabled state of a pad-to-pad link of a resolved graph
    issues one setup-link call, with the requested flag word in the
    descriptor.  When the kernel accepts the call, the link's [flags] are
    the requested word: the enabled bit for [enable], zero for [disable].
    When the kernel refuses it, the exception carries the kernel's error and
    the device and its objects are as before. *)
Theorem set_link_enabled_calls_once s self enabled :
  resolved (MediaDevice.objects (md s)) = true →
  pad_to_pad (MediaDevice.objects (md s)) self = true →
  ∃ desc,
    uapi.media_link_desc.flags desc = requested_flags enabled
    ∧ events (world (set_link_enabled self enabled s).2)
      = events (world s)
        ++ [Ioctl (MediaDevice.fd (md s)) (MEDIA_IOC_SETUP_LINK desc)]
    ∧ match sys_setup_link (events (world s)) (MediaDevice.fd (md s)) desc with
      | inr _ =>
          (set_link_enabled self enabled s).1 = Ok ()
          ∧ getattr (MediaDevice.objects (md (set_link_enabled self enabled s).2))
              self attr_flags = Ok (requested_flags enabled)
      | inl errno =>
          (set_link_enabled self enabled s).1 = Raise (OSError errno)
          ∧ md (set_link_enabled self enabled s).2 = md s
      end.
Proof.
  intros Hres Hpp.
  destruct (link_desc_Ok _ _ Hres Hpp) as (source & sink & Hdesc).
  exists (uapi.media_link_desc.mk source sink (requested_flags enabled)).
  assert (set_link_enabled self enabled s
          = MediaLink_setup self (requested_flags enabled) s) as ->
    by (by destruct enabled).
  rewrite MediaLink_setup_run, Hdesc. simpl.
  destruct (sys_setup_link _ _ _) as [errno|[]]; simpl; split_and!; try done.
  by apply getattr_flags_assigned, pad_to_pad_is_link.
Qed.

(** C5. The typed accessor of an endpoint that is not a Pad raises the
    type-mismatch error.  So does setting the enabled state of a link of a
    resolved graph whose endpoints are not both Pads, and it leaves the
    device and the world as they were: no ioctl call is issued. *)
Theorem non_pad_endpoint_is_type_mismatch s self lo l :
  MediaDevice.objects (md s) !! self = Some lo →
  MediaObject.this lo = ALink l →
  resolved (MediaDevice.objects (md s)) = true →
  (endpoint_is_pad (MediaDevice.objects (md s)) (MediaLink.source l) = false →
   MediaLink_source_pad (MediaDevice.objects (md s)) self
   = Raise (RuntimeError "Source is not a MediaPad"))
  ∧ (endpoint_is_pad (MediaDevice.objects (md s)) (MediaLink.sink l) = false →
     MediaLink_sink_pad (MediaDevice.objects (md s)) self
     = Raise (RuntimeError "Sink is not a MediaPad"))
  ∧ (pad_to_pad (MediaDevice.objects (md s)) self = false →
     ∀ enabled, ∃ msg,
       (msg = "Source is not a MediaPad"%string ∨ msg = "Sink is not a MediaPad"%string)
       ∧ set_link_enabled self enabled s = (Raise (RuntimeError msg), s)).
Proof.
  set (a := MediaDevice.objects (md s)). intros Hself Hl Hres.
  assert (getattr a self attr_source = Ok (MediaLink.source l)) as Hgs.
  { apply getattr_Ok. exists lo. split; [done |]. unfold attr_source. by rewrite Hl. }
  assert (getattr a self attr_sink = Ok (MediaLink.sink l)) as Hgk.
  { apply getattr_Ok. exists lo. split; [done |]. unfold attr_sink. by rewrite Hl. }
  assert (endpoint_is_pad a (MediaLink.source l) = false →
          MediaLink_source_pad a self = Raise (RuntimeError "Source is not a MediaPad"))
    as Hsrc.
  { intros Hnp. unfold MediaLink_source_pad. rewrite Hgs; simpl.
    destruct (MediaLink.source l) as [sp|]; simpl in *; [| done]. by rewrite Hnp. }
  assert (endpoint_is_pad a (MediaLink.sink l) = false →
          MediaLink_sink_pad a self = Raise (RuntimeError "Sink is not a MediaPad"))
    as Hsnk.
  { intros Hnp. unfold MediaLink_sink_pad. rewrite Hgk; simpl.
    destruct (MediaLink.sink l) as [kp|]; simpl in *; [| done]. by rewrite Hnp. }
  split_and!; [done.. |].
  intros Hpp enabled.
  assert (set_link_enabled self enabled s
          = MediaLink_setup self (requested_flags enabled) s) as ->
    by (by destruct enabled).
  rewrite MediaLink_setup_run. fold a.
  unfold pad_to_pad in Hpp. fold a in Hpp. rewrite Hself in Hpp; simpl in Hpp.
  rewrite Hl in Hpp.
  destruct (endpoint_is_pad a (MediaLink.source l)) eqn:Hsp; simpl in Hpp.
  - exists "Sink is not a MediaPad"%string. split; [by right |].
    unfold link_desc.
    destruct (MediaLink.source l) as [sp|] eqn:Hs; simpl in Hsp; [| done].
    assert (MediaLink_source_pad a self = Ok sp) as ->.
    { unfold MediaLink_source_pad. rewrite Hgs; simpl. by rewrite Hsp. }
    destruct (resolved_pad a sp Hres Hsp) as (eid & idx & Hse & Hsi).
    simpl. rewrite Hse; simpl. rewrite Hsi; simpl. by rewrite (Hsnk Hpp).
  - exists "Source is not a MediaPad"%string. split; [by left |].
    unfold link_desc. by rewrite (Hsrc eq_refl).
Qed.


End link_controller_claims.

(** ** A two-entity pipeline (C8) *)

Section two_entities.
Context `{Host}.

Lemma construct_two_entities header e0 e1 p0 p1 l :
  ¬ raised (construct (MediaTopology.mk header [e0; e1] [] [p0; p1] [l])) →
  ∃ n0 n1,
    construct (MediaTopology.mk header [e0; e1] [] [p0; p1] [l])
    = Ok [MediaObject.mk (uapi.media_v2_entity.id e0) None
            (AnEntity (MediaEntity.mk e0 n0 (uapi.media_v2_entity.function e0)
                         (uapi.media_v2_entity.flags e0) None None));
          MediaObject.mk (uapi.media_v2_entity.id e1) None
            (AnEntity (MediaEntity.mk e1 n1 (uapi.media_v2_entity.function e1)
                         (uapi.media_v2_entity.flags e1) None None));
          pad_object p0; pad_object p1; link_object l].
Proof.
  intros Hok.
  destruct (construct _) as [objects0|e] eqn:Hc; [| destruct Hok; by exists e].
  destruct (construct_Ok _ _ Hc) as (es & ifs & Hes & Hifs & ->). simpl in *.
  apply Forall2_cons_inv_l in Hes as (o0 & es' & (n0 & ->)%MediaEntity_init_Ok & Hes & ->).
  apply Forall2_cons_inv_l in Hes as (o1 & es'' & (n1 & ->)%MediaEntity_init_Ok & Hes & ->).
  apply Forall2_nil_inv_l in Hes as ->. apply Forall2_nil_inv_l in Hifs as ->.
  by exists n0, n1.
Qed.

End two_entities.

(** The objects of such a pipeline as constructed: entities with IDs [a] and
    [b], a pad [c] of [a], a pad [d] of [b], and a link from [c] to [d]. *)
Section two_entities_objects.
Variables (a b c d i : Z) (E0 E1 : MediaEntity.t) (P0 P1 : MediaPad.t)
  (L : MediaLink.t) (objects0 : list MediaObject.t).
Hypothesis Hobjects0 :
  objects0 = [MediaObject.mk a None (AnEntity E0); MediaObject.mk b None (AnEntity E1);
              MediaObject.mk c None (APad P0); MediaObject.mk d None (APad P1);
              MediaObject.mk i None (ALink L)].
Hypothesis HP0 : uapi.media_v2_pad.entity_id (MediaPad.media_pad P0) = a.
Hypothesis HP1 : uapi.media_v2_pad.entity_id (MediaPad.media_pad P1) = b.
Hypothesis Hsource : uapi.media_v2_link.source_id (MediaLink.media_link L) = c.
Hypothesis Hsink : uapi.media_v2_link.sink_id (MediaLink.media_link L) = d.
Hypothesis Hdistinct : NoDup [a; b; c; d].

Lemma two_entities_distinct :
  (a =? b)%Z = false ∧ (a =? c)%Z = false ∧ (a =? d)%Z = false
  ∧ (b =? a)%Z = false ∧ (b =? c)%Z = false ∧ (b =? d)%Z = false
  ∧ (c =? a)%Z = false ∧ (c =? b)%Z = false ∧ (c =? d)%Z = false
  ∧ (d =? a)%Z = false ∧ (d =? b)%Z = false ∧ (d =? c)%Z = false.
Proof.
  pose proof Hdistinct as Hd.
  rewrite !NoDup_cons, !not_elem_of_cons in Hd. destruct_and!.
  rewrite !Z.eqb_neq. split_and!; congruence.
Qed.

Ltac eqbs :=
  destruct two_entities_distinct
    as (Eab & Eac & Ead & Eba & Ebc & Ebd & Eca & Ecb & Ecd & Eda & Edb & Edc);
  rewrite ?Z.eqb_refl, ?Eab, ?Eac, ?Ead, ?Eba, ?Ebc, ?Ebd, ?Eca, ?Ecb, ?Ecd,
    ?Eda, ?Edb, ?Edc.

Lemma two_entities_generators :
  MediaDevice_entities objects0 = [0; 1] ∧ MediaDevice_pads objects0 = [2; 3]
  ∧ MediaDevice_links objects0 = [4] ∧ refs objects0 = [0; 1; 2; 3; 4].
Proof. by rewrite Hobjects0. Qed.

Lemma two_entities_incident x :
  filter (λ l, incident objects0 x l) (MediaDevice_links objects0)
  = if ((x =? c) || (x =? d))%Z then [4] else [].
Proof.
  destruct two_entities_generators as (_ & _ & -> & _).
  rewrite !filter_cons, filter_nil. unfold incident, media_link_of.
  rewrite Hobjects0. cbn. rewrite Hsource, Hsink. by destruct (_ || _).
Qed.

Lemma two_entities_owned_by x :
  filter (λ p, owned_by objects0 x p) (MediaDevice_pads objects0)
  = (if (a =? x)%Z then [2] else []) ++ (if (b =? x)%Z then [3] else []).
Proof.
  destruct two_entities_generators as (_ & -> & _ & _).
  rewrite !filter_cons, filter_nil. unfold owned_by, media_pad_of.
  rewrite Hobjects0. cbn. rewrite HP0, HP1. by do 2 destruct (_ =? x)%Z.
Qed.

Lemma two_entities_entity_a :
  next (filter (λ e, has_id objects0 a e) (MediaDevice_entities objects0)) = Ok 0.
Proof.
  destruct two_entities_generators as (-> & _ & _ & _).
  rewrite !filter_cons, filter_nil. unfold has_id. rewrite Hobjects0. cbn.
  by eqbs.
Qed.

Lemma two_entities_entity_b :
  next (filter (λ e, has_id objects0 b e) (MediaDevice_entities objects0)) = Ok 1.
Proof.
  destruct two_entities_generators as (-> & _ & _ & _).
  rewrite !filter_cons, filter_nil. unfold has_id. rewrite Hobjects0. cbn.
  by eqbs.
Qed.

Lemma two_entities_object_c :
  next (filter (λ e, has_id objects0 c e) (refs objects0)) = Ok 2.
Proof.
  destruct two_entities_generators as (_ & _ & _ & ->).
  rewrite !filter_cons, filter_nil. unfold has_id. rewrite Hobjects0. cbn.
  by eqbs.
Qed.

Lemma two_entities_object_d :
  next (filter (λ e, has_id objects0 d e) (refs objects0)) = Ok 3.
Proof.
  destruct two_entities_generators as (_ & _ & _ & ->).
  rewrite !filter_cons, filter_nil. unfold has_id. rewrite Hobjects0. cbn.
  by eqbs.
Qed.

Lemma two_entities_finalized :
  mapM (finalized objects0) objects0
  = Ok [MediaObject.mk a (Some [])
          (AnEntity (MediaEntity.mk (MediaEntity.media_entity E0) (MediaEntity.name E0)
                       (MediaEntity.function E0) (MediaEntity.flags E0)
                       (Some [2]) (MediaEntity.interface E0)));
        MediaObject.mk b (Some [])
          (AnEntity (MediaEntity.mk (MediaEntity.media_entity E1) (MediaEntity.name E1)
                       (MediaEntity.function E1) (MediaEntity.flags E1)
                       (Some [3]) (MediaEntity.interface E1)));
        MediaObject.mk c (Some [4])
          (APad (MediaPad.mk (MediaPad.media_pad P0) (MediaPad.index P0) (Some 0)));
        MediaObject.mk d (Some [4])
          (APad (MediaPad.mk (MediaPad.media_pad P1) (MediaPad.index P1) (Some 1)));
        MediaObject.mk i (Some (if ((i =? c) || (i =? d))%Z then [4] else []))
          (ALink (MediaLink.mk (MediaLink.media_link L) (MediaLink.flags L)
                    (Some 2) (Some 3)))].
Proof.
  rewrite Hobjects0 at 2. unfold mapM, finalized.
  cbn [MediaObject.id MediaObject.this set_links].
  rewrite !two_entities_incident, !two_entities_owned_by.
  rewrite HP0, HP1, Hsource, Hsink.
  rewrite two_entities_entity_a, two_entities_entity_b, two_entities_object_c,
    two_entities_object_d.
  eqbs. by cbn.
Qed.

End two_entities_objects.

Section two_entities_claim.
Context `{Host}.

(** C8. A snapshot of two entities, one pad of each and one link from the
    first entity's pad to the second's, no interface, the IDs of entities
    and pads distinct and the records such that the objects can be built:
    resolution returns a graph in which the source pad of the link belongs
    to the first entity, the sink pad to the second, and [pad_links] of
    either entity is the list of that one link. *)
Theorem two_entity_pipeline_resolves header e0 e1 p0 p1 l :
  ¬ raised (construct (MediaTopology.mk header [e0; e1] [] [p0; p1] [l])) →
  uapi.media_v2_pad.entity_id p0 = uapi.media_v2_entity.id e0 →
  uapi.media_v2_pad.entity_id p1 = uapi.media_v2_entity.id e1 →
  uapi.media_v2_link.source_id l = uapi.media_v2_pad.id p0 →
  uapi.media_v2_link.sink_id l = uapi.media_v2_pad.id p1 →
  NoDup [uapi.media_v2_entity.id e0; uapi.media_v2_entity.id e1;
         uapi.media_v2_pad.id p0; uapi.media_v2_pad.id p1] →
  ∃ objects,
    resolve (MediaTopology.mk header [e0; e1] [] [p0; p1] [l]) = Ok objects
    ∧ MediaDevice_entities objects = [0; 1]
    ∧ MediaDevice_links objects = [4]
    ∧ MediaLink_source_pad objects 4 = Ok 2
    ∧ getattr objects 2 attr_entity = Ok (Some 0)
    ∧ MediaLink_sink_pad objects 4 = Ok 3
    ∧ getattr objects 3 attr_entity = Ok (Some 1)
    ∧ MediaEntity_pad_links objects 0 = Ok [4]
    ∧ MediaEntity_pad_links objects 1 = Ok [4].
Proof.
  intros Hok Hp0 Hp1 Hsrc Hsnk Hnd.
  destruct (construct_two_entities _ _ _ _ _ _ Hok) as (n0 & n1 & Hc).
  unfold resolve. rewrite Hc. unfold mbind at 1, result_bind at 1.
  rewrite finalize_each_mapM.
  erewrite two_entities_finalized; [| reflexivity | done..].
  eexists. split; [done |]. by split_and!.
Qed.

End two_entities_claim.

(** ** The two-phase read (C6) *)

Lemma length_filled {A} (zero : A) n written : length (filled zero n written) = n.
Proof.
  unfold filled. rewrite length_take, length_app, length_replicate. lia.
Qed.

Lemma lookup_filled {A} (zero : A) n written i :
  i < n → filled zero n written !! i = Some (default zero (written !! i)).
Proof.
  intros Hi. unfold filled. rewrite lookup_take_lt by done.
  destruct (written !! i) as [x|] eqn:Hx; simpl.
  - rewrite lookup_app_l by (by eapply lookup_lt_Some). done.
  - apply lookup_ge_None in Hx. rewrite lookup_app_r by done.
    apply lookup_replicate_2. lia.
Qed.

Section topology_read.
Context `{Host} `{Kernel}.

(** C6, as the code has it.  [__read_topology] does not compare the counts
    of the two calls.  When the sizing call fails, or the filling call
    after it, the reader raises the error of that call.  When both succeed,
    whatever counts the filling call returned, the reader returns four
    sequences of exactly the lengths the sizing call returned: each record
    is the one the filling call wrote at its position, and a zeroed record
    where it wrote none.  The header keeps the counts of the filling call,
    and resolution goes on with these sequences. *)
Theorem read_raw_topology_keeps_sizes fd w :
  let sizing := uapi.media_v2_topology.zero in
  let w1 := log (Ioctl fd (MEDIA_IOC_G_TOPOLOGY sizing)) w in
  match sys_g_topology (events w) fd sizing with
  | inl errno => read_raw_topology fd w = (Raise (OSError errno), w1)
  | inr sized =>
      let filling :=
        uapi.media_v2_topology.mk (reply_version sized)
          (reply_num_entities sized) true (reply_num_interfaces sized) true
          (reply_num_pads sized) true (reply_num_links sized) true in
      let w2 := log (Ioctl fd (MEDIA_IOC_G_TOPOLOGY filling)) w1 in
      match sys_g_topology (events w1) fd filling with
      | inl errno => read_raw_topology fd w = (Raise (OSError errno), w2)
      | inr got =>
          ∃ t,
            read_raw_topology fd w = (Ok t, w2)
            ∧ topology_replies fd w = Some (sized, got)
            ∧ length (MediaTopology.entities t) = reply_num_entities sized
            ∧ length (MediaTopology.interfaces t) = reply_num_interfaces sized
            ∧ length (MediaTopology.pads t) = reply_num_pads sized
            ∧ length (MediaTopology.links t) = reply_num_links sized
            ∧ (∀ i, i < reply_num_entities sized →
                    MediaTopology.entities t !! i
                    = Some (default uapi.media_v2_entity.zero
                              (reply_entities got !! i)))
            ∧ (∀ i, i < reply_num_interfaces sized →
                    MediaTopology.interfaces t !! i
                    = Some (default uapi.media_v2_interface.zero
                              (reply_interfaces got !! i)))
            ∧ (∀ i, i < reply_num_pads sized →
                    MediaTopology.pads t !! i
                    = Some (default uapi.media_v2_pad.zero (reply_pads got !! i)))
            ∧ (∀ i, i < reply_num_links sized →
                    MediaTopology.links t !! i
                    = Some (default uapi.media_v2_link.zero (reply_links got !! i)))
            ∧ MediaTopology.topology t
              = uapi.media_v2_topology.mk (reply_version got)
                  (reply_num_entities got) true (reply_num_interfaces got) true
                  (reply_num_pads got) true (reply_num_links got) true
            ∧ read_topology fd w
              = (match resolve t with
                 | Ok objects => Ok (t, objects)
                 | Raise e => Raise e
                 end, w2)
      end
  end.
Proof.
  unfold topology_replies, read_topology, read_raw_topology, mbind, M_bind, lift,
    mret, M_ret, ioctl_g_topology.
  simpl.
  destruct (sys_g_topology (events w) fd _) as [errno|sized]; [done |].
  simpl.
  destruct (sys_g_topology _ fd _) as [errno|got]; [done |].
  eexists. split; [reflexivity |]. simpl.
  split_and!; try done.
  - apply length_filled.
  - apply length_filled.
  - apply length_filled.
  - apply length_filled.
  - intros i Hi. by apply lookup_filled.
  - intros i Hi. by apply lookup_filled.
  - intros i Hi. by apply lookup_filled.
  - intros i Hi. by apply lookup_filled.
  - by destruct (resolve _).
Qed.

End topology_read.

(** C6 does not hold as the specification states it: with the kernel that
    returns three links to the sizing call and two to the filling call, the
    caller gets no exception, but a graph. *)
Lemma count_mismatch_goes_unreported :
  ¬ (∀ (H : Host) (K : Kernel) fd w sized got,
       topology_replies fd w = Some (sized, got) →
       counts sized ≠ counts got →
       raised (read_topology fd w).1).
Proof.
  intros Hclaim.
  destruct (Hclaim a_host unplugging_kernel 3%Z new_world _ _ eq_refl) as [e He].
  - vm_compute. congruence.
  - vm_compute in He. discriminate.
Qed.

(** ** The descriptor of the handle (C9) *)

Section descriptor.
Context `{Host} `{Kernel}.

Lemma quiet_bind {A B} (m : M World A) (f : A → M World B) :
  quiet m → (∀ a, quiet (f a)) → quiet (m ≫= f).
Proof.
  intros Hm Hf w r w'. unfold mbind, M_bind.
  destruct (m w) as [[a|e] w1] eqn:H1.
  - intros H2. destruct (Hm _ _ _ H1) as [Hf1 Hc1], (Hf _ _ _ _ H2) as [Hf2 Hc2].
    split; [congruence |]. intros fd. by rewrite Hc2.
  - intros [= <- <-]. by apply (Hm _ _ _ H1).
Qed.

Lemma quiet_lift {A} (r : result A) : quiet (lift r).
Proof. by intros w r' w' [= <- <-]. Qed.

Lemma quiet_ret {A} (a : A) : quiet (mret a).
Proof. by intros w r' w' [= <- <-]. Qed.

Lemma closes_log fd e w :
  closes fd (log e w) = closes fd w + (if is_close_of fd e then 1 else 0).
Proof.
  unfold closes, log; simpl. rewrite filter_app, length_app.
  rewrite filter_cons, filter_nil. by destruct (is_close_of fd e).
Qed.

Lemma quiet_os_open path : quiet (os_open path).
Proof.
  intros w r w'. unfold os_open. destruct (sys_open _ _); intros [= <- <-].
  - done.
  - split; [done |]. intros fd. rewrite closes_log. simpl. lia.
Qed.

Lemma quiet_ioctl_device_info fd : quiet (ioctl_device_info fd).
Proof.
  intros w r w'. unfold ioctl_device_info.
  destruct (sys_device_info _ _); intros [= <- <-];
    (split; [done |]; intros fd'; rewrite closes_log; simpl; lia).
Qed.

Lemma quiet_ioctl_g_topology fd t : quiet (ioctl_g_topology fd t).
Proof.
  intros w r w'. unfold ioctl_g_topology.
  destruct (sys_g_topology _ _ _); intros [= <- <-];
    (split; [done |]; intros fd'; rewrite closes_log; simpl; lia).
Qed.

Lemma quiet_read_device_info fd : quiet (read_device_info fd).
Proof.
  unfold read_device_info.
  repeat (apply quiet_bind; [first [apply quiet_ioctl_device_info | apply quiet_lift] |];
          intros ?).
  apply quiet_ret.
Qed.

Lemma quiet_read_topology fd : quiet (read_topology fd).
Proof.
  unfold read_topology, read_raw_topology.
  apply quiet_bind.
  - apply quiet_bind; [apply quiet_ioctl_g_topology |]. intros sized.
    apply quiet_bind; [apply quiet_ioctl_g_topology |]. intros got.
    apply quiet_ret.
  - intros t. apply quiet_bind; [apply quiet_lift |]. intros ?. apply quiet_ret.
Qed.

(** Opening a device by its path: the finalizer that closes the descriptor
    is registered when construction succeeds, and only then.  When anything
    raises after the descriptor is opened, nothing closes it, at the moment
    or at teardown. *)
Lemma MediaDevice_init_path name w :
  match MediaDevice_init name "path" w with
  | (Ok d, w') =>
      sys_open (events w) name = inr (MediaDevice.fd d)
      ∧ finalizers w' = finalizers w ++ [MediaDevice.fd d]
      ∧ (∀ fd, closes fd w' = closes fd w)
      ∧ resolve (MediaDevice.topology d) = Ok (MediaDevice.objects d)
  | (Raise e, w') =>
      finalizers w' = finalizers w ∧ (∀ fd, closes fd w' = closes fd w)
  end.
Proof.
  unfold MediaDevice_init. simpl. unfold mbind at 1, M_bind at 1. simpl.
  unfold mbind at 1, M_bind at 1.
  destruct (os_open name w) as [[fd|e] w1] eqn:Hopen.
  2: { by apply (quiet_os_open _ _ _ _ Hopen). }
  destruct (quiet_os_open _ _ _ _ Hopen) as [Hf1 Hc1].
  assert (sys_open (events w) name = inr fd) as Hfd.
  { unfold os_open in Hopen. by destruct (sys_open _ _); simplify_eq. }
  unfold mbind at 1, M_bind at 1.
  destruct (read_device_info fd w1) as [[info|e] w2] eqn:Hinfo.
  2: { destruct (quiet_read_device_info _ _ _ _ Hinfo) as [Hf2 Hc2].
       split; [congruence |]. intros ?. by rewrite Hc2. }
  destruct (quiet_read_device_info _ _ _ _ Hinfo) as [Hf2 Hc2].
  destruct info as [[[[[[driver model] serial] bus_info] mv] hw] dv].
  unfold mbind at 1, M_bind at 1.
  destruct (read_topology fd w2) as [[[topology objects]|e] w3] eqn:Htopo.
  2: { destruct (quiet_read_topology _ _ _ _ Htopo) as [Hf3 Hc3].
       split; [congruence |]. intros ?. by rewrite Hc3, Hc2. }
  destruct (quiet_read_topology _ _ _ _ Htopo) as [Hf3 Hc3].
  simpl. split_and!.
  - done.
  - congruence.
  - intros fd'. rewrite <- Hc1, <- Hc2, <- Hc3. reflexivity.
  - unfold read_topology, mbind, M_bind, lift, mret, M_ret in Htopo.
    destruct (read_raw_topology fd w2) as [[t|] ?]; [| done].
    destruct (resolve t) eqn:Hres; by simplify_eq.
Qed.

Lemma closes_teardown fd w :
  closes fd (teardown w)
  = closes fd w + length (filter (λ fd', fd' = fd) (finalizers w)).
Proof.
  unfold closes, teardown; simpl. rewrite filter_app, length_app. f_equal.
  induction (finalizers w) as [|fd' fds IH]; simpl; [done |].
  rewrite !filter_cons. simpl.
  destruct (Z.eqb_spec fd' fd) as [->|Hne]; simpl.
  - rewrite decide_True by done. simpl. by rewrite IH.
  - by rewrite decide_False by done.
Qed.

(** So, for every kernel: when the constructor raises, teardown closes
    nothing more than it would have closed before the call, and the
    descriptor the call opened stays open; when it returns, teardown closes
    the descriptor of the device once more than before. *)
Lemma MediaDevice_init_path_teardown name w :
  match MediaDevice_init name "path" w with
  | (Ok d, w') =>
      closes (MediaDevice.fd d) (teardown w')
      = closes (MediaDevice.fd d) (teardown w) + 1
  | (Raise e, w') => ∀ fd, closes fd (teardown w') = closes fd (teardown w)
  end.
Proof.
  pose proof (MediaDevice_init_path name w) as Hinit.
  destruct (MediaDevice_init name "path" w) as [[d|e] w'].
  - destruct Hinit as (_ & Hfin & Hcl & _).
    rewrite !closes_teardown, Hfin, Hcl, filter_app, length_app.
    rewrite filter_cons, filter_nil, decide_True by done. simpl. lia.
  - destruct Hinit as [Hfin Hcl]. intros fd.
    by rewrite !closes_teardown, Hfin, Hcl.
Qed.

(** Whatever the key, a device is returned only with the objects that
    resolution returned for its topology, and these are [resolved]. *)
Lemma MediaDevice_init_resolved name key w d w' :
  MediaDevice_init name key w = (Ok d, w') →
  resolve (MediaDevice.topology d) = Ok (MediaDevice.objects d).
Proof.
  unfold MediaDevice_init. unfold mbind at 1, M_bind at 1.
  destruct ((if negb (key =? "path")%string
             then find_media_device_by_value key name else mret name) w)
    as [[name'|e] w0]; [| done].
  intros Hinit. pose proof (MediaDevice_init_path name' w0) as Hpath.
  unfold MediaDevice_init in Hpath. simpl in Hpath.
  unfold mbind at 1, M_bind at 1 in Hpath. simpl in Hpath.
  rewrite Hinit in Hpath. tauto.
Qed.

Lemma MediaDevice_init_is_resolved name key w d w' :
  MediaDevice_init name key w = (Ok d, w') →
  resolved (MediaDevice.objects d) = true.
Proof. intros Hinit%MediaDevice_init_resolved. by eapply resolve_resolved. Qed.

(** C1. If a pad's [entity_id], or a link's [source_id] or [sink_id], is
    the ID of no object of the topology snapshot, resolution raises and
    returns no objects; and no device that a caller ever gets has such a
    topology. *)
Theorem dangling_id_is_fatal topology :
  dangling topology →
  raised (resolve topology)
  ∧ ∀ name key w d w',
      MediaDevice_init name key w = (Ok d, w') → MediaDevice.topology d ≠ topology.
Proof.
  intros Hd. split.
  - destruct (resolve topology) as [objects|e] eqn:Hres; [| by exists e].
    by destruct (resolve_not_dangling _ _ Hres).
  - intros name key w d w' Hinit%MediaDevice_init_resolved <-.
    by destruct (resolve_not_dangling _ _ Hinit).
Qed.

End descriptor.

(** C9 is what the code should do and does not.  Here the node opens as
    descriptor 3 and the device-info call fails: the constructor raises, and
    at the end of the process descriptor 3 has been opened once and closed
    never. *)
Theorem failed_construction_leaks_descriptor :
  ∃ w, @MediaDevice_init a_host not_a_media_device "/dev/media0" "path" new_world
       = (Raise (OSError 25), w)
       ∧ opens 3 (teardown w) = 1
       ∧ closes 3 (teardown w) = 0.
Proof. eexists. by vm_compute. Qed.

(** On the path where construction succeeds, the descriptor is closed once,
    at teardown. *)
Lemma successful_construction_closes_once :
  ∃ d w, @MediaDevice_init a_host (mock_kernel (pipeline 0)) "/dev/media0" "path"
           new_world = (Ok d, w)
         ∧ opens (MediaDevice.fd d) (teardown w) = 1
         ∧ closes (MediaDevice.fd d) w = 0
         ∧ closes (MediaDevice.fd d) (teardown w) = 1.
Proof. eexists _, _. by vm_compute. Qed.

(** The temporary descriptor of the search by value is closed on every
    path, also when the device-info call on it fails. *)
Lemma search_closes_its_descriptor :
  ∃ w, @MediaDevice_init a_host not_a_media_device "vimc" "driver" new_world
       = (Raise (OSError 25), w)
       ∧ opens 3 w = 1 ∧ closes 3 w = 1.
Proof. eexists. by vm_compute. Qed.


(** ** The theorems at work on the pipeline *)

(** C1 on the pipeline with the stray link. *)
Lemma dangling_id_is_fatal_witness :
  dangling pipeline_with_stray_link ∧ raised (@resolve a_host pipeline_with_stray_link).
Proof.
  assert (dangling pipeline_with_stray_link) as Hd.
  { unfold dangling. apply (bool_decide_unpack _). vm_compute. exact I. }
  split; [exact Hd |].
  exact (proj1 (@dangling_id_is_fatal a_host (mock_kernel pipeline_with_stray_link)
                  pipeline_with_stray_link Hd)).
Defined.

(** C2 on the capture entity, which link 6 attaches to interface 7. *)
Lemma entity_interface_by_count_witness :
  ∃ objects',
    MediaEntity_finalize constructed_pipeline 1 = Ok objects'
    ∧ getattr objects' 1 attr_interface = Ok (Some 2).
Proof.
  eapply (@entity_interface_by_count a_host capture constructed_pipeline 1);
    reflexivity.
Defined.

(** C3 on the sink pad of the resolved pipeline. *)
Lemma pad_entity_lists_pad_once_witness :
  ∃ pad, resolved_pipeline !! 4 = Some pad
    ∧ ∃ e ent pads,
        attr_entity pad = Some (Some e)
        ∧ resolved_pipeline !! e = Some ent
        ∧ is_MediaEntity ent = true
        ∧ attr_pads ent = Some (Some pads)
        ∧ count_occ Nat.eq_dec pads 4 = 1.
Proof.
  eexists. split; [reflexivity |].
  apply (@pad_entity_lists_pad_once a_host (pipeline 0) resolved_pipeline 4);
    reflexivity.
Defined.

(** C4 on link 5, enabled on a kernel that accepts the call and on one
    that refuses it. *)
Lemma set_link_enabled_calls_once_witness :
  resolved (MediaDevice.objects (md (a_session 0))) = true
  ∧ pad_to_pad (MediaDevice.objects (md (a_session 0))) 5 = true
  ∧ getattr
      (MediaDevice.objects
         (md (@set_link_enabled a_host (mock_kernel (pipeline 0)) 5 true (a_session 0)).2))
      5 attr_flags = Ok 1%Z
  ∧ (@set_link_enabled a_host (busy_kernel (pipeline 0)) 5 true (a_session 0)).1
    = Raise (OSError 16)
  ∧ md (@set_link_enabled a_host (busy_kernel (pipeline 0)) 5 true (a_session 0)).2
    = md (a_session 0).
Proof.
  split; [reflexivity |]. split; [reflexivity |].
  destruct (@set_link_enabled_calls_once a_host (mock_kernel (pipeline 0))
              (a_session 0) 5 true eq_refl eq_refl) as (desc & _ & _ & Hk).
  split; [exact (proj2 Hk) |].
  destruct (@set_link_enabled_calls_once a_host (busy_kernel (pipeline 0))
              (a_session 0) 5 true eq_refl eq_refl) as (desc' & _ & _ & Hk').
  exact Hk'.
Defined.

(** C5 on link 6, from the interface to the capture entity. *)
Lemma non_pad_endpoint_is_type_mismatch_witness :
  MediaLink_source_pad (MediaDevice.objects (md (a_session 0))) 6
  = Raise (RuntimeError "Source is not a MediaPad")
  ∧ ∃ msg, @set_link_enabled a_host (mock_kernel (pipeline 0)) 6 true (a_session 0)
           = (Raise (RuntimeError msg), a_session 0).
Proof.
  destruct (@non_pad_endpoint_is_type_mismatch a_host (mock_kernel (pipeline 0))
              (a_session 0) 6 _ _ eq_refl eq_refl eq_refl)
    as (Hsource & _ & Htoggle).
  split; [exact (Hsource eq_refl) |].
  destruct (Htoggle eq_refl true) as (msg & _ & Hrun).
  exists msg. exact Hrun.
Defined.


(** C8 on the sensor and the capture node without the video node. *)
Lemma two_entity_pipeline_resolves_witness :
  ∃ objects,
    @resolve a_host
      (MediaTopology.mk uapi.media_v2_topology.zero [sensor; capture] []
         [sensor_pad; capture_pad] [data_link 0]) = Ok objects
    ∧ MediaDevice_entities objects = [0; 1]
    ∧ MediaDevice_links objects = [4]
    ∧ MediaLink_source_pad objects 4 = Ok 2
    ∧ getattr objects 2 attr_entity = Ok (Some 0)
    ∧ MediaLink_sink_pad objects 4 = Ok 3
    ∧ getattr objects 3 attr_entity = Ok (Some 1)
    ∧ MediaEntity_pad_links objects 0 = Ok [4]
    ∧ MediaEntity_pad_links objects 1 = Ok [4].
Proof.
  apply (@two_entity_pipeline_resolves a_host).
  - intros [e He]. vm_compute in He. discriminate He.
  - reflexivity.
  - reflexivity.
  - reflexivity.
  - reflexivity.
  - apply (bool_decide_unpack _). vm_compute. exact I.
Defined.

(** C10 on the resolved pipeline: ID 7 is the interface, ID 99 is unused. *)
Lemma find_id_unique_or_None_witness :
  MediaDevice_find_id resolved_pipeline 7 = Some 2
  ∧ MediaDevice_find_id resolved_pipeline 99 = None.
Proof.
  split.
  - apply (proj1 (find_id_unique_or_None resolved_pipeline 7)
             (take 2 resolved_pipeline)
             (default (link_object (data_link 0)) (resolved_pipeline !! 2))
             (drop 3 resolved_pipeline)).
    + reflexivity.
    + reflexivity.
    + apply (bool_decide_unpack _). vm_compute. exact I.
    + apply (bool_decide_unpack _). vm_compute. exact I.
  - apply (proj2 (find_id_unique_or_None resolved_pipeline 99)).
    apply (bool_decide_unpack _). vm_compute. exact I.
Defined.

(** * Further properties of [media.py]

    ** The objects of a resolved graph *)

Section resolved_graph.
Context `{Host}.
Implicit Types (a objects : list MediaObject.t).

(** Every object of a resolved graph is what [_finalize] computes, on the
    resolved graph itself, from the object as constructed. *)
Lemma resolve_objects topology objects :
  resolve topology = Ok objects →
  ∃ objects0,
    construct topology = Ok objects0
    ∧ static <$> objects = static <$> objects0
    ∧ Forall2 (λ o o', finalized objects o = Ok o') objects0 objects.
Proof.
  intros (objects0 & Hc & Hfin)%resolve_Ok.
  assert (static <$> objects = static <$> objects0) as Hst.
  { clear Hc. induction Hfin as [|o o' l l' Ho _ IH]; csimpl; [done |].
    f_equal; [by eapply finalized_keeps_static | done]. }
  exists objects0. split_and!; [done.. |].
  eapply Forall2_impl; [exact Hfin |]. intros o o' <-.
  by apply finalized_same_static.
Qed.

Lemma MediaDevice_interfaces_static a :
  MediaDevice_interfaces (static <$> a) = MediaDevice_interfaces a.
Proof.
  unfold MediaDevice_interfaces. rewrite refs_static.
  apply list_filter_iff. intros r.
  by rewrite isinstance_static by apply is_MediaInterface_static.
Qed.

(** The references to a block of objects that are all of one class, or
    none of that class. *)
Lemma filter_block a cls pre mid post :
  a = pre ++ mid ++ post →
  (Forall (λ o, cls o = true) mid →
   filter (λ o, isinstance a cls o) (seq (length pre) (length mid))
   = seq (length pre) (length mid))
  ∧ (Forall (λ o, cls o = false) mid →
     filter (λ o, isinstance a cls o) (seq (length pre) (length mid)) = []).
Proof.
  intros ->.
  assert (∀ r, r ∈ seq (length pre) (length mid) →
               ∃ o, o ∈ mid ∧ isinstance (pre ++ mid ++ post) cls r = cls o) as Hr.
  { intros r [Hlo Hhi]%elem_of_seq.
    destruct (lookup_lt_is_Some_2 mid (r - length pre)) as [o Ho]; [lia |].
    exists o. split; [by eapply list_elem_of_lookup_2 |].
    unfold isinstance. rewrite lookup_app_r by lia.
    by rewrite lookup_app_l, Ho by lia. }
  revert Hr. generalize (seq (length pre) (length mid)). intros l Hl. split.
  - intros Hall. induction l as [|r l IH]; [done |].
    rewrite filter_cons. destruct (Hl r) as (o & Ho & ->); [by left |].
    rewrite Forall_forall in Hall. rewrite (Hall o Ho).
    rewrite decide_True by done. f_equal. apply IH. intros; apply Hl. by right.
  - intros Hall. induction l as [|r l IH]; [done |].
    rewrite filter_cons. destruct (Hl r) as (o & Ho & ->); [by left |].
    rewrite Forall_forall in Hall. rewrite (Hall o Ho).
    rewrite decide_False by (by intros []). apply IH. intros; apply Hl. by right.
Qed.

Lemma refs_blocks (es ifs ps ls : list MediaObject.t) :
  refs (es ++ ifs ++ ps ++ ls)
  = seq 0 (length es) ++ seq (length es) (length ifs)
    ++ seq (length es + length ifs) (length ps)
    ++ seq (length es + length ifs + length ps) (length ls).
Proof.
  unfold refs. by rewrite !length_app, !seq_app.
Qed.

(** The classes of the objects as constructed. *)
Lemma construct_blocks topology objects0 :
  construct topology = Ok objects0 →
  ∃ es ifs ps ls,
    objects0 = es ++ ifs ++ ps ++ ls
    ∧ length es = length (MediaTopology.entities topology)
    ∧ length ifs = length (MediaTopology.interfaces topology)
    ∧ ps = pad_object <$> MediaTopology.pads topology
    ∧ ls = link_object <$> MediaTopology.links topology
    ∧ Forall2 (λ raw o, ∃ e, o = MediaObject.mk (uapi.media_v2_entity.id raw) None
                                   (AnEntity e)
                             ∧ MediaEntity.media_entity e = raw
                             ∧ MediaEntity.interface e = None)
        (MediaTopology.entities topology) es
    ∧ Forall2 (λ raw o, ∃ i, o = MediaObject.mk (uapi.media_v2_interface.id raw) None
                                   (AnInterface i)
                             ∧ MediaInterface.media_iface i = raw)
        (MediaTopology.interfaces topology) ifs.
Proof.
  intros (es & ifs & Hes & Hifs & ->)%construct_Ok.
  exists es, ifs, (pad_object <$> MediaTopology.pads topology),
    (link_object <$> MediaTopology.links topology).
  split_and!; try done.
  - symmetry. by eapply Forall2_length.
  - symmetry. by eapply Forall2_length.
  - eapply Forall2_impl; [exact Hes |]. intros raw o (name & ->)%MediaEntity_init_Ok.
    eauto.
  - eapply Forall2_impl; [exact Hifs |]. intros raw o Hinit.
    unfold MediaInterface_init in Hinit.
    apply bind_Ok in Hinit as (p & _ & Hinit).
    apply bind_Ok in Hinit as (t & _ & [= <-]). eauto.
Qed.

Lemma construct_generators topology objects0 :
  construct topology = Ok objects0 →
  let ne := length (MediaTopology.entities topology) in
  let ni := length (MediaTopology.interfaces topology) in
  let np := length (MediaTopology.pads topology) in
  let nl := length (MediaTopology.links topology) in
  MediaDevice_entities objects0 = seq 0 ne
  ∧ MediaDevice_interfaces objects0 = seq ne ni
  ∧ MediaDevice_pads objects0 = seq (ne + ni) np
  ∧ MediaDevice_links objects0 = seq (ne + ni + np) nl.
Proof.
  intros (es & ifs & ps & ls & Ha & Hne & Hni & Hps & Hls & Hes & Hifs)%construct_blocks.
  assert (Forall (λ o, is_MediaEntity o = true ∧ is_MediaInterface o = false
                       ∧ is_MediaPad o = false ∧ is_MediaLink o = false) es) as Ces.
  { apply Forall_forall. intros o (i & Ho)%list_elem_of_lookup_1.
    destruct (Forall2_lookup_r _ _ _ _ _ Hes Ho) as (raw & _ & e & -> & _). done. }
  assert (Forall (λ o, is_MediaEntity o = false ∧ is_MediaInterface o = true
                       ∧ is_MediaPad o = false ∧ is_MediaLink o = false) ifs) as Cifs.
  { apply Forall_forall. intros o (i & Ho)%list_elem_of_lookup_1.
    destruct (Forall2_lookup_r _ _ _ _ _ Hifs Ho) as (raw & _ & e & -> & _). done. }
  assert (Forall (λ o, is_MediaEntity o = false ∧ is_MediaInterface o = false
                       ∧ is_MediaPad o = true ∧ is_MediaLink o = false) ps) as Cps.
  { subst ps. apply Forall_fmap, Forall_forall. done. }
  assert (Forall (λ o, is_MediaEntity o = false ∧ is_MediaInterface o = false
                       ∧ is_MediaPad o = false ∧ is_MediaLink o = true) ls) as Cls.
  { subst ls. apply Forall_fmap, Forall_forall. done. }
  assert (length ps = length (MediaTopology.pads topology)) as Hnp
    by (subst ps; apply length_fmap).
  assert (length ls = length (MediaTopology.links topology)) as Hnl
    by (subst ls; apply length_fmap).
  intros ne ni np nl. subst ne ni np nl. rewrite <- Hne, <- Hni, <- Hnp, <- Hnl.
  clear Hne Hni Hnp Hnl Hps Hls Hes Hifs.
  pose proof (filter_block objects0 is_MediaEntity [] es (ifs ++ ps ++ ls) Ha) as [E1 E1'].
  pose proof (filter_block objects0 is_MediaInterface [] es (ifs ++ ps ++ ls) Ha) as [I1 I1'].
  pose proof (filter_block objects0 is_MediaPad [] es (ifs ++ ps ++ ls) Ha) as [P1 P1'].
  pose proof (filter_block objects0 is_MediaLink [] es (ifs ++ ps ++ ls) Ha) as [L1 L1'].
  assert (objects0 = es ++ ifs ++ (ps ++ ls)) as Ha2 by done.
  pose proof (filter_block objects0 is_MediaEntity es ifs (ps ++ ls) Ha2) as [E2 E2'].
  pose proof (filter_block objects0 is_MediaInterface es ifs (ps ++ ls) Ha2) as [I2 I2'].
  pose proof (filter_block objects0 is_MediaPad es ifs (ps ++ ls) Ha2) as [P2 P2'].
  pose proof (filter_block objects0 is_MediaLink es ifs (ps ++ ls) Ha2) as [L2 L2'].
  assert (objects0 = (es ++ ifs) ++ ps ++ ls) as Ha3 by (by rewrite <- app_assoc).
  pose proof (filter_block objects0 is_MediaEntity (es ++ ifs) ps ls Ha3) as [E3 E3'].
  pose proof (filter_block objects0 is_MediaInterface (es ++ ifs) ps ls Ha3) as [I3 I3'].
  pose proof (filter_block objects0 is_MediaPad (es ++ ifs) ps ls Ha3) as [P3 P3'].
  pose proof (filter_block objects0 is_MediaLink (es ++ ifs) ps ls Ha3) as [L3 L3'].
  assert (objects0 = (es ++ ifs ++ ps) ++ ls ++ []) as Ha4
    by (by rewrite app_nil_r, <- !app_assoc).
  pose proof (filter_block objects0 is_MediaEntity (es ++ ifs ++ ps) ls [] Ha4) as [E4 E4'].
  pose proof (filter_block objects0 is_MediaInterface (es ++ ifs ++ ps) ls [] Ha4) as [I4 I4'].
  pose proof (filter_block objects0 is_MediaPad (es ++ ifs ++ ps) ls [] Ha4) as [P4 P4'].
  pose proof (filter_block objects0 is_MediaLink (es ++ ifs ++ ps) ls [] Ha4) as [L4 L4'].
  rewrite !length_app in *. simpl length in *. rewrite !Nat.add_assoc in *.
  unfold MediaDevice_entities, MediaDevice_interfaces, MediaDevice_pads,
    MediaDevice_links.
  assert (refs objects0
          = seq 0 (length es) ++ seq (length es) (length ifs)
            ++ seq (length es + length ifs) (length ps)
            ++ seq (length es + length ifs + length ps) (length ls)) as ->
    by (rewrite Ha; apply refs_blocks).
  rewrite !filter_app.
  rewrite E1, E2', E3', E4', I1', I2, I3', I4', P1', P2', P3, P4', L1', L2', L3', L4;
    try (eapply Forall_impl; [eassumption |]; simpl; intros ? (? & ? & ? & ?); done).
  by rewrite !app_nil_r.
Qed.

(** The generators of a resolved graph yield what they yield on the
    objects as constructed. *)
Lemma resolve_generators topology objects :
  resolve topology = Ok objects →
  MediaDevice_entities objects = seq 0 (length (MediaTopology.entities topology))
  ∧ MediaDevice_interfaces objects
    = seq (length (MediaTopology.entities topology))
        (length (MediaTopology.interfaces topology))
  ∧ MediaDevice_pads objects
    = seq (length (MediaTopology.entities topology)
           + length (MediaTopology.interfaces topology))
        (length (MediaTopology.pads topology))
  ∧ MediaDevice_links objects
    = seq (length (MediaTopology.entities topology)
           + length (MediaTopology.interfaces topology)
           + length (MediaTopology.pads topology))
        (length (MediaTopology.links topology)).
Proof.
  intros (objects0 & Hc & Hst & _)%resolve_objects.
  rewrite <- MediaDevice_entities_static, <- MediaDevice_interfaces_static,
    <- MediaDevice_pads_static, <- MediaDevice_links_static, Hst.
  rewrite MediaDevice_entities_static, MediaDevice_interfaces_static,
    MediaDevice_pads_static, MediaDevice_links_static.
  by apply construct_generators.
Qed.

Lemma fmap_id_static a : MediaObject.id <$> (static <$> a) = MediaObject.id <$> a.
Proof. rewrite <- list_fmap_compose. by apply list_fmap_ext. Qed.

Lemma resolve_ids topology objects :
  resolve topology = Ok objects → MediaObject.id <$> objects = ids_of topology.
Proof.
  intros (objects0 & Hc & Hst & _)%resolve_objects.
  rewrite <- fmap_id_static, Hst, fmap_id_static. by apply construct_ids.
Qed.

End resolved_graph.

Section resolved_objects.
Context `{Host}.
Implicit Types (a objects : list MediaObject.t).

(** X1. Resolution keeps the objects in the order of the kernel's records:
    the IDs of the objects are those of the records, entities first, then
    interfaces, pads and links, and each of the four generators of the
    device yields one consecutive range of positions. *)
Theorem resolve_keeps_record_order topology objects :
  resolve topology = Ok objects →
  let ne := length (MediaTopology.entities topology) in
  let ni := length (MediaTopology.interfaces topology) in
  let np := length (MediaTopology.pads topology) in
  let nl := length (MediaTopology.links topology) in
  MediaObject.id <$> objects = ids_of topology
  ∧ length objects = ne + ni + np + nl
  ∧ MediaDevice_entities objects = seq 0 ne
  ∧ MediaDevice_interfaces objects = seq ne ni
  ∧ MediaDevice_pads objects = seq (ne + ni) np
  ∧ MediaDevice_links objects = seq (ne + ni + np) nl.
Proof.
  intros Hres ne ni np nl.
  pose proof (resolve_ids _ _ Hres) as Hids.
  destruct (resolve_generators _ _ Hres) as (He & Hi & Hp & Hl).
  split_and!; try done.
  rewrite <- (length_fmap MediaObject.id), Hids. unfold ids_of.
  rewrite !length_app, !length_fmap. subst ne ni np nl. lia.
Qed.

(** What [_finalize] leaves in [links], whatever the class. *)
Lemma finalized_links a o o' :
  finalized a o = Ok o' →
  MediaObject.id o' = MediaObject.id o
  ∧ MediaObject.links o'
    = Some (filter (λ l, incident a (MediaObject.id o) l) (MediaDevice_links a)).
Proof.
  destruct o as [id ls [e|i|p|l]].
  - by intros [_ ->]%finalized_entity_Ok.
  - unfold finalized; simpl. by intros [= <-].
  - by intros (e & _ & ->)%finalized_pad_Ok.
  - by intros (s & k & _ & _ & ->)%finalized_link_Ok.
Qed.

Lemma finalized_this a o o' :
  finalized a o = Ok o' →
  match MediaObject.this o, MediaObject.this o' with
  | AnEntity _, AnEntity _ | AnInterface _, AnInterface _
  | APad _, APad _ | ALink _, ALink _ => True
  | _, _ => False
  end.
Proof.
  intros Hst%finalized_keeps_static.
  destruct o as [? ? []], o' as [? ? []]; done.
Qed.

Lemma incident_true a id l :
  incident a id l = true ↔
  ∃ k, media_link_of a l = Some k
       ∧ (uapi.media_v2_link.source_id k = id ∨ uapi.media_v2_link.sink_id k = id).
Proof.
  unfold incident. destruct (media_link_of a l) as [k|].
  - rewrite orb_true_iff, !Z.eqb_eq. split.
    + intros [->| ->]; eauto.
    + intros (? & [= <-] & [<-|<-]); eauto.
  - split; [done | by intros (? & ? & ?)].
Qed.

Lemma media_link_of_Some a l k :
  media_link_of a l = Some k ↔
  ∃ o lk, a !! l = Some o ∧ MediaObject.this o = ALink lk
          ∧ MediaLink.media_link lk = k.
Proof.
  unfold media_link_of. destruct (a !! l) as [[id ls [| | |lk]]|]; simpl;
    (split; [try done; intros [= <-]; eauto
            | intros (? & ? & [= <-] & Hk & Hm); simpl in Hk; by simplify_eq]).
Qed.

Lemma media_pad_of_Some a p k :
  media_pad_of a p = Some k ↔
  ∃ o pk, a !! p = Some o ∧ MediaObject.this o = APad pk
          ∧ MediaPad.media_pad pk = k.
Proof.
  unfold media_pad_of. destruct (a !! p) as [[id ls [| |pk|]]|]; simpl;
    (split; [try done; intros [= <-]; eauto
            | intros (? & ? & [= <-] & Hk & Hm); simpl in Hk; by simplify_eq]).
Qed.

Lemma media_link_of_links a l k :
  media_link_of a l = Some k → l ∈ MediaDevice_links a.
Proof.
  intros (o & lk & Hl & Hthis & _)%media_link_of_Some.
  apply elem_of_isinstance. exists o. split; [done |].
  unfold is_MediaLink. by rewrite Hthis.
Qed.

Lemma media_pad_of_pads a p k :
  media_pad_of a p = Some k → p ∈ MediaDevice_pads a.
Proof.
  intros (o & pk & Hp & Hthis & _)%media_pad_of_Some.
  apply elem_of_isinstance. exists o. split; [done |].
  unfold is_MediaPad. by rewrite Hthis.
Qed.

Lemma elem_of_incident_links a id l :
  l ∈ filter (λ l, incident a id l) (MediaDevice_links a) ↔
  ∃ k, media_link_of a l = Some k
       ∧ (uapi.media_v2_link.source_id k = id ∨ uapi.media_v2_link.sink_id k = id).
Proof.
  rewrite list_elem_of_filter, Is_true_true, incident_true. split.
  - by intros [? _].
  - intros (k & Hk & Hid). split; [eauto |]. by eapply media_link_of_links.
Qed.

(** An object of a resolved graph and the object it was constructed as. *)
Lemma resolved_lookup topology objects r o' :
  resolve topology = Ok objects → objects !! r = Some o' →
  ∃ objects0 o,
    construct topology = Ok objects0
    ∧ objects0 !! r = Some o
    ∧ finalized objects o = Ok o'.
Proof.
  intros (objects0 & Hc & _ & Hfin)%resolve_objects Hr.
  destruct (Forall2_lookup_r _ _ _ _ _ Hfin Hr) as (o & Ho & Hf). eauto.
Qed.

(** X2. In a resolved graph the [links] of every object, whatever its
    class, are the links of the graph that name the object's ID as their
    source or as their sink, each once. *)
Theorem resolved_links_are_the_incident_links topology objects r o :
  resolve topology = Ok objects →
  objects !! r = Some o →
  ∃ ls,
    MediaObject.links o = Some ls
    ∧ NoDup ls
    ∧ ∀ l, l ∈ ls ↔
           ∃ k, media_link_of objects l = Some k
                ∧ (uapi.media_v2_link.source_id k = MediaObject.id o
                   ∨ uapi.media_v2_link.sink_id k = MediaObject.id o).
Proof.
  intros Hres Hr.
  destruct (resolved_lookup _ _ _ _ Hres Hr) as (objects0 & o0 & _ & _ & Hfin).
  apply finalized_links in Hfin as [Hid Hls].
  eexists. split; [exact Hls |]. split.
  - apply NoDup_filter, NoDup_filter, NoDup_refs.
  - intros l. rewrite elem_of_incident_links, Hid. done.
Qed.

Lemma next_find_id a id s :
  next (filter (λ e, has_id a id e) (refs a)) = Ok s →
  MediaDevice_find_id a id = Some s.
Proof.
  unfold next, MediaDevice_find_id.
  destruct (head _); [by intros [= ->] | done].
Qed.

(** The attributes of a link of a resolved graph. *)
Lemma resolved_link topology objects l lo k :
  resolve topology = Ok objects →
  objects !! l = Some lo →
  MediaObject.this lo = ALink k →
  ∃ s t,
    MediaLink.source k = Some s ∧ MediaLink.sink k = Some t
    ∧ next (filter (λ e, has_id objects
                           (uapi.media_v2_link.source_id (MediaLink.media_link k)) e)
              (refs objects)) = Ok s
    ∧ next (filter (λ e, has_id objects
                           (uapi.media_v2_link.sink_id (MediaLink.media_link k)) e)
              (refs objects)) = Ok t.
Proof.
  intros Hres Hl Hthis.
  destruct (resolved_lookup _ _ _ _ Hres Hl) as (objects0 & o0 & _ & _ & Hfin).
  pose proof (finalized_this _ _ _ Hfin) as Hkind. rewrite Hthis in Hkind.
  destruct o0 as [id ls [| | |l0]]; try done.
  apply finalized_link_Ok in Hfin as (s & t & Hs & Ht & ->).
  simpl in Hthis. injection Hthis as <-. simpl. exists s, t. by split_and!.
Qed.

(** X3. In a resolved graph a link's [source] and [sink] are the first
    objects with the link's [source_id] and [sink_id], and the link is
    among the [links] of both. *)
Theorem resolved_link_is_listed_by_its_ends topology objects l lo k :
  resolve topology = Ok objects →
  objects !! l = Some lo →
  MediaObject.this lo = ALink k →
  ∃ s t,
    MediaLink.source k = Some s
    ∧ MediaLink.sink k = Some t
    ∧ MediaDevice_find_id objects
        (uapi.media_v2_link.source_id (MediaLink.media_link k)) = Some s
    ∧ MediaDevice_find_id objects
        (uapi.media_v2_link.sink_id (MediaLink.media_link k)) = Some t
    ∧ (∃ ls, getattr objects s attr_links = Ok ls ∧ l ∈ ls)
    ∧ (∃ ls, getattr objects t attr_links = Ok ls ∧ l ∈ ls).
Proof.
  intros Hres Hl Hthis.
  destruct (resolved_link _ _ _ _ _ Hres Hl Hthis) as (s & t & Hsrc & Hsnk & Hs & Ht).
  assert (media_link_of objects l = Some (MediaLink.media_link k)) as Hk.
  { apply media_link_of_Some. eauto. }
  assert (∀ e id, next (filter (λ e, has_id objects id e) (refs objects)) = Ok e →
                  (uapi.media_v2_link.source_id (MediaLink.media_link k) = id
                   ∨ uapi.media_v2_link.sink_id (MediaLink.media_link k) = id) →
                  ∃ ls, getattr objects e attr_links = Ok ls ∧ l ∈ ls) as Hend.
  { intros e id (_ & oe & Hoe & Hid)%next_has_id Hends.
    destruct (resolved_lookup _ _ _ _ Hres Hoe) as (objects0 & o0 & _ & _ & Hfin).
    apply finalized_links in Hfin as [Hid0 Hls].
    eexists. split.
    - apply getattr_Ok. exists oe. split; [done |]. exact Hls.
    - apply elem_of_incident_links. exists (MediaLink.media_link k).
      split; [done |]. by rewrite <- Hid0, Hid. }
  exists s, t. split_and!; try done.
  - by apply next_find_id.
  - by apply next_find_id.
  - eapply Hend; [exact Hs | by left].
  - eapply Hend; [exact Ht | by right].
Qed.

(** The entities of a resolved graph are at the positions of the entity
    records, with the IDs of the records. *)
Lemma resolved_entity_id topology objects e ent :
  resolve topology = Ok objects →
  objects !! e = Some ent →
  is_MediaEntity ent = true →
  (uapi.media_v2_entity.id <$> MediaTopology.entities topology) !! e
  = Some (MediaObject.id ent).
Proof.
  intros Hres He Hent.
  destruct (resolve_generators _ _ Hres) as (Hes & _).
  assert (e ∈ MediaDevice_entities objects) as Hin
    by (apply elem_of_isinstance; eauto).
  rewrite Hes in Hin. apply elem_of_seq in Hin as [_ Hlt]. simpl in Hlt.
  pose proof (resolve_ids _ _ Hres) as Hids.
  assert ((MediaObject.id <$> objects) !! e = Some (MediaObject.id ent)) as Hid
    by (by rewrite list_lookup_fmap, He).
  rewrite Hids in Hid. unfold ids_of in Hid.
  by rewrite lookup_app_l in Hid by (by rewrite length_fmap).
Qed.

(** X4. When no two entity records share an ID, the pads that an entity of
    a resolved graph lists in [pads] all have that entity as their
    [entity]. *)
Theorem entity_pads_point_back topology objects e ent pads p :
  resolve topology = Ok objects →
  NoDup (uapi.media_v2_entity.id <$> MediaTopology.entities topology) →
  objects !! e = Some ent →
  attr_pads ent = Some (Some pads) →
  p ∈ pads →
  getattr objects p attr_entity = Ok (Some e).
Proof.
  intros Hres Hnodup He Hpads Hp.
  assert (is_MediaEntity ent = true) as Hent.
  { unfold attr_pads in Hpads. unfold is_MediaEntity.
    by destruct (MediaObject.this ent). }
  (* the pads of the entity are the pads with its ID as their entity_id *)
  destruct (resolved_lookup _ _ _ _ Hres He) as (objects0 & ent0 & _ & _ & Hfin).
  pose proof (finalized_this _ _ _ Hfin) as Hkind.
  destruct ent0 as [id ls [e0| | |]];
    try (unfold is_MediaEntity in Hent; by destruct (MediaObject.this ent)).
  apply finalized_entity_Ok in Hfin as [_ ->]. simpl in Hpads.
  injection Hpads as <-. clear Hkind Hent.
  apply list_elem_of_filter in Hp as [Howned Hpad].
  apply Is_true_true, owned_by_true in Howned as (k & Hk & Hkid).
  apply media_pad_of_Some in Hk as (po & pk & Hpo & Hpthis & <-).
  (* the entity of the pad is the first entity with that ID *)
  destruct (resolved_lookup _ _ _ _ Hres Hpo) as (objects1 & po0 & _ & _ & Hfin).
  pose proof (finalized_this _ _ _ Hfin) as Hkind. rewrite Hpthis in Hkind.
  destruct po0 as [pid pls [| |pk0|]]; try done.
  apply finalized_pad_Ok in Hfin as (e' & He' & ->).
  simpl in Hpthis. injection Hpthis as <-. simpl in Hkid.
  apply next_has_id in He' as (Hin & oe' & Hoe' & Hid').
  apply elem_of_isinstance in Hin as (oe'' & Hoe'' & Hcls).
  assert (oe'' = oe') as -> by congruence.
  (* two entities with one ID are one entity *)
  pose proof (resolved_entity_id _ _ _ _ Hres Hoe' Hcls) as H1.
  pose proof (resolved_entity_id _ _ e _ Hres He eq_refl) as H2.
  simpl in H2. rewrite Hid', Hkid in H1.
  assert (e' = e) as -> by (eapply NoDup_lookup; eauto).
  apply getattr_Ok. eexists. split; [exact Hpo |]. done.
Qed.

(** An entity has no interface when it is constructed. *)
Lemma constructed_entity_no_interface topology objects0 o e :
  construct topology = Ok objects0 →
  o ∈ objects0 →
  MediaObject.this o = AnEntity e →
  MediaEntity.interface e = None.
Proof.
  intros (es & ifs & ps & ls & -> & _ & _ & -> & -> & Hes & Hifs)%construct_blocks
    Ho Hthis.
  rewrite !elem_of_app in Ho. destruct Ho as [Ho|[Ho|[Ho|Ho]]].
  - apply list_elem_of_lookup_1 in Ho as (i & Ho).
    destruct (Forall2_lookup_r _ _ _ _ _ Hes Ho) as (raw & _ & e' & -> & _ & Hnone).
    simpl in Hthis. by injection Hthis as <-.
  - apply list_elem_of_lookup_1 in Ho as (i & Ho).
    destruct (Forall2_lookup_r _ _ _ _ _ Hifs Ho) as (raw & _ & e' & -> & _).
    done.
  - apply list_elem_of_fmap in Ho as (raw & -> & _). done.
  - apply list_elem_of_fmap in Ho as (raw & -> & _). done.
Qed.

Lemma elem_of_option_list {A} (x : A) (mx : option A) :
  x ∈ option_list mx ↔ mx = Some x.
Proof.
  destruct mx as [y|]; simpl.
  - rewrite list_elem_of_singleton. split; [by intros -> | by intros [= ->]].
  - rewrite elem_of_nil. split; [done | by intros ?].
Qed.

Lemma elem_of_interface_endpoints a links i :
  i ∈ interface_endpoints a links ↔
  ∃ l k id,
    l ∈ links ∧ media_link_of a l = Some k
    ∧ id ∈ [uapi.media_v2_link.source_id k; uapi.media_v2_link.sink_id k]
    ∧ MediaDevice_find_id a id = Some i
    ∧ isinstance a is_MediaInterface i = true.
Proof.
  unfold interface_endpoints. rewrite list_elem_of_bind. split.
  - intros (l & Hi & Hl). apply list_elem_of_bind in Hi as (k & Hi & Hk).
    apply elem_of_option_list in Hk.
    apply list_elem_of_bind in Hi as (id & Hi & Hid).
    apply list_elem_of_bind in Hi as (ob & Hi & Hob).
    apply elem_of_option_list in Hob.
    destruct (isinstance a is_MediaInterface ob) eqn:Hcls;
      [| by apply elem_of_nil in Hi].
    apply list_elem_of_singleton in Hi as ->. eauto 10.
  - intros (l & k & id & Hl & Hk & Hid & Hfind & Hcls). exists l. split; [| done].
    apply list_elem_of_bind. exists k. split; [| by apply elem_of_option_list].
    apply list_elem_of_bind. exists id. split; [| done].
    apply list_elem_of_bind. exists i. split; [| by apply elem_of_option_list].
    rewrite Hcls. by apply list_elem_of_singleton.
Qed.

(** X5. In a resolved graph the [interface] of an entity, when it has one,
    is an Interface object that one of the entity's links names as an
    endpoint; when it has none, no endpoint of a link of the entity is an
    Interface object. *)
Theorem entity_interface_is_a_linked_interface topology objects e ent :
  resolve topology = Ok objects →
  objects !! e = Some ent →
  is_MediaEntity ent = true →
  ∃ ls,
    MediaObject.links ent = Some ls
    ∧ match attr_interface ent with
      | Some (Some i) =>
          isinstance objects is_MediaInterface i = true
          ∧ ∃ l k id,
              l ∈ ls ∧ media_link_of objects l = Some k
              ∧ id ∈ [uapi.media_v2_link.source_id k; uapi.media_v2_link.sink_id k]
              ∧ MediaDevice_find_id objects id = Some i
      | _ =>
          ∀ l k id ob,
            l ∈ ls → media_link_of objects l = Some k →
            id ∈ [uapi.media_v2_link.source_id k; uapi.media_v2_link.sink_id k] →
            MediaDevice_find_id objects id = Some ob →
            isinstance objects is_MediaInterface ob = false
      end.
Proof.
  intros Hres He Hent.
  destruct (resolved_lookup _ _ _ _ Hres He) as (objects0 & ent0 & Hc & He0 & Hfin).
  pose proof (finalized_this _ _ _ Hfin) as Hkind.
  destruct ent0 as [id ls0 [e0| | |]];
    try (unfold is_MediaEntity in Hent; by destruct (MediaObject.this ent)).
  assert (MediaEntity.interface e0 = None) as Hnone.
  { apply (constructed_entity_no_interface topology objects0
             (MediaObject.mk id ls0 (AnEntity e0)));
      [done | by eapply list_elem_of_lookup_2 | done]. }
  apply finalized_entity_Ok in Hfin as [Hlen ->]. simpl in Hlen |- *.
  rewrite collect_ifaces_endpoints in *. rewrite Hnone.
  eexists. split; [done |].
  set (ls := filter (λ l, incident objects id l) (MediaDevice_links objects)) in *.
  destruct (interface_endpoints objects ls) as [|i ifaces] eqn:Hifaces; simpl.
  - intros l k id' ob Hl Hk Hid Hfind.
    destruct (isinstance objects is_MediaInterface ob) eqn:Hcls; [| done].
    assert (ob ∈ interface_endpoints objects ls) as Hin
      by (apply elem_of_interface_endpoints; eauto 10).
    rewrite Hifaces in Hin. by apply elem_of_nil in Hin.
  - assert (i ∈ interface_endpoints objects ls) as Hin
      by (rewrite Hifaces; by left).
    apply elem_of_interface_endpoints in Hin
      as (l & k & id' & Hl & Hk & Hid & Hfind & Hcls).
    split; [done |]. eauto 10.
Qed.

Lemma mapM_Ok_fmap {A B} (f : A → result B) (g : A → B) l :
  (∀ x, x ∈ l → f x = Ok (g x)) → mapM f l = Ok (g <$> l).
Proof.
  induction l as [|x l IH]; intros Hf; simpl; [done |].
  rewrite Hf by (by left); simpl. rewrite IH by (intros; apply Hf; by right).
  done.
Qed.

(** X6. In a resolved graph [pad_links] of an entity does not raise, and
    it lists the links that name, as their source or as their sink, the ID
    of a pad whose [entity_id] is the entity's ID. *)
Theorem pad_links_are_the_links_of_the_pads topology objects e ent :
  resolve topology = Ok objects →
  objects !! e = Some ent →
  is_MediaEntity ent = true →
  ∃ ls,
    MediaEntity_pad_links objects e = Ok ls
    ∧ ∀ l, l ∈ ls ↔
           ∃ p kp kl,
             media_pad_of objects p = Some kp
             ∧ uapi.media_v2_pad.entity_id kp = MediaObject.id ent
             ∧ media_link_of objects l = Some kl
             ∧ (uapi.media_v2_link.source_id kl = uapi.media_v2_pad.id kp
                ∨ uapi.media_v2_link.sink_id kl = uapi.media_v2_pad.id kp).
Proof.
  intros Hres He Hent.
  destruct (resolved_lookup _ _ _ _ Hres He) as (objects0 & ent0 & Hc & He0 & Hfin).
  pose proof (finalized_this _ _ _ Hfin) as Hkind.
  destruct ent0 as [id ls0 [e0| | |]];
    try (unfold is_MediaEntity in Hent; by destruct (MediaObject.this ent)).
  apply finalized_entity_Ok in Hfin as [_ ->]. simpl. clear Hkind Hent.
  set (pads := filter (λ p, owned_by objects id p) (MediaDevice_pads objects)).
  set (links_of := λ p : nat,
         filter (λ l, incident objects
                        (from_option MediaObject.id 0%Z (objects !! p)) l)
           (MediaDevice_links objects)).
  (* every pad has its links, and its ID is the ID of its record *)
  assert (∀ p, p ∈ pads →
               ∃ kp, media_pad_of objects p = Some kp
                     ∧ uapi.media_v2_pad.entity_id kp = id
                     ∧ from_option MediaObject.id 0%Z (objects !! p)
                       = uapi.media_v2_pad.id kp
                     ∧ getattr objects p attr_links = Ok (links_of p)) as Hpads.
  { intros p [Howned _]%list_elem_of_filter.
    apply Is_true_true, owned_by_true in Howned as (kp & Hkp & Hid).
    exists kp. split_and!; [done.. | |].
    - apply media_pad_of_Some in Hkp as (po & pk & Hpo & Hpthis & <-).
      destruct (resolved_lookup _ _ _ _ Hres Hpo) as (objects1 & po0 & Hc1 & Hpo0 & Hfin).
      pose proof (finalized_this _ _ _ Hfin) as Hkind. rewrite Hpthis in Hkind.
      destruct po0 as [pid pls [| |pk0|]]; try done.
      apply finalized_pad_Ok in Hfin as (e' & _ & ->).
      rewrite Hpo. simpl in Hpthis |- *. injection Hpthis as <-. simpl.
      apply construct_blocks
        in Hc1 as (es & ifs & ps & ls & -> & _ & _ & -> & -> & Hes & Hifs).
      apply list_elem_of_lookup_2 in Hpo0.
      rewrite !elem_of_app in Hpo0. destruct Hpo0 as [Ho|[Ho|[Ho|Ho]]].
      + apply list_elem_of_lookup_1 in Ho as (i & Ho).
        by destruct (Forall2_lookup_r _ _ _ _ _ Hes Ho) as (raw & _ & ? & ? & _).
      + apply list_elem_of_lookup_1 in Ho as (i & Ho).
        by destruct (Forall2_lookup_r _ _ _ _ _ Hifs Ho) as (raw & _ & ? & ? & _).
      + apply list_elem_of_fmap in Ho as (raw & Heq & _).
        unfold pad_object in Heq. by injection Heq as -> -> ->.
      + apply list_elem_of_fmap in Ho as (raw & ? & _). done.
    - apply media_pad_of_Some in Hkp as (po & pk & Hpo & _).
      destruct (resolved_lookup _ _ _ _ Hres Hpo) as (objects1 & po0 & _ & _ & Hfin).
      apply finalized_links in Hfin as [Hid0 Hls].
      apply getattr_Ok. exists po. split; [done |].
      unfold attr_links, links_of. rewrite Hls, Hpo. simpl. by rewrite Hid0. }
  exists (concat (links_of <$> pads)). split.
  - unfold MediaEntity_pad_links.
    assert (getattr objects e attr_pads = Ok (Some pads)) as ->
      by (apply getattr_Ok; eauto).
    simpl. rewrite (mapM_Ok_fmap _ links_of); [done |].
    intros p Hp. by destruct (Hpads p Hp) as (? & _ & _ & _ & ?).
  - intros l. rewrite list_elem_of_In, in_concat. split.
    + intros (ls & Hls & Hl).
      apply list_elem_of_In, list_elem_of_fmap in Hls as (p & -> & Hp).
      apply list_elem_of_In in Hl.
      destruct (Hpads p Hp) as (kp & Hkp & Hid & Hpid & _).
      apply elem_of_incident_links in Hl as (kl & Hkl & Hends).
      rewrite Hpid in Hends. eauto 10.
    + intros (p & kp & kl & Hkp & Hid & Hkl & Hends).
      assert (p ∈ pads) as Hp.
      { apply list_elem_of_filter. split.
        - apply Is_true_true, owned_by_true. eauto.
        - by eapply media_pad_of_pads. }
      exists (links_of p). split.
      * apply list_elem_of_In, list_elem_of_fmap. eauto.
      * apply list_elem_of_In, elem_of_incident_links.
        destruct (Hpads p Hp) as (kp' & Hkp' & _ & Hpid & _).
        assert (kp' = kp) as -> by congruence.
        rewrite Hpid. eauto.
Qed.

End resolved_objects.

(** ** Searching an entity by name *)

Section find_entity.
Context `{Host} `{Constants}.

Lemma find_entity_in_first_match objects es name :
  (∀ e, e ∈ es → isinstance objects is_MediaEntity e = true) →
  ∃ r,
    find_entity_in objects es name = Ok r
    ∧ match r with
      | Some e =>
          ∃ before after n,
            es = before ++ e :: after
            ∧ getattr objects e attr_name = Ok n
            ∧ fnmatch n name = true
            ∧ ∀ e', e' ∈ before →
                    ∃ n', getattr objects e' attr_name = Ok n'
                          ∧ fnmatch n' name = false
      | None =>
          ∀ e, e ∈ es →
               ∃ n, getattr objects e attr_name = Ok n ∧ fnmatch n name = false
      end.
Proof.
  induction es as [|e es IH]; intros Hes; simpl.
  - exists None. split; [done |]. by intros e ?%elem_of_nil.
  - assert (isinstance objects is_MediaEntity e = true)
      as (o & Ho & Hcls)%isinstance_true by (apply Hes; by left).
    assert (∃ n, getattr objects e attr_name = Ok n) as [n Hn].
    { unfold getattr, attr_name. rewrite Ho; simpl.
      unfold is_MediaEntity in Hcls. destruct (MediaObject.this o); eauto; done. }
    rewrite Hn; simpl. destruct (fnmatch n name) eqn:Hmatch.
    + exists (Some e). split; [done |]. exists [], es, n.
      split_and!; try done. by intros e' ?%elem_of_nil.
    + destruct IH as (r & -> & Hr); [intros; apply Hes; by right |].
      exists r. split; [done |]. destruct r as [e1|].
      * destruct Hr as (before & after & n1 & -> & Hn1 & Hm1 & Hbefore).
        exists (e :: before), after, n1. split_and!; try done.
        intros e' [->|Hin]%elem_of_cons; eauto.
      * intros e' [->|Hin]%elem_of_cons; eauto.
Qed.

(** X7. [find_entity] does not raise.  It returns the first entity of the
    device, in the order of the objects, whose name matches the pattern,
    and [None] when the name of no entity matches. *)
Theorem find_entity_returns_first_match objects name :
  ∃ r,
    MediaDevice_find_entity objects name = Ok r
    ∧ match r with
      | Some e =>
          ∃ before after n,
            MediaDevice_entities objects = before ++ e :: after
            ∧ getattr objects e attr_name = Ok n
            ∧ fnmatch n name = true
            ∧ ∀ e', e' ∈ before →
                    ∃ n', getattr objects e' attr_name = Ok n'
                          ∧ fnmatch n' name = false
      | None =>
          ∀ e, e ∈ MediaDevice_entities objects →
               ∃ n, getattr objects e attr_name = Ok n ∧ fnmatch n name = false
      end.
Proof.
  unfold MediaDevice_find_entity. apply find_entity_in_first_match.
  intros e (o & Ho & Hcls)%elem_of_isinstance.
  apply isinstance_true. eauto.
Qed.

End find_entity.

(** ** The link controller and the flag accessors *)

Section toggling_facts.
Context `{Host} `{Constants} `{Kernel}.
Implicit Types (a objects : list MediaObject.t) (s : Session).

Lemma set_link_enabled_setup self enabled s :
  set_link_enabled self enabled s
  = MediaLink_setup self (requested_flags enabled) s.
Proof. by destruct enabled. Qed.

Lemma set_flags_set_flags v w o : set_flags w (set_flags v o) = set_flags w o.
Proof. by destruct o as [? ? []]. Qed.

(** X8. Setting the enabled state of a link, whether it succeeds or
    raises, changes nothing of the device but the [flags] of that link: the
    other objects, the other attributes of the link, the descriptor and the
    topology stay, no finalizer is registered and no descriptor is
    closed. *)
Theorem set_link_enabled_changes_only_flags s self enabled :
  let s' := (set_link_enabled self enabled s).2 in
  (∀ o, o ≠ self →
        MediaDevice.objects (md s') !! o = MediaDevice.objects (md s) !! o)
  ∧ set_flags 0 <$> MediaDevice.objects (md s') !! self
    = set_flags 0 <$> MediaDevice.objects (md s) !! self
  ∧ MediaDevice.fd (md s') = MediaDevice.fd (md s)
  ∧ MediaDevice.topology (md s') = MediaDevice.topology (md s)
  ∧ finalizers (world s') = finalizers (world s)
  ∧ ∀ fd, closes fd (world s') = closes fd (world s).
Proof.
  rewrite set_link_enabled_setup, MediaLink_setup_run.
  destruct (link_desc _ _ _) as [desc|e]; simpl; [| done].
  assert (∀ fd, closes fd (log (Ioctl (MediaDevice.fd (md s))
                                  (MEDIA_IOC_SETUP_LINK desc)) (world s))
                = closes fd (world s)) as Hcloses.
  { intros fd. rewrite closes_log. simpl. lia. }
  destruct (sys_setup_link _ _ _) as [errno|[]]; simpl; [done |].
  split_and!; try done.
  - intros o Ho. by rewrite list_lookup_alter_ne.
  - rewrite list_lookup_alter_eq.
    destruct (MediaDevice.objects (md s) !! self) as [o|]; simpl; [| done].
    by rewrite set_flags_set_flags.
Qed.

(** A link on which [_setup] succeeds is a link, and its [flags] then hold
    the flag word of the request. *)
Lemma MediaLink_setup_Ok self flags s s' :
  MediaLink_setup self flags s = (Ok (), s') →
  getattr (MediaDevice.objects (md s')) self attr_flags = Ok flags.
Proof.
  rewrite MediaLink_setup_run.
  destruct (link_desc _ _ _) as [desc|e] eqn:Hdesc; [| done].
  destruct (sys_setup_link _ _ _) as [errno|[]]; simpl; [done |].
  intros [= <-]. simpl. apply getattr_flags_assigned.
  unfold link_desc in Hdesc. apply bind_Ok in Hdesc as (sp & Hsp & _).
  unfold MediaLink_source_pad in Hsp. apply bind_Ok in Hsp as (src & Hsrc & _).
  apply getattr_Ok in Hsrc as (lo & Hlo & Hattr).
  apply isinstance_true. exists lo. split; [done |].
  unfold attr_source in Hattr. unfold is_MediaLink.
  by destruct (MediaObject.this lo).
Qed.

(** X9. After a successful [enable()] or [disable()], [is_enabled] of the
    link answers the state that was requested, provided the enabled bit is
    a bit at all. *)
Theorem is_enabled_answers_the_last_request s self enabled s' :
  MEDIA_LNK_FL_ENABLED ≠ 0%Z →
  set_link_enabled self enabled s = (Ok (), s') →
  MediaLink_is_enabled (MediaDevice.objects (md s')) self = Ok enabled.
Proof.
  intros Hbit. rewrite set_link_enabled_setup. intros Hflags%MediaLink_setup_Ok.
  unfold MediaLink_is_enabled. rewrite Hflags; simpl. f_equal.
  destruct enabled; simpl.
  - rewrite Z.land_diag. by apply negb_true_iff, Z.eqb_neq.
  - by rewrite ?Z.land_0_l.
Qed.

(** X10. After a successful [enable()] or [disable()], [is_immutable] of
    the link answers [False], whatever it answered before: the flag word
    assigned holds the enabled bit at most.  The immutable bit is a bit
    other than the enabled bit. *)
Theorem is_immutable_is_forgotten_by_a_toggle s self enabled s' :
  Z.land MEDIA_LNK_FL_ENABLED MEDIA_LNK_FL_IMMUTABLE = 0%Z →
  set_link_enabled self enabled s = (Ok (), s') →
  MediaLink_is_immutable (MediaDevice.objects (md s')) self = Ok false.
Proof.
  intros Hbits. rewrite set_link_enabled_setup. intros Hflags%MediaLink_setup_Ok.
  unfold MediaLink_is_immutable. rewrite Hflags; simpl. f_equal.
  destruct enabled; simpl.
  - by rewrite Hbits.
  - by rewrite ?Z.land_0_l.
Qed.

End toggling_facts.

Section descriptor_of_a_link.
Context `{Host}.
Implicit Types (a objects : list MediaObject.t).

(** A pad of a resolved graph: its ID and its index are those of its
    record, and its entity has the [entity_id] of the record as its ID. *)
Lemma resolved_pad_object topology objects p k :
  resolve topology = Ok objects →
  media_pad_of objects p = Some k →
  isinstance objects is_MediaPad p = true
  ∧ entity_id_of objects p = Ok (uapi.media_v2_pad.entity_id k)
  ∧ getattr objects p attr_index = Ok (uapi.media_v2_pad.index k).
Proof.
  intros Hres (po & pk & Hpo & Hpthis & <-)%media_pad_of_Some.
  destruct (resolved_lookup _ _ _ _ Hres Hpo) as (objects0 & po0 & Hc & Hpo0 & Hfin).
  pose proof (finalized_this _ _ _ Hfin) as Hkind. rewrite Hpthis in Hkind.
  destruct po0 as [pid pls [| |pk0|]]; try done.
  apply finalized_pad_Ok in Hfin as (e & He & ->).
  simpl in Hpthis. injection Hpthis as <-. simpl.
  apply next_has_id in He as (_ & oe & Hoe & Hid).
  (* the pad as constructed has the index of its record *)
  assert (MediaPad.index pk0 = uapi.media_v2_pad.index (MediaPad.media_pad pk0))
    as Hindex.
  { apply construct_blocks
      in Hc as (es & ifs & ps & ls & -> & _ & _ & -> & -> & Hes & Hifs).
    apply list_elem_of_lookup_2 in Hpo0.
    rewrite !elem_of_app in Hpo0. destruct Hpo0 as [Ho|[Ho|[Ho|Ho]]].
    - apply list_elem_of_lookup_1 in Ho as (i & Ho).
      by destruct (Forall2_lookup_r _ _ _ _ _ Hes Ho) as (raw & _ & ? & ? & _).
    - apply list_elem_of_lookup_1 in Ho as (i & Ho).
      by destruct (Forall2_lookup_r _ _ _ _ _ Hifs Ho) as (raw & _ & ? & ? & _).
    - apply list_elem_of_fmap in Ho as (raw & Heq & _).
      unfold pad_object in Heq. by injection Heq as -> -> ->.
    - apply list_elem_of_fmap in Ho as (raw & ? & _). done. }
  split_and!.
  - apply isinstance_true. eauto.
  - unfold entity_id_of.
    assert (getattr objects p attr_entity = Ok (Some e)) as ->
      by (apply getattr_Ok; eauto).
    simpl. apply getattr_Ok. exists oe. split; [done |].
    unfold attr_id. by rewrite Hid.
  - apply getattr_Ok. eexists. split; [exact Hpo |]. unfold attr_index; simpl.
    by rewrite Hindex.
Qed.

(** X11. For a link of a resolved graph whose [source_id] and [sink_id]
    are the IDs of pads, the descriptor that [_setup] sends names each end
    by the [entity_id] of the pad's record and by the low 16 bits of its
    [index], which are the index when it is below 65536. *)
Theorem link_desc_names_the_pad_records topology objects self k s t ps pt flags :
  resolve topology = Ok objects →
  media_link_of objects self = Some k →
  MediaDevice_find_id objects (uapi.media_v2_link.source_id k) = Some s →
  media_pad_of objects s = Some ps →
  MediaDevice_find_id objects (uapi.media_v2_link.sink_id k) = Some t →
  media_pad_of objects t = Some pt →
  link_desc objects self flags
  = Ok (uapi.media_link_desc.mk
          (uapi.media_pad_desc.mk (uapi.media_v2_pad.entity_id ps)
             (uapi.media_v2_pad.index ps mod 65536))
          (uapi.media_pad_desc.mk (uapi.media_v2_pad.entity_id pt)
             (uapi.media_v2_pad.index pt mod 65536))
          flags).
Proof.
  intros Hres (lo & lk & Hlo & Hthis & <-)%media_link_of_Some Hs Hps Ht Hpt.
  destruct (resolved_link _ _ _ _ _ Hres Hlo Hthis)
    as (s' & t' & Hsrc & Hsnk & Hs'%next_find_id & Ht'%next_find_id).
  assert (s' = s) as -> by congruence. assert (t' = t) as -> by congruence.
  destruct (resolved_pad_object _ _ _ _ Hres Hps) as (Hsp & Hse & Hsi).
  destruct (resolved_pad_object _ _ _ _ Hres Hpt) as (Htp & Hte & Hti).
  assert (MediaLink_source_pad objects self = Ok s) as Hsource.
  { unfold MediaLink_source_pad.
    assert (getattr objects self attr_source = Ok (Some s)) as ->.
    { apply getattr_Ok. exists lo. split; [done |].
      unfold attr_source. by rewrite Hthis, Hsrc. }
    simpl. by rewrite Hsp. }
  assert (MediaLink_sink_pad objects self = Ok t) as Hsink.
  { unfold MediaLink_sink_pad.
    assert (getattr objects self attr_sink = Ok (Some t)) as ->.
    { apply getattr_Ok. exists lo. split; [done |].
      unfold attr_sink. by rewrite Hthis, Hsnk. }
    simpl. by rewrite Htp. }
  unfold link_desc. rewrite Hsource; simpl. rewrite Hse; simpl.
  rewrite Hsi; simpl. rewrite Hsink; simpl. rewrite Hte; simpl.
  by rewrite Hti.
Qed.

End descriptor_of_a_link.

(** ** The device: kernel versions, the search by value, construction *)

(** X12. Whatever the integer, the three components that
    [__decode_kernel_version] returns are bytes, and they are the low 24
    bits of the integer: higher bits are dropped. *)
Theorem decode_kernel_version_keeps_24_bits (v : Z) :
  ∃ a b c,
    decode_kernel_version v = (a, b, c)
    ∧ (0 ≤ a < 256)%Z ∧ (0 ≤ b < 256)%Z ∧ (0 ≤ c < 256)%Z
    ∧ (v mod 2 ^ 24 = a * 65536 + b * 256 + c)%Z.
Proof.
  unfold decode_kernel_version. eexists _, _, _. split; [reflexivity |].
  change 255%Z with (Z.ones 8).
  rewrite !Z.land_ones, !Z.shiftr_div_pow2 by lia.
  change (2 ^ 8)%Z with 256%Z. change (2 ^ 16)%Z with 65536%Z.
  change (2 ^ 24)%Z with 16777216%Z.
  Z.div_mod_to_equations. lia.
Qed.

(** X13. [__decode_kernel_version] inverts the kernel's encoding of a
    version: from [(a << 16) + (b << 8) + c] it returns [(a, b, c)], when
    the three numbers are bytes. *)
Theorem decode_kernel_version_inverts_the_encoding (a b c : Z) :
  (0 ≤ a < 256)%Z → (0 ≤ b < 256)%Z → (0 ≤ c < 256)%Z →
  decode_kernel_version (Z.shiftl a 16 + Z.shiftl b 8 + c) = (a, b, c).
Proof.
  intros Ha Hb Hc. unfold decode_kernel_version.
  change 255%Z with (Z.ones 8).
  rewrite !Z.land_ones, !Z.shiftr_div_pow2, !Z.shiftl_mul_pow2 by lia.
  change (2 ^ 8)%Z with 256%Z. change (2 ^ 16)%Z with 65536%Z.
  repeat f_equal; Z.div_mod_to_equations; lia.
Qed.

Section search.
Context `{Host} `{Kernel}.

Lemma opens_log fd e w :
  opens fd (log e w) = opens fd w + (if is_open_of fd e then 1 else 0).
Proof.
  unfold opens, log; simpl. rewrite filter_app, length_app.
  rewrite filter_cons, filter_nil. by destruct (is_open_of fd e).
Qed.

Lemma setup_links_log e w :
  setup_links (log e w) = setup_links w ++ (if is_setup_link e then [e] else []).
Proof.
  unfold setup_links, log; simpl. rewrite filter_app.
  rewrite filter_cons, filter_nil. by destruct (is_setup_link e).
Qed.

(** One round of the loop on a path that opens: the device-info call and,
    whatever it gives, the closing of the descriptor. *)
Lemma search_round fd key value w :
  try_finally
    (mdi ← ioctl_device_info fd;
     device_val ← lift (getattr_decode mdi key);
     mret (fnmatch device_val value))
    (os_close fd) w
  = (match sys_device_info (events w) fd with
     | inr mdi => device_val ← getattr_decode mdi key; Ok (fnmatch device_val value)
     | inl errno => Raise (OSError errno)
     end,
     log (Closed fd) (log (Ioctl fd MEDIA_IOC_DEVICE_INFO) w)).
Proof.
  unfold try_finally, mbind, M_bind, ioctl_device_info, lift, os_close, mret, M_ret.
  destruct (sys_device_info _ _) as [errno|mdi]; [done |].
  by destruct (getattr_decode mdi key).
Qed.

Lemma find_media_device_by_value_in_balance paths key value fd : ∀ w,
  let w' := (find_media_device_by_value_in paths key value w).2 in
  finalizers w' = finalizers w
  ∧ still_open fd w' = still_open fd w
  ∧ setup_links w' = setup_links w.
Proof.
  induction paths as [|path paths IH]; intros w; simpl; [done |].
  unfold os_open.
  destruct (sys_open (events w) path) as [errno|fd']; [apply IH |].
  rewrite search_round.
  set (w3 := log (Closed fd') (log (Ioctl fd' MEDIA_IOC_DEVICE_INFO)
                                 (log (Opened path fd') w))).
  assert (finalizers w3 = finalizers w ∧ still_open fd w3 = still_open fd w
          ∧ setup_links w3 = setup_links w) as (Hf & Ho & Hs).
  { subst w3. split; [done |]. split.
    - unfold still_open. rewrite !opens_log, !closes_log. simpl.
      destruct (fd' =? fd)%Z; lia.
    - rewrite !setup_links_log. simpl. by rewrite !app_nil_r. }
  destruct (match sys_device_info _ _ with inr _ => _ | inl _ => _ end)
    as [[]|e]; simpl; try done.
  destruct (IH w3) as (? & ? & ?). split_and!; congruence.
Qed.

(** X14. The search for a device by the value of a field closes every
    descriptor it opens, whatever it returns or raises, and it registers
    no finalizer: for every descriptor, the number of times it was opened
    less the number of times it was closed is as before. *)
Theorem search_closes_every_descriptor_it_opens key value w fd :
  let w' := (find_media_device_by_value key value w).2 in
  finalizers w' = finalizers w ∧ still_open fd w' = still_open fd w.
Proof.
  unfold find_media_device_by_value.
  destruct (find_media_device_by_value_in_balance glob_dev_media key value fd w)
    as (Hf & Ho & _).
  by split.
Qed.


Lemma find_media_device_by_value_in_locked paths key value w :
  (∀ evs path, path ∈ paths → ∃ errno, sys_open evs path = inl errno) →
  find_media_device_by_value_in paths key value w = (Raise (not_found key value), w).
Proof.
  induction paths as [|p paths IH]; intros Hlocked; simpl; [done |].
  unfold os_open.
  destruct (Hlocked (events w) p) as [errno ->]; [by left |].
  apply IH. intros evs path Hin. apply Hlocked. by right.
Qed.

(** X16. When none of the paths of the glob opens, the empty glob
    included, the search by value raises [FileNotFoundError], and the
    failures to open leave no trace: the world is as it was. *)
Theorem search_skips_what_does_not_open key value w :
  (∀ evs path, path ∈ glob_dev_media → ∃ errno, sys_open evs path = inl errno) →
  find_media_device_by_value key value w = (Raise (not_found key value), w).
Proof.
  intros Hlocked. unfold find_media_device_by_value.
  by apply find_media_device_by_value_in_locked.
Qed.

Lemma preserves_bind {A B X} (obs : World → X) (m : M World A) (f : A → M World B) :
  preserves obs m → (∀ a, preserves obs (f a)) → preserves obs (m ≫= f).
Proof.
  intros Hm Hf w r w'. unfold mbind, M_bind.
  destruct (m w) as [[a|e] w1] eqn:H1.
  - intros H2. rewrite (Hf _ _ _ _ H2). by eapply Hm.
  - intros [= <- <-]. by eapply Hm.
Qed.

Lemma preserves_lift {A X} (obs : World → X) (r : result A) : preserves obs (lift r).
Proof. by intros w r' w' [= <- <-]. Qed.

Lemma preserves_ret {A X} (obs : World → X) (a : A) : preserves obs (mret a).
Proof. by intros w r' w' [= <- <-]. Qed.

Lemma setup_links_os_open path : preserves setup_links (os_open path).
Proof.
  intros w r w'. unfold os_open. destruct (sys_open _ _); intros [= <- <-]; [done |].
  rewrite setup_links_log. simpl. by rewrite app_nil_r.
Qed.

Lemma setup_links_ioctl_device_info fd : preserves setup_links (ioctl_device_info fd).
Proof.
  intros w r w'. unfold ioctl_device_info.
  destruct (sys_device_info _ _); intros [= <- <-];
    rewrite setup_links_log; simpl; by rewrite app_nil_r.
Qed.

Lemma setup_links_ioctl_g_topology fd t : preserves setup_links (ioctl_g_topology fd t).
Proof.
  intros w r w'. unfold ioctl_g_topology.
  destruct (sys_g_topology _ _ _); intros [= <- <-];
    rewrite setup_links_log; simpl; by rewrite app_nil_r.
Qed.

Lemma setup_links_search key value :
  preserves setup_links (find_media_device_by_value key value).
Proof.
  intros w r w' Hrun. unfold find_media_device_by_value in Hrun.
  destruct (find_media_device_by_value_in_balance glob_dev_media key value 0 w)
    as (_ & _ & Hs).
  by rewrite Hrun in Hs.
Qed.

(** X17. Constructing a [MediaDevice], by path or by the value of a field,
    whether it succeeds or raises, issues no setup-link call: the state of
    the links of the hardware is only read. *)
Theorem construction_issues_no_setup_link name key w :
  setup_links (MediaDevice_init name key w).2 = setup_links w.
Proof.
  assert (preserves setup_links (MediaDevice_init name key)) as Hinit.
  { unfold MediaDevice_init.
    apply preserves_bind.
    { destruct (negb _); [apply setup_links_search | apply preserves_ret]. }
    intros name'. apply preserves_bind; [apply setup_links_os_open |]. intros fd.
    apply preserves_bind.
    { unfold read_device_info.
      repeat (apply preserves_bind;
              [first [apply setup_links_ioctl_device_info | apply preserves_lift] |];
              intros ?).
      apply preserves_ret. }
    intros [[[[[[driver model] serial] bus_info] media_version] hw_revision]
              driver_version].
    apply preserves_bind.
    { unfold read_topology, read_raw_topology.
      apply preserves_bind.
      - apply preserves_bind; [apply setup_links_ioctl_g_topology |]. intros sized.
        apply preserves_bind; [apply setup_links_ioctl_g_topology |]. intros got.
        apply preserves_ret.
      - intros t. apply preserves_bind; [apply preserves_lift |]. intros ?.
        apply preserves_ret. }
    intros [topology objects].
    apply preserves_bind; [by intros w0 r0 w0' [= <- <-] |]. intros _.
    apply preserves_ret. }
  destruct (MediaDevice_init name key w) as [r w'] eqn:Hrun.
  by eapply Hinit.
Qed.

Lemma opens_ioctl_device_info fd fd' : preserves (opens fd') (ioctl_device_info fd).
Proof.
  intros w r w'. unfold ioctl_device_info.
  destruct (sys_device_info _ _); intros [= <- <-]; rewrite opens_log; simpl; lia.
Qed.

Lemma opens_ioctl_g_topology fd t fd' : preserves (opens fd') (ioctl_g_topology fd t).
Proof.
  intros w r w'. unfold ioctl_g_topology.
  destruct (sys_g_topology _ _ _); intros [= <- <-]; rewrite opens_log; simpl; lia.
Qed.

Lemma opens_read_device_info fd fd' : preserves (opens fd') (read_device_info fd).
Proof.
  unfold read_device_info.
  repeat (apply preserves_bind;
          [first [apply opens_ioctl_device_info | apply preserves_lift] |];
          intros ?).
  apply preserves_ret.
Qed.

Lemma opens_read_topology fd fd' : preserves (opens fd') (read_topology fd).
Proof.
  unfold read_topology, read_raw_topology.
  apply preserves_bind.
  - apply preserves_bind; [apply opens_ioctl_g_topology |]. intros sized.
    apply preserves_bind; [apply opens_ioctl_g_topology |]. intros got.
    apply preserves_ret.
  - intros t. apply preserves_bind; [apply preserves_lift |]. intros ?.
    apply preserves_ret.
Qed.

Lemma opens_teardown fd w : opens fd (teardown w) = opens fd w.
Proof.
  unfold opens, teardown; simpl. rewrite filter_app, length_app.
  assert (filter (λ e, is_open_of fd e) (map Closed (finalizers w)) = []) as ->;
    [| simpl; lia].
  induction (finalizers w) as [|fd' fds IH]; simpl; [done |].
  by rewrite filter_cons, decide_False by (simpl; by intros []).
Qed.

(** Opening a device by its path opens its descriptor once. *)
Lemma MediaDevice_init_path_opens name w d w' :
  MediaDevice_init name "path" w = (Ok d, w') →
  ∀ fd, opens fd w' = opens fd w + (if (MediaDevice.fd d =? fd)%Z then 1 else 0).
Proof.
  unfold MediaDevice_init. simpl. unfold mbind at 1, M_bind at 1. simpl.
  unfold mbind at 1, M_bind at 1.
  destruct (os_open name w) as [[fd|e] w1] eqn:Hopen; [| done].
  assert (w1 = log (Opened name fd) w) as ->.
  { unfold os_open in Hopen. by destruct (sys_open _ _); simplify_eq. }
  unfold mbind at 1, M_bind at 1.
  destruct (read_device_info fd _) as [[info|e] w2] eqn:Hinfo; [| done].
  destruct info as [[[[[[driver model] serial] bus_info] mv] hw] dv].
  unfold mbind at 1, M_bind at 1.
  destruct (read_topology fd w2) as [[[topology objects]|e] w3] eqn:Htopo; [| done].
  simpl. intros [= <- <-] fd'. simpl.
  change (opens fd' {| events := events w3; finalizers := finalizers w3 ++ [fd] |})
    with (opens fd' w3).
  rewrite (opens_read_topology _ _ _ _ _ Htopo).
  rewrite (opens_read_device_info _ _ _ _ _ Hinfo).
  by rewrite opens_log.
Qed.

(** X18. A construction that succeeds, by path or by the value of a field,
    leaves one descriptor more open than before, the descriptor of the
    device, with the finalizer that closes it registered last; after
    teardown every descriptor has been opened as many more times than
    closed as after a teardown without the construction. *)
Theorem successful_construction_keeps_one_descriptor name key w d w' :
  MediaDevice_init name key w = (Ok d, w') →
  finalizers w' = finalizers w ++ [MediaDevice.fd d]
  ∧ (∀ fd, still_open fd w'
           = (still_open fd w + if (MediaDevice.fd d =? fd)%Z then 1 else 0)%Z)
  ∧ (∀ fd, still_open fd (teardown w') = still_open fd (teardown w)).
Proof.
  intros Hinit.
  (* the search, when there is one, then the construction by path *)
  assert (∃ name' w0,
            finalizers w0 = finalizers w
            ∧ (∀ fd, still_open fd w0 = still_open fd w)
            ∧ MediaDevice_init name' "path" w0 = (Ok d, w'))
    as (name' & w0 & Hf0 & Ho0 & Hpath).
  { unfold MediaDevice_init in Hinit. unfold mbind at 1, M_bind at 1 in Hinit.
    destruct (negb (key =? "path")%string).
    - destruct (find_media_device_by_value key name w) as [[name'|e] w0] eqn:Hfind;
        [| done].
      exists name', w0. split_and!; [| | exact Hinit].
      + unfold find_media_device_by_value in Hfind.
        pose proof (find_media_device_by_value_in_balance glob_dev_media key name
                      0 w) as (Hb & _).
        by rewrite Hfind in Hb.
      + intros fd. unfold find_media_device_by_value in Hfind.
        pose proof (find_media_device_by_value_in_balance glob_dev_media key name
                      fd w) as (_ & Hb & _).
        by rewrite Hfind in Hb.
    - exists name, w. split_and!; [done.. |]. exact Hinit. }
  pose proof (MediaDevice_init_path name' w0) as Hp. rewrite Hpath in Hp.
  destruct Hp as (_ & Hfin & Hcl & _).
  pose proof (MediaDevice_init_path_opens _ _ _ _ Hpath) as Hop.
  assert (∀ fd, still_open fd w'
                = (still_open fd w + if (MediaDevice.fd d =? fd)%Z then 1 else 0)%Z)
    as Hopen.
  { intros fd. rewrite <- Ho0. unfold still_open. rewrite Hop, Hcl.
    destruct (MediaDevice.fd d =? fd)%Z; lia. }
  split_and!; [congruence | done |].
  intros fd. unfold still_open in *.
  rewrite !opens_teardown, !closes_teardown, Hfin, Hf0, filter_app, length_app.
  rewrite filter_cons, filter_nil. specialize (Hopen fd).
  destruct (Z.eqb_spec (MediaDevice.fd d) fd) as [Heq|Hne].
  - rewrite decide_True by done. simpl. lia.
  - rewrite decide_False by done. simpl. lia.
Qed.

(** What [__read_device_info] returns: the fields of the record the kernel
    gave, decoded. *)
Lemma read_device_info_Ok fd w driver model serial bus_info mv hw dv w' :
  read_device_info fd w = (Ok (driver, model, serial, bus_info, mv, hw, dv), w') →
  ∃ mdi,
    sys_device_info (events w) fd = inr mdi
    ∧ decode (uapi.media_device_info.driver mdi) = Some driver
    ∧ decode (uapi.media_device_info.model mdi) = Some model
    ∧ decode (uapi.media_device_info.serial mdi) = Some serial
    ∧ decode (uapi.media_device_info.bus_info mdi) = Some bus_info
    ∧ mv = decode_kernel_version (uapi.media_device_info.media_version mdi)
    ∧ hw = uapi.media_device_info.hw_revision mdi
    ∧ dv = decode_kernel_version (uapi.media_device_info.driver_version mdi).
Proof.
  unfold read_device_info, mbind, M_bind, ioctl_device_info, lift, decoded,
    mret, M_ret.
  destruct (sys_device_info _ _) as [errno|mdi]; [done |].
  destruct (decode (uapi.media_device_info.driver mdi)) eqn:H1; [| done].
  destruct (decode (uapi.media_device_info.model mdi)) eqn:H2; [| done].
  destruct (decode (uapi.media_device_info.serial mdi)) eqn:H3; [| done].
  destruct (decode (uapi.media_device_info.bus_info mdi)) eqn:H4; [| done].
  intros Heq. exists mdi. by simplify_eq.
Qed.

(** X19. On a kernel whose device info does not change, the attributes
    that construction gave the handle are those of the record that
    [get_device_info] returns afterwards: the four strings are its fields
    decoded, the two versions its version numbers split in three, the
    hardware revision as it is.  [get_device_info] leaves the handle as it
    was. *)
Theorem handle_attributes_are_the_device_info name key w d w' :
  (∀ evs evs' fd, sys_device_info evs fd = sys_device_info evs' fd) →
  MediaDevice_init name key w = (Ok d, w') →
  ∃ mdi s',
    MediaDevice_get_device_info (mk_Session d w') = (Ok mdi, s')
    ∧ md s' = d
    ∧ decode (uapi.media_device_info.driver mdi) = Some (MediaDevice.driver d)
    ∧ decode (uapi.media_device_info.model mdi) = Some (MediaDevice.model d)
    ∧ decode (uapi.media_device_info.serial mdi) = Some (MediaDevice.serial d)
    ∧ decode (uapi.media_device_info.bus_info mdi) = Some (MediaDevice.bus_info d)
    ∧ MediaDevice.media_version d
      = decode_kernel_version (uapi.media_device_info.media_version mdi)
    ∧ MediaDevice.hw_revision d = uapi.media_device_info.hw_revision mdi
    ∧ MediaDevice.driver_version d
      = decode_kernel_version (uapi.media_device_info.driver_version mdi).
Proof.
  intros Hstable Hinit.
  unfold MediaDevice_init in Hinit. unfold mbind at 1, M_bind at 1 in Hinit.
  destruct ((if negb (key =? "path")%string
             then find_media_device_by_value key name else mret name) w)
    as [[name'|e] w0]; [| done].
  unfold mbind at 1, M_bind at 1 in Hinit.
  destruct (os_open name' w0) as [[fd|e] w1]; [| done].
  unfold mbind at 1, M_bind at 1 in Hinit.
  destruct (read_device_info fd w1) as [[info|e] w2] eqn:Hinfo; [| done].
  destruct info as [[[[[[driver model] serial] bus_info] mv] hw] dv].
  unfold mbind at 1, M_bind at 1 in Hinit.
  destruct (read_topology fd w2) as [[[topology objects]|e] w3]; [| done].
  simpl in Hinit. injection Hinit as <- <-.
  apply read_device_info_Ok
    in Hinfo as (mdi & Hmdi & Hdriver & Hmodel & Hserial & Hbus & -> & -> & ->).
  exists mdi. eexists. split_and!; try done.
  - unfold MediaDevice_get_device_info, mbind, M_bind, self_md, in_world,
      ioctl_device_info. simpl.
    by rewrite (Hstable _ (events w1)), Hmdi.
  - done.
Qed.

End search.

(** ** [pyv4l2/helpers.py]: the device node of a major and minor number *)

Section device_node.
Context `{Host}.

Lemma list_ascii_of_string_app s t :
  list_ascii_of_string (s ++ t) = list_ascii_of_string s ++ list_ascii_of_string t.
Proof. induction s as [|c s IH]; simpl; [done | by rewrite IH]. Qed.

Lemma prefix_empty s : String.prefix "" s = true.
Proof. by destruct s. Qed.

Lemma substring_0_length s : substring 0 (String.length s) s = s.
Proof. induction s as [|c s IH]; simpl; [done | by rewrite IH]. Qed.

Lemma lstrip_head l :
  (∀ c, head l = Some c → isspace c = false) → lstrip l = l.
Proof.
  destruct l as [|c l]; simpl; [done |]. intros Hc. by rewrite (Hc c).
Qed.

(** [strip] removes the newline that ends a line, and nothing else of a
    name that neither begins nor ends with white space. *)
Lemma strip_line name :
  (∀ c, head (list_ascii_of_string name) = Some c → isspace c = false) →
  (∀ c, last (list_ascii_of_string name) = Some c → isspace c = false) →
  strip (name ++ newline) = name.
Proof.
  intros Hhead Hlast. unfold strip.
  rewrite list_ascii_of_string_app. change (list_ascii_of_string newline)
    with [ascii_of_nat 10].
  rewrite <- (string_of_list_ascii_of_string name) at 2. f_equal.
  destruct (list_ascii_of_string name) as [|c l] eqn:Hname; [done |].
  assert (isspace c = false) as Hc by (by apply Hhead).
  assert (lstrip ((c :: l) ++ [ascii_of_nat 10]) = (c :: l) ++ [ascii_of_nat 10])
    as -> by (simpl; by rewrite Hc).
  rewrite rev_app_distr. change (rev [ascii_of_nat 10] ++ rev (c :: l))
    with (ascii_of_nat 10 :: rev (c :: l)).
  change (lstrip (ascii_of_nat 10 :: rev (c :: l))) with (lstrip (rev (c :: l))).
  rewrite lstrip_head; [apply rev_involutive |].
  intros c' Hc'. apply Hlast. rewrite rev_alt in Hc'.
  by rewrite <- (head_reverse (c :: l)).
Qed.

Lemma DEVNAME_of_first before name after :
  Forall (λ l, String.prefix "DEVNAME=" l = false) before →
  DEVNAME_of (before ++ ("DEVNAME=" ++ name)%string :: after)
  = Some ("/dev/" ++ strip name)%string.
Proof.
  induction 1 as [|l before Hl _ IH]; simpl.
  - rewrite prefix_empty. simpl. by rewrite Nat.sub_0_r, substring_0_length.
  - rewrite Hl. simpl. exact IH.
Qed.

(** X20. When the first line of the uevent file that starts with
    [DEVNAME=] holds, up to its newline, a name that neither begins nor
    ends with white space, the device node is [/dev/] followed by that
    name; lines before it and after it do not matter. *)
Theorem filepath_for_major_minor_reads_DEVNAME major minor before name after :
  uevent_readlines major minor
  = Ok (before ++ ("DEVNAME=" ++ name ++ newline)%string :: after) →
  Forall (λ l, String.prefix "DEVNAME=" l = false) before →
  (∀ c, head (list_ascii_of_string name) = Some c → isspace c = false) →
  (∀ c, last (list_ascii_of_string name) = Some c → isspace c = false) →
  filepath_for_major_minor major minor = Ok ("/dev/" ++ name)%string.
Proof.
  intros Hlines Hbefore Hhead Hlast. unfold filepath_for_major_minor.
  pose proof (DEVNAME_of_first before (name ++ newline) after Hbefore) as Hfirst.
  rewrite strip_line in Hfirst by done.
  rewrite Hlines. simpl in Hfirst |- *. by rewrite Hfirst.
Qed.

Lemma DEVNAME_of_None lines :
  DEVNAME_of lines = None ↔ Forall (λ l, String.prefix "DEVNAME=" l = false) lines.
Proof.
  induction lines as [|l lines IH]; simpl.
  - split; [constructor | done].
  - destruct (String.prefix "DEVNAME=" l) eqn:Hl; simpl.
    + split; [done |]. inversion 1; congruence.
    + rewrite IH. split; [by constructor | by inversion 1].
Qed.

Lemma DEVNAME_of_Some lines p :
  DEVNAME_of lines = Some p → String.prefix "/dev/" p = true.
Proof.
  induction lines as [|l lines IH]; simpl; [done |].
  destruct (String.prefix "DEVNAME=" l); simpl; [| done].
  intros [= <-]. simpl. apply prefix_empty.
Qed.

(** X21. When the uevent file can be read, [filepath_for_major_minor]
    raises [RuntimeError] if no line starts with [DEVNAME=], and only then;
    otherwise it returns a path that starts with [/dev/]. *)
Theorem filepath_for_major_minor_needs_a_DEVNAME_line major minor lines :
  uevent_readlines major minor = Ok lines →
  if forallb (λ l, negb (String.prefix "DEVNAME=" l)) lines
  then filepath_for_major_minor major minor
       = Raise (RuntimeError ("No device-node found for (" ++ decimal major ++ ","
                              ++ decimal minor ++ ")")%string)
  else ∃ p, filepath_for_major_minor major minor = Ok p
            ∧ String.prefix "/dev/" p = true.
Proof.
  intros Hlines. unfold filepath_for_major_minor. rewrite Hlines; simpl.
  destruct (forallb _ lines) eqn:Hall.
  - assert (DEVNAME_of lines = None) as ->; [| done].
    apply DEVNAME_of_None, Forall_forall. intros l Hl.
    rewrite forallb_forall in Hall.
    by apply negb_true_iff, Hall, list_elem_of_In.
  - destruct (DEVNAME_of lines) as [p|] eqn:Hp.
    + exists p. split; [done |]. by eapply DEVNAME_of_Some.
    + apply DEVNAME_of_None in Hp. rewrite Forall_forall in Hp.
      assert (forallb (λ l, negb (String.prefix "DEVNAME=" l)) lines = true)
        as Hall'; [| congruence].
      apply forallb_forall. intros l Hl.
      by apply negb_true_iff, Hp, list_elem_of_In.
Qed.

End device_node.

(** * Properties of [v4l2/subdev.py] and [v4l2/pixelformats.py]

    ** [SubDevice.get_routes] *)

Section routes.
Context {v4l2_subdev_route : Type} (zero_route : v4l2_subdev_route).
Context `{!Routing (v4l2_subdev_route := v4l2_subdev_route)}.

(** X22. [get_routes] issues the sizing call and, when that succeeds, the
    filling call.  When either fails with [ENOTTY] it returns an empty
    array; the [OSError] of any other failure is raised; when both succeed
    it returns as many routes as the sizing call counted. *)
Theorem get_routes_takes_ENOTTY_for_no_routes fd w :
  let sizing := (fd, v4l2_subdev_routing.zero) in
  match sys_subdev_g_routing w fd v4l2_subdev_routing.zero with
  | inl errno =>
      SubDevice_get_routes zero_route fd w
      = (if (errno =? ENOTTY)%Z then Return [] else Throw (Exn (OSError errno)),
         w ++ [sizing])
  | inr sized =>
      let filling := (fd, v4l2_subdev_routing.mk (reply_num_routes sized) true) in
      match sys_subdev_g_routing (w ++ [sizing]) fd filling.2 with
      | inl errno =>
          SubDevice_get_routes zero_route fd w
          = (if (errno =? ENOTTY)%Z then Return [] else Throw (Exn (OSError errno)),
             (w ++ [sizing]) ++ [filling])
      | inr got =>
          ∃ routes,
            SubDevice_get_routes zero_route fd w
            = (Return routes, (w ++ [sizing]) ++ [filling])
            ∧ length routes = reply_num_routes sized
      end
  end.
Proof.
  unfold SubDevice_get_routes, get_routes_try, ioctl_subdev_g_routing. simpl.
  destruct (sys_subdev_g_routing w fd _) as [errno|sized] eqn:Hsized.
  - by destruct (errno =? ENOTTY)%Z.
  - destruct (sys_subdev_g_routing (w ++ _) fd _) as [errno|got] eqn:Hgot.
    + by destruct (errno =? ENOTTY)%Z.
    + eexists. split; [done |]. apply length_filled.
Qed.

End routes.

(** ** Strides and sizes *)

Section geometry.
Local Open Scope Z_scope.

Lemma getitem_lookup {A} (l : list A) (i : Z) x :
  0 ≤ i → l !! Z.to_nat i = Some x → getitem l i = Return x.
Proof.
  intros Hi Hx. unfold getitem.
  destruct (i <? 0) eqn:Hneg; [apply Z.ltb_lt in Hneg; lia |].
  by rewrite Hneg, Hx.
Qed.

Lemma floordiv_Return a b : b ≠ 0 → floordiv a b = Return (a / b).
Proof. intros Hb. unfold floordiv. by apply Z.eqb_neq in Hb as ->. Qed.

(** X23. For a plane that the format has, a positive number of pixels per
    group and a positive alignment, [stride] returns a multiple of the
    alignment: the bytes of the least number of groups that hold [width]
    pixels, rounded up by less than one alignment. *)
Theorem stride_is_the_aligned_row self width plane align info :
  0 ≤ plane →
  PixelFormat.planes self !! Z.to_nat plane = Some info →
  0 < PixelFormat.pixelspergroup self →
  0 < align →
  ∃ groups stride,
    PixelFormat_stride self width plane align = Return stride
    ∧ width ≤ groups * PixelFormat.pixelspergroup self
      < width + PixelFormat.pixelspergroup self
    ∧ groups * PixelFormatPlaneInfo.bytespergroup info ≤ stride
      < groups * PixelFormatPlaneInfo.bytespergroup info + align
    ∧ (align | stride).
Proof.
  intros Hplane Hinfo Hppg Halign.
  pose proof (lookup_lt_Some _ _ _ Hinfo) as Hlt.
  unfold PixelFormat_stride.
  destruct (_ <=? plane) eqn:Hle; [apply Z.leb_le in Hle; lia |].
  rewrite floordiv_Return by lia. simpl.
  rewrite (getitem_lookup _ _ info) by done. simpl.
  rewrite floordiv_Return by lia. simpl.
  exists ((width + PixelFormat.pixelspergroup self - 1)
          / PixelFormat.pixelspergroup self).
  eexists. split; [reflexivity |].
  set (ppg := PixelFormat.pixelspergroup self) in *.
  set (bpg := PixelFormatPlaneInfo.bytespergroup info).
  set (groups := (width + ppg - 1) / ppg).
  set (row := groups * bpg).
  pose proof (Z.div_mod (width + ppg - 1) ppg ltac:(lia)) as Hg.
  pose proof (Z.mod_pos_bound (width + ppg - 1) ppg Hppg) as Hgr.
  pose proof (Z.div_mod (row + align - 1) align ltac:(lia)) as Ha.
  pose proof (Z.mod_pos_bound (row + align - 1) align Halign) as Har.
  fold groups in Hg. split_and!; try lia.
  apply Z.divide_factor_r.
Qed.

(** X24. The bounds of [plane] in [stride]: at or beyond the number of
    planes it raises [RuntimeError]; a negative plane is not refused but
    counted from the end, as Python indexes a list; below minus the number
    of planes it raises [IndexError], once the division by the pixels per
    group has passed. *)
Theorem stride_plane_bounds self width plane align :
  let n := Z.of_nat (length (PixelFormat.planes self)) in
  (n ≤ plane →
   PixelFormat_stride self width plane align = Throw (Exn (RuntimeError "")))
  ∧ (- n ≤ plane < 0 →
     PixelFormat_stride self width plane align
     = PixelFormat_stride self width (plane + n) align)
  ∧ (plane < - n → PixelFormat.pixelspergroup self ≠ 0 →
     PixelFormat_stride self width plane align = Throw IndexError).
Proof.
  intros n. unfold PixelFormat_stride. fold n. split_and!.
  - intros Hle. by apply Z.leb_le in Hle as ->.
  - intros [Hlo Hhi].
    destruct (n <=? plane) eqn:H1; [apply Z.leb_le in H1; lia |].
    destruct (n <=? plane + n) eqn:H2; [apply Z.leb_le in H2; lia |].
    destruct (floordiv _ _) as [groups|e]; simpl; [| done].
    assert (getitem (PixelFormat.planes self) plane
            = getitem (PixelFormat.planes self) (plane + n)) as ->; [| done].
    unfold getitem. fold n.
    destruct (plane <? 0) eqn:H3; [| apply Z.ltb_ge in H3; lia].
    destruct (plane + n <? 0) eqn:H4; [apply Z.ltb_lt in H4; lia |].
    by rewrite H4.
  - intros Hlo Hppg.
    destruct (n <=? plane) eqn:H1; [apply Z.leb_le in H1; lia |].
    rewrite floordiv_Return by done. simpl.
    unfold getitem. fold n.
    destruct (plane <? 0) eqn:H3; [| apply Z.ltb_ge in H3; lia].
    destruct (plane + n <? 0) eqn:H4; [done | apply Z.ltb_ge in H4; lia].
Qed.

(** ** Four-character codes *)

Lemma lor_shiftl_add a b n :
  0 ≤ n → 0 ≤ a < 2 ^ n → Z.lor a (Z.shiftl b n) = a + b * 2 ^ n.
Proof.
  intros Hn Ha.
  assert (Z.land a (Z.shiftl b n) = 0) as Hland.
  { apply Z.bits_inj'. intros i Hi. rewrite Z.land_spec, Z.bits_0.
    destruct (Z.lt_ge_cases i n) as [Hlt|Hge].
    - rewrite (Z.shiftl_spec_low b n i Hlt). apply andb_false_r.
    - rewrite <- (Z.mod_small a (2 ^ n)) by lia.
      rewrite Z.mod_pow2_bits_high by lia. done. }
  rewrite <- Z.lxor_lor by done. rewrite <- Z.add_nocarry_lxor by done.
  by rewrite Z.shiftl_mul_pow2.
Qed.

Lemma str_to_fourcc_value c0 c1 c2 c3 rest :
  0 ≤ c0 < 256 → 0 ≤ c1 < 256 → 0 ≤ c2 < 256 →
  str_to_fourcc (c0 :: c1 :: c2 :: c3 :: rest)
  = Return (c0 + c1 * 256 + c2 * 65536 + c3 * 16777216).
Proof.
  intros H0 H1 H2. unfold str_to_fourcc. simpl. f_equal.
  rewrite Z.shiftl_0_r.
  rewrite (lor_shiftl_add c0 c1 8) by lia.
  rewrite (lor_shiftl_add _ c2 16) by lia.
  rewrite (lor_shiftl_add _ c3 24) by lia.
  lia.
Qed.

(** X25. [str_to_fourcc] packs the first four characters of a string, low
    byte first, when their code points are below 256, and ignores the
    characters after them: the code is below [2 ^ 32], and each character
    is the byte of the code at its position. *)
Theorem str_to_fourcc_packs_four_bytes c0 c1 c2 c3 rest :
  0 ≤ c0 < 256 → 0 ≤ c1 < 256 → 0 ≤ c2 < 256 → 0 ≤ c3 < 256 →
  ∃ fourcc,
    str_to_fourcc (c0 :: c1 :: c2 :: c3 :: rest) = Return fourcc
    ∧ 0 ≤ fourcc < 2 ^ 32
    ∧ Z.land fourcc 255 = c0
    ∧ Z.land (Z.shiftr fourcc 8) 255 = c1
    ∧ Z.land (Z.shiftr fourcc 16) 255 = c2
    ∧ Z.land (Z.shiftr fourcc 24) 255 = c3.
Proof.
  intros H0 H1 H2 H3. eexists. split; [by apply str_to_fourcc_value |].
  change 255 with (Z.ones 8).
  rewrite !Z.land_ones, !Z.shiftr_div_pow2 by lia.
  change (2 ^ 8) with 256. change (2 ^ 16) with 65536.
  change (2 ^ 24) with 16777216. change (2 ^ 32) with 4294967296.
  split_and!; try lia; Z.div_mod_to_equations; lia.
Qed.

(** X26. Two strings of four characters with code points below 256 that
    have the same code are the same string. *)
Theorem str_to_fourcc_is_injective (s t : list Z) :
  length s = 4%nat → length t = 4%nat →
  Forall (λ c, 0 ≤ c < 256) s → Forall (λ c, 0 ≤ c < 256) t →
  str_to_fourcc s = str_to_fourcc t → s = t.
Proof.
  intros Hs Ht Hsb Htb.
  destruct s as [|a0 [|a1 [|a2 [|a3 [|]]]]]; try done.
  destruct t as [|b0 [|b1 [|b2 [|b3 [|]]]]]; try done.
  rewrite !Forall_cons in Hsb, Htb.
  destruct Hsb as (? & ? & ? & ? & _), Htb as (? & ? & ? & ? & _).
  rewrite !str_to_fourcc_value by done.
  intros [= Heq].
  assert (a0 = b0 ∧ a1 = b1 ∧ a2 = b2 ∧ a3 = b3) as (-> & -> & -> & ->) by lia.
  done.
Qed.

End geometry.

(** ** The tables of formats *)

Section tables.
Local Open Scope Z_scope.

Lemma head_filter_spec {A} (P : A → bool) (l : list A) :
  match head (filter (λ x, P x) l) with
  | Some x => x ∈ l ∧ P x = true
  | None => ∀ x, x ∈ l → P x = false
  end.
Proof.
  induction l as [|y l IH]; simpl.
  - by intros x ?%elem_of_nil.
  - rewrite filter_cons. destruct (P y) eqn:Hy.
    + rewrite decide_True by done. simpl. split; [by left | done].
    + rewrite decide_False by (by intros []).
      destruct (head _) as [x|].
      * destruct IH as [? ?]. split; [by right | done].
      * intros x [->|Hx]%elem_of_cons; eauto.
Qed.

(** X27. The class body of [PixelFormats] runs without raising.  The
    lookup by V4L2 code returns a format of the table with that code, and
    raises [StopIteration] when the table has none; no two formats of the
    table share a V4L2 code, so that each format is found by its own. *)
Theorem every_pixel_format_is_found_by_its_code :
  mapM (λ v, v) PixelFormats_attributes = Return PixelFormats_values
  ∧ (∀ fourcc,
       match PixelFormats_find_v4l2_fourcc fourcc with
       | Return v => v ∈ PixelFormats_values ∧ PixelFormat.v4l2_fourcc v = fourcc
       | Throw e =>
           e = Exn StopIteration
           ∧ ∀ v, v ∈ PixelFormats_values → PixelFormat.v4l2_fourcc v ≠ fourcc
       end)
  ∧ (∀ v, v ∈ PixelFormats_values →
          PixelFormats_find_v4l2_fourcc (PixelFormat.v4l2_fourcc v) = Return v).
Proof.
  split_and!.
  - by vm_compute.
  - intros fourcc. unfold PixelFormats_find_v4l2_fourcc.
    pose proof (head_filter_spec (has_v4l2_fourcc fourcc) PixelFormats_values) as Hhead.
    destruct (head _) as [v|].
    + destruct Hhead as [Hv Hcode]. split; [done |]. by apply Z.eqb_eq.
    + split; [done |]. intros v Hv. by apply Z.eqb_neq, Hhead.
  - intros v Hv. unfold PixelFormats_values in Hv.
    repeat (apply elem_of_cons in Hv as [->|Hv]; [by vm_compute |]).
    by apply elem_of_nil in Hv.
Qed.

Lemma str_to_fourcc_short s :
  (length s < 4)%nat → str_to_fourcc s = Throw IndexError.
Proof.
  intros Hs. destruct s as [|c0 [|c1 [|c2 [|c3 s]]]]; try done.
  simpl in Hs. lia.
Qed.

Lemma str_to_fourcc_long s :
  (4 ≤ length s)%nat → ∃ fourcc, str_to_fourcc s = Return fourcc.
Proof.
  intros Hs. destruct s as [|c0 [|c1 [|c2 [|c3 s]]]]; simpl in Hs; try lia.
  by eexists.
Qed.

Section unsupported_formats.
Context (fourcc_to_str : Z → list Z).

(** X28. For a code that no format of the table has,
    [find_v4l2_fourcc_unsupported] raises [IndexError] when [fourcc_to_str]
    gives fewer than four characters; otherwise it returns a format without
    planes, whose frame size is 0 whatever the width and the height, and
    whose [stride] raises for every plane. *)
Theorem unsupported_pixel_format_has_no_planes fourcc :
  PixelFormats_find_v4l2_fourcc fourcc = Throw (Exn StopIteration) →
  ((length (fourcc_to_str fourcc) < 4)%nat →
   PixelFormats_find_v4l2_fourcc_unsupported fourcc_to_str fourcc
   = Throw IndexError)
  ∧ ((4 ≤ length (fourcc_to_str fourcc))%nat →
     ∃ f,
       PixelFormats_find_v4l2_fourcc_unsupported fourcc_to_str fourcc = Return f
       ∧ PixelFormat.planes f = []
       ∧ (∀ width height align,
            PixelFormat_framesize f width height align = Return 0)
       ∧ (∀ width plane align,
            ∃ e, PixelFormat_stride f width plane align = Throw e)).
Proof.
  intros Hfind. unfold PixelFormats_find_v4l2_fourcc_unsupported. rewrite Hfind.
  unfold PixelFormat_init. simpl. split.
  - intros Hs. by rewrite str_to_fourcc_short.
  - intros [code ->]%str_to_fourcc_long. simpl. eexists. split; [reflexivity |].
    split_and!; try done.
    intros width plane align. unfold PixelFormat_stride. simpl.
    destruct (_ <=? plane); by eexists.
Qed.

(** X29. For a code that no meta format of the table has, the format that
    [MetaFormats.find_v4l2_fourcc_unsupported] returns has no pixels per
    group: its [stride] raises [ZeroDivisionError] whatever the width and
    the alignment. *)
Theorem unsupported_meta_format_has_no_stride fourcc f :
  MetaFormats_find_v4l2_fourcc fourcc = Throw (Exn StopIteration) →
  MetaFormats_find_v4l2_fourcc_unsupported fourcc_to_str fourcc = Return f →
  ∀ width align, MetaFormat_stride f width align = Throw ZeroDivisionError.
Proof.
  intros Hfind. unfold MetaFormats_find_v4l2_fourcc_unsupported. rewrite Hfind.
  unfold MetaFormat_init.
  destruct (str_to_fourcc _) as [code|e]; simpl; [| done].
  by intros [= <-] width align.
Qed.

End unsupported_formats.

End tables.

(** * The properties on the examples *)

(** X1 on the pipeline: two entities, one interface, two pads, two links. *)
Lemma resolve_keeps_record_order_witness :
  @resolve a_host (pipeline 0) = Ok resolved_pipeline
  ∧ MediaObject.id <$> resolved_pipeline = ids_of (pipeline 0)
  ∧ MediaDevice_pads resolved_pipeline = seq 3 2.
Proof.
  destruct (@resolve_keeps_record_order a_host (pipeline 0) resolved_pipeline eq_refl)
    as (Hids & _ & _ & _ & Hpads & _).
  split; [reflexivity |]. split; [exact Hids | exact Hpads].
Defined.

(** X2 on the source pad of the pipeline. *)
Lemma resolved_links_are_the_incident_links_witness :
  ∃ o, resolved_pipeline !! 3 = Some o
    ∧ ∃ ls,
        MediaObject.links o = Some ls
        ∧ NoDup ls
        ∧ ∀ l, l ∈ ls ↔
               ∃ k, media_link_of resolved_pipeline l = Some k
                    ∧ (uapi.media_v2_link.source_id k = MediaObject.id o
                       ∨ uapi.media_v2_link.sink_id k = MediaObject.id o).
Proof.
  eexists. split; [reflexivity |].
  apply (@resolved_links_are_the_incident_links a_host (pipeline 0)
           resolved_pipeline 3); reflexivity.
Defined.

(** X3 on the data link of the pipeline. *)
Lemma resolved_link_is_listed_by_its_ends_witness :
  ∃ ls, getattr resolved_pipeline 3 attr_links = Ok ls ∧ 5 ∈ ls.
Proof.
  edestruct (@resolved_link_is_listed_by_its_ends a_host (pipeline 0)
               resolved_pipeline 5)
    as (s & t & Hs & _ & _ & _ & Hls & _); [reflexivity.. |].
  injection Hs as <-. exact Hls.
Defined.

(** X4 on the sensor and its pad. *)
Lemma entity_pads_point_back_witness :
  getattr resolved_pipeline 3 attr_entity = Ok (Some 0).
Proof.
  eapply (@entity_pads_point_back a_host (pipeline 0) resolved_pipeline 0).
  - reflexivity.
  - apply (bool_decide_unpack _). vm_compute. exact I.
  - reflexivity.
  - reflexivity.
  - apply (bool_decide_unpack _). vm_compute. exact I.
Defined.

(** X5 on the capture node, which link 6 attaches to the interface. *)
Lemma entity_interface_is_a_linked_interface_witness :
  ∃ ent, resolved_pipeline !! 1 = Some ent
    ∧ attr_interface ent = Some (Some 2)
    ∧ isinstance resolved_pipeline is_MediaInterface 2 = true.
Proof.
  eexists. split; [reflexivity |]. split; [reflexivity |].
  edestruct (@entity_interface_is_a_linked_interface a_host (pipeline 0)
               resolved_pipeline 1)
    as (ls & _ & Hiface); [reflexivity.. |].
  simpl in Hiface. exact (proj1 Hiface).
Defined.

(** X6 on the sensor. *)
Lemma pad_links_are_the_links_of_the_pads_witness :
  ∃ ls, MediaEntity_pad_links resolved_pipeline 0 = Ok ls.
Proof.
  edestruct (@pad_links_are_the_links_of_the_pads a_host (pipeline 0)
               resolved_pipeline 0)
    as (ls & Hls & _); [reflexivity.. |].
  exists ls. exact Hls.
Defined.

(** X9 on the data link, enabled on a kernel that accepts the call. *)
Lemma is_enabled_answers_the_last_request_witness :
  @MediaLink_is_enabled a_host
    (MediaDevice.objects
       (md (@set_link_enabled a_host (mock_kernel (pipeline 0)) 5 true
              (a_session 0)).2)) 5
  = Ok true.
Proof.
  apply (@is_enabled_answers_the_last_request a_host (mock_kernel (pipeline 0))
           (a_session 0) 5 true).
  - simpl. lia.
  - reflexivity.
Defined.

(** X10 on the data link when it starts enabled and immutable. *)
Lemma is_immutable_is_forgotten_by_a_toggle_witness :
  @MediaLink_is_immutable linux_constants
    (MediaDevice.objects (md (a_session 3))) 5 = Ok true
  ∧ @MediaLink_is_immutable linux_constants
      (MediaDevice.objects
         (md (@set_link_enabled a_host (mock_kernel (pipeline 3)) 5 true
                (a_session 3)).2)) 5
    = Ok false.
Proof.
  split; [reflexivity |].
  apply (@is_immutable_is_forgotten_by_a_toggle a_host linux_constants
           (mock_kernel (pipeline 3)) (a_session 3) 5 true).
  - reflexivity.
  - reflexivity.
Defined.

(** X11 on the data link when the sensor's pad has index 70000: the
    descriptor holds 4464. *)
Lemma link_desc_names_the_pad_records_witness :
  link_desc resolved_far_pipeline 5 1
  = Ok (uapi.media_link_desc.mk (uapi.media_pad_desc.mk 1 4464)
          (uapi.media_pad_desc.mk 2 0) 1).
Proof.
  apply (@link_desc_names_the_pad_records a_host far_pipeline
           resolved_far_pipeline 5 (data_link 0) 3 4
           (uapi.media_v2_pad.mk 3 1 2 70000) capture_pad 1); reflexivity.
Defined.

(** X13 on version 6.6.0. *)
Lemma decode_kernel_version_inverts_the_encoding_witness :
  decode_kernel_version (Z.shiftl 6 16 + Z.shiftl 6 8 + 0) = (6, 6, 0)%Z.
Proof. apply decode_kernel_version_inverts_the_encoding; lia. Defined.


(** X16 on a host whose device nodes do not open. *)
Lemma search_skips_what_does_not_open_witness :
  @find_media_device_by_value a_host locked_kernel "driver" "vimc" new_world
  = (Raise (not_found "driver" "vimc"), new_world).
Proof.
  apply (@search_skips_what_does_not_open a_host locked_kernel).
  intros evs path _. exists 13%Z. reflexivity.
Defined.

(** X18 on the construction of the example session. *)
Lemma successful_construction_keeps_one_descriptor_witness :
  finalizers (world (a_session 0)) = [3%Z]
  ∧ still_open 3 (world (a_session 0)) = 1%Z
  ∧ still_open 3 (teardown (world (a_session 0))) = 0%Z.
Proof.
  destruct (@successful_construction_keeps_one_descriptor a_host
              (mock_kernel (pipeline 0)) "/dev/media0" "path" new_world
              (md (a_session 0)) (world (a_session 0)) eq_refl)
    as (Hfin & Hopen & Hdown).
  split; [exact Hfin |]. split; [exact (Hopen 3%Z) | exact (Hdown 3%Z)].
Defined.

(** X19 on the example session and the mock kernel. *)
Lemma handle_attributes_are_the_device_info_witness :
  ∃ mdi s',
    @MediaDevice_get_device_info (mock_kernel (pipeline 0))
      (mk_Session (md (a_session 0)) (world (a_session 0))) = (Ok mdi, s')
    ∧ @decode a_host (uapi.media_device_info.driver mdi)
      = Some (MediaDevice.driver (md (a_session 0))).
Proof.
  destruct (@handle_attributes_are_the_device_info a_host
              (mock_kernel (pipeline 0)) "/dev/media0" "path" new_world
              (md (a_session 0)) (world (a_session 0))
              (λ _ _ _, eq_refl) eq_refl)
    as (mdi & s' & Hget & _ & Hdriver & _).
  exists mdi, s'. split; [exact Hget | exact Hdriver].
Defined.

(** X20 on the uevent file of the example host. *)
Lemma filepath_for_major_minor_reads_DEVNAME_witness :
  @filepath_for_major_minor a_host 81 0 = Ok "/dev/video0"%string.
Proof.
  apply (@filepath_for_major_minor_reads_DEVNAME a_host 81 0
           [("MAJOR=81" ++ newline)%string] "video0" []).
  - reflexivity.
  - apply (bool_decide_unpack _). vm_compute. exact I.
  - simpl. intros c [= <-]. reflexivity.
  - simpl. intros c [= <-]. reflexivity.
Defined.

(** X21 on the same file. *)
Lemma filepath_for_major_minor_needs_a_DEVNAME_line_witness :
  ∃ p, @filepath_for_major_minor a_host 81 0 = Ok p
       ∧ String.prefix "/dev/" p = true.
Proof.
  exact (@filepath_for_major_minor_needs_a_DEVNAME_line a_host 81 0 _ eq_refl).
Defined.

(** X23 on the second plane of NV12, 641 pixels wide, aligned to 64. *)
Lemma stride_is_the_aligned_row_witness :
  ∃ stride, PixelFormat_stride NV12 641 1 64 = Return stride ∧ (64 | stride)%Z.
Proof.
  destruct (stride_is_the_aligned_row NV12 641 1 64
              (PixelFormatPlaneInfo.mk 2 2))
    as (groups & stride & Hstride & _ & _ & Hdiv).
  - lia.
  - reflexivity.
  - reflexivity.
  - reflexivity.
  - exists stride. split; [exact Hstride | exact Hdiv].
Defined.

(** X24 on NV12: plane -1 is the second plane. *)
Lemma stride_plane_bounds_witness :
  PixelFormat_stride NV12 640 (-1) 1 = PixelFormat_stride NV12 640 1 1
  ∧ PixelFormat_stride NV12 640 2 1 = Throw (Exn (RuntimeError "")).
Proof.
  destruct (stride_plane_bounds NV12 640 (-1) 1) as (_ & Hneg & _).
  destruct (stride_plane_bounds NV12 640 2 1) as (Hhigh & _ & _).
  split; [apply Hneg | apply Hhigh]; simpl; lia.
Defined.

(** X25 on the code of NV12. *)
Lemma str_to_fourcc_packs_four_bytes_witness :
  ∃ fourcc, str_to_fourcc (codes "NV12") = Return fourcc
            ∧ Z.land (Z.shiftr fourcc 16) 255 = 49%Z.
Proof.
  destruct (str_to_fourcc_packs_four_bytes 78 86 49 50 [])
    as (fourcc & Hcode & _ & _ & _ & Hbyte & _); try lia.
  exists fourcc. split; [exact Hcode | exact Hbyte].
Defined.

(** X26 on the code of NV12, written in two ways. *)
Lemma str_to_fourcc_is_injective_witness :
  codes "NV12" = [78; 86; 49; 50]%Z.
Proof.
  apply str_to_fourcc_is_injective.
  - reflexivity.
  - reflexivity.
  - apply (bool_decide_unpack _). vm_compute. exact I.
  - apply (bool_decide_unpack _). vm_compute. exact I.
  - reflexivity.
Defined.

(** X27 on NV12. *)
Lemma every_pixel_format_is_found_by_its_code_witness :
  PixelFormats_find_v4l2_fourcc (PixelFormat.v4l2_fourcc NV12) = Return NV12.
Proof.
  apply (proj2 (proj2 every_pixel_format_is_found_by_its_code)).
  do 3 apply list_elem_of_further. apply list_elem_of_here.
Defined.

(** X28 on the code 0, which no format has. *)
Lemma unsupported_pixel_format_has_no_planes_witness :
  ∃ f, PixelFormats_find_v4l2_fourcc_unsupported (λ _, codes "XXXX") 0 = Return f
       ∧ PixelFormat.planes f = [].
Proof.
  destruct (proj2 (unsupported_pixel_format_has_no_planes (λ _, codes "XXXX") 0
                     eq_refl))
    as (f & Hf & Hplanes & _).
  - simpl. lia.
  - exists f. split; [exact Hf | exact Hplanes].
Defined.

(** X29 on the code 0, which no meta format has. *)
Lemma unsupported_meta_format_has_no_stride_witness :
  ∃ f, MetaFormats_find_v4l2_fourcc_unsupported (λ _, codes "XXXX") 0 = Return f
       ∧ MetaFormat_stride f 640 1 = Throw ZeroDivisionError.
Proof.
  eexists. split; [reflexivity |].
  apply (unsupported_meta_format_has_no_stride (λ _, codes "XXXX") 0);
    reflexivity.
Defined.
